(** * traffics: a shallow embedding of the port forwarder's core

  The development follows the package layout of the repository:
  [constant] (protocol and network names), [netip] (the address values the
  code manipulates), [resolver], [dialer], [listener] and [traffics] (the
  [main] package: configuration and supervisor).

  Go values are modelled as the code has them: [Protocol] is a string,
  [NetworkVersion] an integer, slices are lists, Go maps are [gmap]s, and
  functions that return [(T, error)] return a [result].  Calls that leave
  the repository (the operating system, the Go runtime's random source,
  [url.Parse]) are taken as explicit parameters. *)

From Stdlib Require Import ZArith Ascii String List Bool DecimalString.
From stdpp Require Import base decidable option list gmap strings fin_maps.

Local Open Scope string_scope.
Local Open Scope list_scope.
Local Open Scope Z_scope.

(** ** Go errors

  An [error] value is a chain: [fmt.Errorf] with [%w] and the wrapper types
  of the standard library ([*net.OpError], [*os.SyscallError]) point at an
  inner error, [syscall.Errno] and [errors.New] values are leaves. *)

Inductive error : Type :=
| ErrNew (msg : string)
| ErrWrap (msg : string) (inner : error)
| Errno (code : Z)
| SyscallError (call : string) (inner : error)
| OpError (op : string) (inner : error)
| ErrDeadlineExceeded
| ErrCanceled.

(** [(T, error)] results. *)
Inductive result (A : Type) : Type :=
| Ok (a : A)
| Err (e : error).
Arguments Ok {A} a.
Arguments Err {A} e.

Definition is_ok {A} (r : result A) : bool :=
match r with Ok _ => true | Err _ => false end.

(** ** Small pieces of the Go standard library *)

Module strings.

(** [strings.Split(s, sep)] for a one-byte separator: the pieces between
    the separators, ["" ] alone for the empty string. *)
Fixpoint Split (s : string) (sep : ascii) : list string :=
  match s with
  | EmptyString => [EmptyString]
  | String a r =>
      if Ascii.eqb a sep then EmptyString :: Split r sep
      else match Split r sep with
           | [] => [String a EmptyString]
           | h :: t => String a h :: t
           end
  end.

(** [strings.Join(parts, sep)]. *)
Fixpoint Join (parts : list string) (sep : ascii) : string :=
  match parts with
  | [] => EmptyString
  | [p] => p
  | p :: rest => p +:+ String sep (Join rest sep)
  end.

End strings.

Module strconv.

(** [strconv.Itoa]: the decimal form, with a leading minus sign. *)
Definition Itoa (i : Z) : string := NilZero.string_of_int (Z.to_int i).

End strconv.

(** ** Package constant *)

Module constant.

Definition Protocol := string.

Definition ProtocolTCP : Protocol := "tcp".
Definition ProtocolUDP : Protocol := "udp".
Definition ProtocolIP : Protocol := "ip".
Definition ProtocolTCPUDP : Protocol := "tcp+udp".

Definition FamilyIPv4 : string := "4".
Definition FamilyIPv6 : string := "6".

(** Durations are counted in nanoseconds, as [time.Duration] is. *)
Definition Second : Z := 1000000000.
Definition Minute : Z := 60 * Second.

Definition KeepAliveInitial : Z := 10 * Minute.
Definition KeepAliveInterval : Z := 75 * Second.
Definition KeepAliveProbeCount : Z := 16.
Definition DialerDefaultTimeout : Z := 5 * Second.
Definition ResolverDefaultReadTimeout : Z := 5 * Second.

Definition ProtocolList := list string.

Definition ToProtocolList (p : Protocol) : ProtocolList :=
  if String.eqb p ProtocolTCP then ["tcp"]
  else if String.eqb p ProtocolUDP then ["udp"]
  else if String.eqb p ProtocolTCPUDP || String.eqb p "" then ["tcp"; "udp"]
  else if String.eqb p ProtocolIP then ["ip"]
  else [].

Definition ParseProtocol (name : string) : Protocol :=
  if (String.length name =? 0)%nat then ""
  else if String.eqb name ProtocolTCP then ProtocolTCP
  else if String.eqb name ProtocolUDP then ProtocolUDP
  else if String.eqb name ProtocolIP then ProtocolIP
  else
    let multi := strings.Split name "+"%char in
    match multi with
    | [m0; m1] =>
        if (String.eqb m0 "tcp" && String.eqb m1 "udp")
           || (String.eqb m0 "udp" && String.eqb m1 "tcp")
        then ProtocolTCPUDP
        else ""
    | _ => ""
    end.

Definition NetworkVersion := Z.

Definition NetworkVersion4 : NetworkVersion := 4.
Definition NetworkVersion6 : NetworkVersion := 6.
Definition NetworkVersionDual : NetworkVersion := 0.

Definition ErrInvalidNetwork : error := ErrNew "dialer: invalid network".

Record Network : Type := mkNetwork {
  Protocol_ : Protocol;
  Version : NetworkVersion
}.

(** [member s l]: the [case a, b, c:] test of a string switch. *)
Definition member (s : string) (l : list string) : bool :=
  existsb (String.eqb s) l.

Definition ParseNetwork (network : string) : result Network :=
  if member network [ProtocolTCP; ProtocolUDP; ProtocolIP] then
    Ok (mkNetwork network NetworkVersionDual)
  else if member network ["tcp4"; "udp4"; "ip4"] then
    Ok (mkNetwork
          (if (String.length network =? 3)%nat then ProtocolIP
           else String.substring 0 3 network)
          NetworkVersion4)
  else if member network ["tcp6"; "udp6"; "ip6"] then
    Ok (mkNetwork
          (if (String.length network =? 3)%nat then ProtocolIP
           else String.substring 0 3 network)
          NetworkVersion6)
  else Err ErrInvalidNetwork.

(** [Network.String]. *)
Definition String_ (n : Network) : string :=
  Protocol_ n +:+ strconv.Itoa (Version n).

(** [ProtocolList.Contain]. *)
Definition Contain (n : ProtocolList) (network : string) : bool :=
  match ParseNetwork network with
  | Err _ => false
  | Ok nn => member (Protocol_ nn) n
  end.

End constant.


(** ** Package net/netip (the part the repository uses)

    A [netip.Addr] is the zero value, an IPv4 address or an IPv6 address
    (IPv4-mapped ones included) with its zone. *)

Module netip.

Inductive Addr : Type :=
| AddrZero
| Addr4 (a : N)
| Addr6 (a : N) (zone : string).

Definition IsValid (ip : Addr) : bool :=
  match ip with AddrZero => false | _ => true end.

Definition Is4 (ip : Addr) : bool :=
  match ip with Addr4 _ => true | _ => false end.

Definition Is6 (ip : Addr) : bool :=
  match ip with Addr6 _ _ => true | _ => false end.

#[global] Instance Addr_eq_dec : EqDecision Addr.
Proof. solve_decision. Defined.

#[global] Instance Addr_countable : Countable Addr.
Proof.
  refine (inj_countable'
            (λ ip, match ip with
                   | AddrZero => inl tt
                   | Addr4 a => inr (inl a)
                   | Addr6 a z => inr (inr (a, z))
                   end)
            (λ x, match x with
                  | inl _ => AddrZero
                  | inr (inl a) => Addr4 a
                  | inr (inr (a, z)) => Addr6 a z
                  end) _).
  intros []; reflexivity.
Defined.

(** The big-endian value of a byte slice. *)
Definition be_value (b : list N) : N :=
  fold_left (λ acc x, (acc * 256 + x)%N) b 0%N.

(** [netip.AddrFromSlice]: 4 bytes make an IPv4 address, 16 bytes an IPv6
    address, any other length fails. *)
Definition AddrFromSlice (b : list N) : Addr * bool :=
  if (length b =? 4)%nat then (Addr4 (be_value b), true)
  else if (length b =? 16)%nat then (Addr6 (be_value b) "", true)
  else (AddrZero, false).

Record AddrPort : Type := AddrPortFrom {
  ip : Addr;
  port : N
}.

#[global] Instance AddrPort_eq_dec : EqDecision AddrPort.
Proof. solve_decision. Defined.

#[global] Instance AddrPort_countable : Countable AddrPort.
Proof.
  refine (inj_countable' (λ ap, (ip ap, port ap))
                         (λ x, AddrPortFrom (fst x) (snd x)) _).
  intros []; reflexivity.
Defined.

End netip.

(** ** Package resolver *)

Module resolver.

Import netip.

Definition Strategy := Z.

Definition StrategyDefault : Strategy := 0.
Definition StrategyPreferIPv4 : Strategy := 1.
Definition StrategyPreferIPv6 : Strategy := 2.
Definition StrategyIPv4Only : Strategy := 3.
Definition StrategyIPv6Only : Strategy := 4.
Definition strategyMax : Strategy := 5.

Definition Strategy_IsValid (s : Strategy) : bool := s <? strategyMax.

Definition ParseStrategy (s : string) : Strategy * bool :=
  if String.eqb s "prefer_ipv4" then (StrategyPreferIPv4, true)
  else if String.eqb s "prefer_ipv6" then (StrategyPreferIPv6, true)
  else if String.eqb s "ipv4_only" then (StrategyIPv4Only, true)
  else if String.eqb s "ipv6_only" then (StrategyIPv6Only, true)
  else if String.eqb s "" then (StrategyDefault, true)
  else (StrategyDefault, false).

Definition FilterAddress (A AAAA : list Addr) (strategy : Strategy)
  : list Addr * list Addr :=
  if strategy =? StrategyIPv4Only then (A, [])
  else if strategy =? StrategyIPv6Only then ([], AAAA)
  else (A, AAAA).

(** The built-in [copy(dst, src)]: the first [min (len dst) (len src)]
    elements of [dst] are overwritten, the length of [dst] stays. *)
Definition copy {A} (dst src : list A) : list A :=
  let n := Nat.min (length dst) (length src) in
  take n src ++ drop n dst.

(** The closure handed to [rand.Shuffle]: [copied[i], copied[j] =
    copied[j], copied[i]].  An index out of range panics in Go; [Shuffle]
    only calls it below [len copied]. *)
Definition swap {A} (i j : nat) (l : list A) : list A :=
  match l !! i, l !! j with
  | Some x, Some y => <[i := y]> (<[j := x]> l)
  | _, _ => l
  end.

(** [rand.Shuffle(n, swap)] of math/rand/v2: for [i] from [n-1] down to 1,
    draw [j] in [0, i] and swap.  [draw bound] stands for the random
    source's [uint64n(bound)]; it is reduced below the bound here. *)
Fixpoint Shuffle {A} (draw : nat → nat) (n : nat) (l : list A) : list A :=
  match n with
  | O => l
  | S i =>
      match i with
      | O => l
      | S _ => Shuffle draw i (swap i (draw (S i) mod S i) l)
      end
  end.

Definition randomSortAddresses (draw : nat → nat) (raw : list Addr)
  : list Addr :=
  if (length raw <=? 1)%nat then raw
  else
    let copied : list Addr := [] in
    let copied := copy copied raw in
    Shuffle draw (length copied) copied.

(** [dns.Fqdn]: the name with its trailing dot (a name that ends in a dot
    is taken as fully qualified). *)
Fixpoint ends_with_dot (s : string) : bool :=
  match s with
  | EmptyString => false
  | String a EmptyString => Ascii.eqb a "."%char
  | String _ r => ends_with_dot r
  end.

Definition Fqdn (s : string) : string :=
  if ends_with_dot s then s else s +:+ ".".

Definition errStrategyUnknown : error := ErrNew "network: unknown dns strategy".

(** The loop of [SystemResolver.Lookup] over the host's answer: each
    [net.IP] that converts to a valid address is appended to the list of
    its family unless the strategy excludes the family. *)
Fixpoint collect (strategy : Strategy) (answer : list (list N))
  (A AAAA : list Addr) : list Addr * list Addr :=
  match answer with
  | [] => (A, AAAA)
  | addr :: rest =>
      let '(netipip, ok) := AddrFromSlice addr in
      if negb ok || negb (IsValid netipip) then collect strategy rest A AAAA
      else
        let A' :=
          if negb (strategy =? StrategyIPv6Only) && Is4 netipip
          then A ++ [netipip] else A in
        let AAAA' :=
          if negb (strategy =? StrategyIPv4Only) && Is6 netipip
          then AAAA ++ [netipip] else AAAA in
        collect strategy rest A' AAAA'
  end.

(** [SystemResolver.Lookup]; [LookupIPAddr] is the host stack's lookup
    ([net.DefaultResolver.LookupIPAddr]), [draw] the random source. *)
Definition SystemResolver_Lookup
  (LookupIPAddr : string → result (list (list N))) (draw : nat → nat)
  (fqdn : string) (strategy : Strategy) : result (list Addr * list Addr) :=
  if negb (Strategy_IsValid strategy) then Err errStrategyUnknown
  else
    let fqdn := Fqdn fqdn in
    match LookupIPAddr fqdn with
    | Err err => Err err
    | Ok answer =>
        let '(A, AAAA) := collect strategy answer [] [] in
        Ok (randomSortAddresses draw A, randomSortAddresses draw AAAA)
    end.

(** *** The read deadline of [RawClient.exchange]

    Instants are nanoseconds counted from the zero [time.Time]; the zero
    value of a [time.Time] variable is instant 0. *)

Definition Instant := Z.
Definition zeroInstant : Instant := 0.
Definition After (t u : Instant) : bool := u <? t.
Definition Add (t : Instant) (d : Z) : Instant := t + d.

(** What the deadline block of [exchange] does next: return an error to
    the caller, or go on to [conn.SetReadDeadline(deadline)] and the read. *)
Inductive DeadlineStep : Type :=
| ReturnError (e : error)
| SetReadDeadline (deadline : Instant).

(** The block between the write loop and the read in [exchange]:
    [ctxDeadline] is what [ctx.Deadline()] reports, [now] is [time.Now()]. *)
Definition exchange_deadline (ctxDeadline : option Instant) (now : Instant)
  : DeadlineStep :=
  let deadline := zeroInstant in
  match ctxDeadline with
  | Some dead =>
      if After now deadline then ReturnError ErrDeadlineExceeded
      else SetReadDeadline dead
  | None =>
      SetReadDeadline (Add now constant.ResolverDefaultReadTimeout)
  end.

End resolver.

(** ** Package net (the values the repository passes around) *)

Module net.

(** An open socket: a connection, a UDP socket or a TCP listener. *)
Record Conn : Type := mkConn {
  fd : nat;
  LocalAddr_ : string;
  RemoteAddr_ : string
}.

#[global] Instance Conn_eq_dec : EqDecision Conn.
Proof. solve_decision. Defined.

(** The socket-option callbacks of [sagernet/sing/common/control] that the
    repository appends to [Control]. *)
Inductive ControlFunc : Type :=
| BindToInterface (name : string)
| RoutingMark (mark : Z)
| ReuseAddr
| DisableUDPFragment.

Inductive LocalAddress : Type :=
| TCPAddr (ipaddr : netip.Addr)
| UDPAddr (ipaddr : netip.Addr).

Record KeepAliveConfig : Type := mkKeepAlive {
  Enable : bool;
  Idle : Z;
  Interval : Z;
  Count : Z
}.

Definition noKeepAlive : KeepAliveConfig := mkKeepAlive false 0 0 0.

(** [net.Dialer], with the fields the repository sets. *)
Record Dialer : Type := mkDialer {
  Timeout : Z;
  LocalAddr : option LocalAddress;
  Control : list ControlFunc;
  KeepAlive : KeepAliveConfig;
  MultipathTCP : bool
}.

Definition zeroDialer : Dialer := mkDialer 0 None [] noKeepAlive false.

(** [net.ListenConfig]. *)
Record ListenConfig : Type := mkListenConfig {
  lcControl : list ControlFunc;
  lcKeepAlive : KeepAliveConfig;
  lcMultipathTCP : bool
}.

Definition zeroListenConfig : ListenConfig := mkListenConfig [] noKeepAlive false.

(** [net.JoinHostPort]: a host that has a colon is taken for a literal
    IPv6 address and put in brackets. *)
Fixpoint has_colon (s : string) : bool :=
  match s with
  | EmptyString => false
  | String a r => Ascii.eqb a ":"%char || has_colon r
  end.

Definition JoinHostPort (host port : string) : string :=
  if has_colon host then "[" +:+ host +:+ "]:" +:+ port
  else host +:+ ":" +:+ port.

End net.

(** [tfo.Dialer] of metacubex/tfo-go. *)
Module tfo.

Record Dialer : Type := mkDialer {
  Dialer_ : net.Dialer;
  DisableTFO : bool;
  Fallback : bool
}.

End tfo.

(** [cmp.Or] on durations: the first argument that is not zero. *)
Definition cmp_Or (a b : Z) : Z := if a =? 0 then b else a.

(** [fmt.Errorf("...: %w", err)]; a nil operand wraps nothing. *)
Definition Errorf_w (msg : string) (err : option error) : error :=
  match err with
  | Some e => ErrWrap msg e
  | None => ErrNew msg
  end.

(** ** Package dialer *)

Module dialer.

Import netip.

Definition tfoInitData : list N := [0%N].

(** The resolver a dialer is given: the system resolver, or a cached
    resolver over a raw client to one DNS server. *)
Inductive Resolver : Type :=
| SystemResolver
| CachedResolver (destination : string) (size : Z).

Record DialConfig : Type := mkDialConfig {
  cfgResolver : option Resolver;
  cfgResolveStrategy : resolver.Strategy;
  cfgTimeout : Z;
  cfgInterface : string;
  cfgBindAddress4 : Addr;
  cfgBindAddress6 : Addr;
  cfgFwMark : Z;
  cfgReuseAddr : bool;
  cfgTFO : bool;
  cfgMPTCP : bool;
  cfgUDPFragment : bool
}.

Record DefaultDialer : Type := mkDefaultDialer {
  defaultDialer : net.Dialer;
  dialer4 : tfo.Dialer;
  dialer6 : tfo.Dialer;
  udpDialer4 : net.Dialer;
  udpDialer6 : net.Dialer;
  udpAddr4 : string;
  udpAddr6 : string;
  resolver_ : Resolver;
  resolveStrategy : resolver.Strategy
}.

Definition appendControl (d : net.Dialer) (f : net.ControlFunc) : net.Dialer :=
  net.mkDialer (net.Timeout d) (net.LocalAddr d) (net.Control d ++ [f])
               (net.KeepAlive d) (net.MultipathTCP d).

Definition withLocalAddr (d : net.Dialer) (a : net.LocalAddress) : net.Dialer :=
  net.mkDialer (net.Timeout d) (Some a) (net.Control d)
               (net.KeepAlive d) (net.MultipathTCP d).

Section NewDefault.

(** [runtime.GOOS], and [netip.Addr.String]. *)
Variable GOOS : string.
Variable AddrString : Addr → string.

Definition NewDefault (config : DialConfig) : result DefaultDialer :=
  let dialer := net.zeroDialer in
  let dialer :=
    if negb (String.eqb (cfgInterface config) "")
    then appendControl dialer (net.BindToInterface (cfgInterface config))
    else dialer in
  let res := match cfgResolver config with
             | None => SystemResolver
             | Some r => r
             end in
  if negb (cfgFwMark config =? 0) && negb (String.eqb GOOS "linux") then
    Err (ErrNew "`routing_mark` is only supported on Linux")
  else
    let dialer :=
      if negb (cfgFwMark config =? 0)
      then appendControl dialer (net.RoutingMark (cfgFwMark config))
      else dialer in
    let dialer :=
      net.mkDialer (cmp_Or (cfgTimeout config) constant.DialerDefaultTimeout)
        (net.LocalAddr dialer) (net.Control dialer)
        (net.mkKeepAlive true constant.KeepAliveInitial
           constant.KeepAliveInterval constant.KeepAliveProbeCount)
        (net.MultipathTCP dialer) in
    let dialer :=
      if negb (cfgUDPFragment config)
      then appendControl dialer net.DisableUDPFragment
      else dialer in
    let dialer :=
      if cfgMPTCP config
      then net.mkDialer (net.Timeout dialer) (net.LocalAddr dialer)
             (net.Control dialer) (net.KeepAlive dialer) true
      else dialer in
    let bind4 := cfgBindAddress4 config in
    let bind6 := cfgBindAddress6 config in
    let v4 := IsValid bind4 in
    let v6 := IsValid bind6 in
    let d4 := if v4 then withLocalAddr net.zeroDialer (net.TCPAddr bind4)
              else net.zeroDialer in
    let u4 := if v4 then withLocalAddr net.zeroDialer (net.UDPAddr bind4)
              else net.zeroDialer in
    let d6 := if v6 then withLocalAddr net.zeroDialer (net.TCPAddr bind6)
              else net.zeroDialer in
    let u6 := if v6 then withLocalAddr net.zeroDialer (net.UDPAddr bind6)
              else net.zeroDialer in
    Ok {| defaultDialer := dialer;
          dialer4 := tfo.mkDialer d4 (negb (cfgTFO config)) false;
          dialer6 := tfo.mkDialer d6 (negb (cfgTFO config)) false;
          udpDialer4 := u4;
          udpDialer6 := u6;
          udpAddr4 := if v4 then AddrString bind4 else "";
          udpAddr6 := if v6 then AddrString bind6 else "";
          resolver_ := res;
          resolveStrategy := cfgResolveStrategy config |}.

End NewDefault.

Definition filterAddressByNetwork (network : constant.Network)
  (addr : list Addr) : list Addr :=
  if constant.Version network =? constant.NetworkVersionDual then
    filter (λ it, IsValid it = true) addr
  else if constant.Version network =? constant.NetworkVersion4 then
    filter (λ it, IsValid it && Is4 it = true) addr
  else if constant.Version network =? constant.NetworkVersion6 then
    filter (λ it, IsValid it && Is6 it = true) addr
  else addr.

(** The [switch] on the candidate's family inside the loop of
    [DialSerial]: the TCP and the UDP dialer the candidate is dialed with. *)
Definition selectDialers (d : DefaultDialer) (addr : Addr)
  : tfo.Dialer * net.Dialer :=
  if Is4 addr then (dialer4 d, udpDialer4 d)
  else if Is6 addr then (dialer4 d, udpDialer4 d)
  else (tfo.mkDialer (defaultDialer d) true false, defaultDialer d).

Section DialSerial.

(** The calls that leave the repository: [netip]'s string forms,
    [net.Dialer.DialContext] and [tfo.Dialer.DialContext] (with the data
    sent in the SYN, if any).  A context is what [common.Done] observes
    before each candidate, and its error. *)
Variable AddrString : Addr → string.
Variable AddrPortString : AddrPort → string.
Variable netDial : net.Dialer → string → string → result net.Conn.
Variable tfoDial :
  tfo.Dialer → string → string → option (list N) → result net.Conn.

Record Context : Type := mkContext {
  Done : nat → bool;
  CtxErr : error
}.

(** One dial attempt: the body of the loop after the context check. *)
Definition dialOne (d : DefaultDialer) (network : string)
  (nn : constant.Network) (addr : Addr) (port : N) : result net.Conn :=
  let target := AddrPortFrom addr port in
  let '(tcpDialer, udpDialer) := selectDialers d addr in
  if String.eqb (constant.Protocol_ nn) constant.ProtocolUDP then
    netDial udpDialer network (AddrPortString target)
  else if String.eqb (constant.Protocol_ nn) constant.ProtocolTCP then
    if tfo.DisableTFO tcpDialer
    then tfoDial tcpDialer network (AddrPortString target) None
    else tfoDial tcpDialer network (AddrPortString target) (Some tfoInitData)
  else netDial (defaultDialer d) network (AddrString addr).

(** The [for _, addr := range availableAddress] loop; [i] counts the
    candidates already tried. *)
Fixpoint dialLoop (d : DefaultDialer) (ctx : Context) (network : string)
  (nn : constant.Network) (port : N) (i : nat) (addrs : list Addr)
  (lastErr : option error) : result net.Conn :=
  match addrs with
  | [] => Err (Errorf_w "dialer: all addresses failed, last error" lastErr)
  | addr :: rest =>
      if Done ctx i then Err (CtxErr ctx)
      else match dialOne d network nn addr port with
           | Ok conn => Ok conn
           | Err err => dialLoop d ctx network nn port (S i) rest (Some err)
           end
  end.

Definition DialSerial (d : DefaultDialer) (ctx : Context) (network : string)
  (addresses : list Addr) (port : N) : result net.Conn :=
  if (length addresses =? 0)%nat then
    Err (ErrNew "dialer: no addresses to dial")
  else
    match constant.ParseNetwork network with
    | Err networkErr => Err networkErr
    | Ok nn =>
        let availableAddress := filterAddressByNetwork nn addresses in
        if (length availableAddress =? 0)%nat then
          Err (ErrNew ("dialer: no available address found for network: "
                     +:+ network))
        else dialLoop d ctx network nn port 0 availableAddress None
    end.

End DialSerial.

End dialer.

(** ** Package listener *)

Module listener.

Import netip.

Record ListenOptions : Type := mkListenOptions {
  Network : constant.ProtocolList;
  Address : Addr;
  Port : N;
  Family : string;
  Interface : string;
  ReuseAddr : bool;
  TFO : bool;
  MPTCP : bool;
  UDPFragment : bool;
  UDPBufferSize : Z;
  (** The handlers are interfaces: [true] when the field is not nil. *)
  PacketHandler : bool;
  PacketHandlerOOb : bool;
  ConnHandler : bool
}.

Record Listener : Type := mkListener {
  options : ListenOptions;
  packetHandler : bool;
  connHandler : bool;
  packetHandlerOOb : bool;
  udpConn : option net.Conn;
  tcpListener : option net.Conn
}.

Definition NewListener (options : ListenOptions) : Listener :=
  {| options := options;
     packetHandler := PacketHandler options;
     connHandler := ConnHandler options;
     packetHandlerOOb := PacketHandlerOOb options;
     udpConn := None;
     tcpListener := None |}.

Definition set_udpConn (l : Listener) (c : net.Conn) : Listener :=
  mkListener (options l) (packetHandler l) (connHandler l)
             (packetHandlerOOb l) (Some c) (tcpListener l).

Definition set_tcpListener (l : Listener) (c : net.Conn) : Listener :=
  mkListener (options l) (packetHandler l) (connHandler l)
             (packetHandlerOOb l) (udpConn l) (Some c).

(** What a call leaves behind besides its return value. *)
Inductive Action : Type :=
| LogInfo (msg : string) (address : string)
| LogWarn (msg : string)
| LogError (msg : string) (e : error)
| Go (loop : string)
| CallHandlePacket (p : list N) (remote : AddrPort)
| CallHandlePacketOOb (oob : list N) (p : list N) (remote : AddrPort)
| CallHandleConn (conn : net.Conn).

(** How a call ends: it returns its error value, or the goroutine panics. *)
Inductive Outcome : Type :=
| Returned (err : option error)
| Panicked (msg : string).

Definition nilDereference : string :=
  "runtime error: invalid memory address or nil pointer dereference".

(** A request to the operating system to open a listening socket. *)
Record ListenRequest : Type := mkListenRequest {
  reqConfig : net.ListenConfig;
  reqTFO : bool;
  reqNetwork : string;
  reqAddress : string
}.

Section Listen.

(** The operating system: its state, and what [ListenConfig.Listen] and
    [ListenConfig.ListenPacket] answer in a state. *)
Variable OS : Type.
Variable osListen : OS → ListenRequest → OS * result net.Conn.
Variable osListenPacket : OS → ListenRequest → OS * result net.Conn.
Variable AddrPortString : AddrPort → string.

Definition familyNetwork (proto : string) (l : Listener) : string :=
  if String.eqb (Family (options l)) constant.FamilyIPv6
  then proto +:+ constant.FamilyIPv6
  else if String.eqb (Family (options l)) constant.FamilyIPv4
  then proto +:+ constant.FamilyIPv4
  else proto.

(** The socket [ListenUDP] asks the operating system for. *)
Definition udpRequest (l : Listener) : ListenRequest :=
  let ctl := [] in
  let ctl := if negb (String.eqb (Interface (options l)) "")
             then ctl ++ [net.BindToInterface (Interface (options l))]
             else ctl in
  let ctl := if ReuseAddr (options l) then ctl ++ [net.ReuseAddr] else ctl in
  let ctl := if negb (UDPFragment (options l))
             then ctl ++ [net.DisableUDPFragment] else ctl in
  let listenConfig := net.mkListenConfig ctl net.noKeepAlive false in
  let bindAddress :=
    AddrPortString (AddrPortFrom (Address (options l)) (Port (options l))) in
  let network := familyNetwork constant.ProtocolUDP l in
  mkListenRequest listenConfig false network bindAddress.

Definition ListenUDP (os : OS) (l : Listener)
  : OS * Listener * result net.Conn :=
  match osListenPacket os (udpRequest l) with
  | (os', Err err) => (os', l, Err (ErrWrap "listen" err))
  | (os', Ok packetConn) => (os', set_udpConn l packetConn, Ok packetConn)
  end.

(** The socket [ListenTCP] asks the operating system for. *)
Definition tcpRequest (l : Listener) : ListenRequest :=
  let ctl := [] in
  let ctl := if negb (String.eqb (Interface (options l)) "")
             then ctl ++ [net.BindToInterface (Interface (options l))]
             else ctl in
  let ctl := if ReuseAddr (options l) then ctl ++ [net.ReuseAddr] else ctl in
  let listenConfig :=
    net.mkListenConfig ctl
      (net.mkKeepAlive true constant.KeepAliveInitial
         constant.KeepAliveInterval constant.KeepAliveProbeCount)
      (MPTCP (options l)) in
  let bindAddress :=
    AddrPortString (AddrPortFrom (Address (options l)) (Port (options l))) in
  let network := familyNetwork constant.ProtocolTCP l in
  mkListenRequest listenConfig (TFO (options l)) network bindAddress.

Definition ListenTCP (os : OS) (l : Listener)
  : OS * Listener * result net.Conn :=
  match osListen os (tcpRequest l) with
  | (os', Err err) => (os', l, Err (ErrWrap "listen" err))
  | (os', Ok listener) => (os', set_tcpListener l listener, Ok listener)
  end.

(** The second half of [Start]: the UDP bind, its loop and its log line. *)
Definition startUDP (os : OS) (l : Listener) (acts : list Action)
  : OS * Listener * list Action * Outcome :=
  if constant.Contain (Network (options l)) constant.ProtocolUDP then
    match ListenUDP os l with
    | (os', l', Err err) => (os', l', acts, Returned (Some err))
    | (os', l', Ok _) =>
        let acts := acts ++ [if packetHandlerOOb l' then Go "loopUdpInOOb"
                             else Go "loopUdpIn"] in
        match tcpListener l' with
        | None => (os', l', acts, Panicked nilDereference)
        | Some t =>
            (os', l',
             acts ++ [LogInfo "new udp server started at" (net.LocalAddr_ t)],
             Returned None)
        end
    end
  else (os, l, acts, Returned None).

Definition Start (os : OS) (l : Listener)
  : OS * Listener * list Action * Outcome :=
  if constant.Contain (Network (options l)) constant.ProtocolTCP then
    match ListenTCP os l with
    | (os', l', Err err) => (os', l', [], Returned (Some err))
    | (os', l', Ok _) =>
        match tcpListener l' with
        | None => (os', l', [], Panicked nilDereference)
        | Some t =>
            startUDP os' l'
              [LogInfo "new tcp server started at" (net.LocalAddr_ t);
               Go "loopTcp"]
        end
    end
  else startUDP os l [].

End Listen.

(** *** The receive loops

    A loop is run against the sequence of results its reads return: a
    datagram ([n] is the length of [p]) or an error, together with what
    [common.Done(l.ctx)] reports when the error is looked at. *)

Inductive ReadResult : Type :=
| ReadOk (p : list N) (oob : list N) (remote : AddrPort)
| ReadErr (e : error) (ctxDone : bool).

(** Where a loop stands when the results run out or it stops: waiting in
    its next read, returned, or panicked. *)
Inductive LoopEnd : Type :=
| InRead
| Exited
| LoopPanicked (msg : string).

(** What one iteration asks for. *)
Inductive Iter : Type :=
| Continue
| Return
| Panic (msg : string).

Definition loopUdpIn_body (l : Listener) (r : ReadResult)
  : list Action * Iter :=
  match r with
  | ReadErr err ctxDone =>
      if ctxDone then ([], Return)
      else ([LogError "read udp message" err], Continue)
  | ReadOk p _ remote =>
      if packetHandler l then ([CallHandlePacket p remote], Continue)
      else ([], Panic nilDereference)
  end.

Definition loopUdpInOOb_body (l : Listener) (r : ReadResult)
  : list Action * Iter :=
  match r with
  | ReadErr err ctxDone =>
      if ctxDone then ([], Return)
      else ([LogError "read udp message" err], Continue)
  | ReadOk p oob remote =>
      if (length p =? 0)%nat then
        ([LogWarn "read a zero size udp message without error"], Continue)
      else if packetHandlerOOb l
      then ([CallHandlePacketOOb oob p remote], Continue)
      else ([], Panic nilDereference)
  end.

(** [for l.udpConn != nil { body }] over the results of the reads. *)
Fixpoint loopOver (body : ReadResult → list Action * Iter)
  (reads : list ReadResult) : list Action * LoopEnd :=
  match reads with
  | [] => ([], InRead)
  | r :: rest =>
      match body r with
      | (acts, Continue) =>
          let '(acts', e) := loopOver body rest in (acts ++ acts', e)
      | (acts, Return) => (acts, Exited)
      | (acts, Panic msg) => (acts, LoopPanicked msg)
      end
  end.

Definition makeSlicePanic : string := "runtime error: makeslice: len out of range".

Definition loopUdpIn (l : Listener) (reads : list ReadResult)
  : list Action * LoopEnd :=
  if UDPBufferSize (options l) <? 0 then ([], LoopPanicked makeSlicePanic)
  else match udpConn l with
       | None => ([], Exited)
       | Some _ => loopOver (loopUdpIn_body l) reads
       end.

Definition loopUdpInOOb (l : Listener) (reads : list ReadResult)
  : list Action * LoopEnd :=
  if UDPBufferSize (options l) <? 0 then ([], LoopPanicked makeSlicePanic)
  else match udpConn l with
       | None => ([], Exited)
       | Some _ => loopOver (loopUdpInOOb_body l) reads
       end.

End listener.

(** ** Package errors, as far as the forwarder uses it *)

Module errors.

(** [errors.As(err, &ope)] for [ope *net.OpError]: the first [*net.OpError]
    on the chain of [err]; its [Err] field is returned. *)
Fixpoint As_OpError (err : error) : option error :=
  match err with
  | OpError _ inner => Some inner
  | ErrWrap _ inner => As_OpError inner
  | SyscallError _ inner => As_OpError inner
  | _ => None
  end.

(** [errors.Is(err, target)] for a [syscall.Errno] target: some error on
    the chain of [err] is that errno. *)
Fixpoint Is_Errno (err : error) (target : Z) : bool :=
  match err with
  | Errno code => code =? target
  | ErrWrap _ inner => Is_Errno inner target
  | SyscallError _ inner => Is_Errno inner target
  | OpError _ inner => Is_Errno inner target
  | _ => false
  end.

End errors.

Module syscall.

(** [syscall.ECONNREFUSED] (its value on Linux). *)
Definition ECONNREFUSED : Z := 111.

End syscall.

(** ** Package main: configuration *)

Module url.

(** What [BindConfig.Parse] reads off a parsed [*url.URL]: the scheme,
    [Hostname()], [Port()] and [Query()] (a key with its values; the order
    of the keys is the order the [range] over the map visits them in). *)
Record URL : Type := mkURL {
  Scheme : string;
  Hostname : string;
  Port : string;
  Query : list (string * list string)
}.

End url.

Module parse.

(** [strconv.ParseBool]. *)
Definition ParseBool (s : string) : option bool :=
  if constant.member s ["1"; "t"; "T"; "TRUE"; "true"; "True"] then Some true
  else if constant.member s ["0"; "f"; "F"; "FALSE"; "false"; "False"]
  then Some false
  else None.

Definition digit (c : ascii) : option N :=
  let n := N_of_ascii c in
  if ((48 <=? n) && (n <=? 57))%N then Some (n - 48)%N else None.

Fixpoint digits (s : string) (acc : N) : option N :=
  match s with
  | EmptyString => Some acc
  | String c r =>
      match digit c with
      | Some d => digits r (acc * 10 + d)%N
      | None => None
      end
  end.

(** [strconv.ParseUint(s, 10, 16)]. *)
Definition ParseUint16 (s : string) : result N :=
  if String.eqb s "" then Err (ErrNew "strconv.ParseUint: invalid syntax")
  else match digits s 0 with
       | None => Err (ErrNew "strconv.ParseUint: invalid syntax")
       | Some v =>
           if (v <=? 65535)%N then Ok v
           else Err (ErrNew "strconv.ParseUint: value out of range")
       end.

End parse.

Module config.

Import netip.

Record BindConfig : Type := mkBindConfig {
  Raw : string;
  Listen : Addr;
  Port : N;
  Remote : string;
  Name : string;
  Network : constant.Protocol;
  Family : string;
  Interface : string;
  ReuseAddr : bool;
  TFO : bool;
  MPTCP : bool;
  UDPKeepaliveTTL : Z;
  UDPBufferSize : Z;
  UDPFragment : bool
}.

Definition NewDefaultBind : BindConfig :=
  {| Raw := ""; Listen := AddrZero; Port := 0; Remote := ""; Name := "";
     Network := ""; Family := ""; Interface := ""; ReuseAddr := false;
     TFO := false; MPTCP := false;
     UDPKeepaliveTTL := 60 * constant.Second;
     UDPBufferSize := 65507;
     UDPFragment := false |}.

(** Assignments to the fields of [*c]. *)
Definition set_Raw (c : BindConfig) v := mkBindConfig v (Listen c) (Port c) (Remote c) (Name c) (Network c) (Family c) (Interface c) (ReuseAddr c) (TFO c) (MPTCP c) (UDPKeepaliveTTL c) (UDPBufferSize c) (UDPFragment c).
Definition set_Listen (c : BindConfig) v := mkBindConfig (Raw c) v (Port c) (Remote c) (Name c) (Network c) (Family c) (Interface c) (ReuseAddr c) (TFO c) (MPTCP c) (UDPKeepaliveTTL c) (UDPBufferSize c) (UDPFragment c).
Definition set_Port (c : BindConfig) v := mkBindConfig (Raw c) (Listen c) v (Remote c) (Name c) (Network c) (Family c) (Interface c) (ReuseAddr c) (TFO c) (MPTCP c) (UDPKeepaliveTTL c) (UDPBufferSize c) (UDPFragment c).
Definition set_Remote (c : BindConfig) v := mkBindConfig (Raw c) (Listen c) (Port c) v (Name c) (Network c) (Family c) (Interface c) (ReuseAddr c) (TFO c) (MPTCP c) (UDPKeepaliveTTL c) (UDPBufferSize c) (UDPFragment c).
Definition set_Name (c : BindConfig) v := mkBindConfig (Raw c) (Listen c) (Port c) (Remote c) v (Network c) (Family c) (Interface c) (ReuseAddr c) (TFO c) (MPTCP c) (UDPKeepaliveTTL c) (UDPBufferSize c) (UDPFragment c).
Definition set_Network (c : BindConfig) v := mkBindConfig (Raw c) (Listen c) (Port c) (Remote c) (Name c) v (Family c) (Interface c) (ReuseAddr c) (TFO c) (MPTCP c) (UDPKeepaliveTTL c) (UDPBufferSize c) (UDPFragment c).
Definition set_Family (c : BindConfig) v := mkBindConfig (Raw c) (Listen c) (Port c) (Remote c) (Name c) (Network c) v (Interface c) (ReuseAddr c) (TFO c) (MPTCP c) (UDPKeepaliveTTL c) (UDPBufferSize c) (UDPFragment c).
Definition set_Interface (c : BindConfig) v := mkBindConfig (Raw c) (Listen c) (Port c) (Remote c) (Name c) (Network c) (Family c) v (ReuseAddr c) (TFO c) (MPTCP c) (UDPKeepaliveTTL c) (UDPBufferSize c) (UDPFragment c).
Definition set_ReuseAddr (c : BindConfig) v := mkBindConfig (Raw c) (Listen c) (Port c) (Remote c) (Name c) (Network c) (Family c) (Interface c) v (TFO c) (MPTCP c) (UDPKeepaliveTTL c) (UDPBufferSize c) (UDPFragment c).
Definition set_TFO (c : BindConfig) v := mkBindConfig (Raw c) (Listen c) (Port c) (Remote c) (Name c) (Network c) (Family c) (Interface c) (ReuseAddr c) v (MPTCP c) (UDPKeepaliveTTL c) (UDPBufferSize c) (UDPFragment c).
Definition set_MPTCP (c : BindConfig) v := mkBindConfig (Raw c) (Listen c) (Port c) (Remote c) (Name c) (Network c) (Family c) (Interface c) (ReuseAddr c) (TFO c) v (UDPKeepaliveTTL c) (UDPBufferSize c) (UDPFragment c).
Definition set_UDPKeepaliveTTL (c : BindConfig) v := mkBindConfig (Raw c) (Listen c) (Port c) (Remote c) (Name c) (Network c) (Family c) (Interface c) (ReuseAddr c) (TFO c) (MPTCP c) v (UDPBufferSize c) (UDPFragment c).
Definition set_UDPBufferSize (c : BindConfig) v := mkBindConfig (Raw c) (Listen c) (Port c) (Remote c) (Name c) (Network c) (Family c) (Interface c) (ReuseAddr c) (TFO c) (MPTCP c) (UDPKeepaliveTTL c) v (UDPFragment c).
Definition set_UDPFragment (c : BindConfig) v := mkBindConfig (Raw c) (Listen c) (Port c) (Remote c) (Name c) (Network c) (Family c) (Interface c) (ReuseAddr c) (TFO c) (MPTCP c) (UDPKeepaliveTTL c) (UDPBufferSize c) v.

(** [netip.IPv4Unspecified()] and [netip.IPv6Unspecified()]. *)
Definition IPv4Unspecified : Addr := Addr4 0.
Definition IPv6Unspecified : Addr := Addr6 0 "".

(** [(c *BindConfig) valid()]: the configuration as the call leaves it,
    and the error returned. *)
Definition valid (c : BindConfig) : BindConfig * option error :=
  let c := if String.eqb (Network c) "" then set_Network c constant.ProtocolTCPUDP
           else c in
  let check_port (c : BindConfig) :=
    if (Port c =? 0)%N then (c, Some (ErrNew "bind: no port specified"))
    else (c, None) in
  if IsValid (Listen c) then
    if Is6 (Listen c) && String.eqb (Family c) constant.FamilyIPv4 then
      (c, Some (ErrNew "bind: listen a ipv6 address with ipv4 family"))
    else if Is4 (Listen c) && String.eqb (Family c) constant.FamilyIPv6 then
      (c, Some (ErrNew "bind: listen a ipv4 address with ipv6 family"))
    else check_port c
  else
    check_port
      (if String.eqb (Family c) constant.FamilyIPv4
       then set_Listen c IPv4Unspecified
       else set_Listen c IPv6Unspecified).

Section Parse.

(** Parsers of the standard library that the model does not open:
    [url.Parse], [netip.ParseAddr], [time.ParseDuration], [strconv.Atoi]. *)
Variable url_Parse : string → result url.URL.
Variable ParseAddr : string → result Addr.
Variable ParseDuration : string → result Z.
Variable Atoi : string → result Z.

Definition parseBoolOption (key val : string) (c : BindConfig)
  (set : BindConfig → bool → BindConfig) : BindConfig * option error :=
  match parse.ParseBool val with
  | Some ok => (set c ok, None)
  | None =>
      (c, Some (ErrNew ("parse bind(" +:+ key +:+ "): expected bool, got "
                          +:+ val)))
  end.

(** One round of the loop over [uu.Query()]: the [switch k]. *)
Definition parseOption (c : BindConfig) (k : string) (v : list string)
  : BindConfig * option error :=
  match last v with
  | None => (c, None)
  | Some val =>
      if String.eqb k "family" then (set_Family c val, None)
      else if String.eqb k "interface" then (set_Interface c val, None)
      else if String.eqb k "reuse_addr" then
        parseBoolOption k val c set_ReuseAddr
      else if String.eqb k "name" then (set_Name c val, None)
      else if String.eqb k "tfo" then parseBoolOption k val c set_TFO
      else if String.eqb k "udp_ttl" then
        match ParseDuration val with
        | Err err => (c, Some (ErrWrap "parse bind(udp_ttl)" err))
        | Ok duration => (set_UDPKeepaliveTTL c duration, None)
        end
      else if String.eqb k "remote" then (set_Remote c val, None)
      else if String.eqb k "udp_buffer_size" then
        match Atoi val with
        | Err err => (c, Some (ErrWrap "parse bind(udp_buffer_size)" err))
        | Ok size => (set_UDPBufferSize c size, None)
        end
      else if String.eqb k "udp_fragment" then
        parseBoolOption k val c set_UDPFragment
      else if String.eqb k "mptcp" then parseBoolOption k val c set_MPTCP
      else (c, Some (ErrNew ("parse bind: unknown option: " +:+ k)))
  end.

Fixpoint parseQuery (c : BindConfig) (q : list (string * list string))
  : BindConfig * option error :=
  match q with
  | [] => (c, None)
  | (k, v) :: rest =>
      match parseOption c k v with
      | (c', None) => parseQuery c' rest
      | (c', Some err) => (c', Some err)
      end
  end.

(** [Parse] from the point where [url.Parse] has answered [uu]. *)
Definition parseURL (c : BindConfig) (s : string) (uu : url.URL)
  : BindConfig * option error :=
  let c := set_Raw c s in
  match (if negb (String.eqb (url.Hostname uu) "")
         then ParseAddr (url.Hostname uu) else Ok AddrZero) with
  | Err err => (c, Some (ErrWrap "prase bind(listen)" err))
  | Ok listenAddress =>
      let c := set_Listen c listenAddress in
      match (if negb (String.eqb (url.Port uu) "")
             then match parse.ParseUint16 (url.Port uu) with
                  | Err err => Err (ErrWrap "parse bind(port)" err)
                  | Ok pp => Ok (set_Port c pp)
                  end
             else Ok c) with
      | Err err => (c, Some err)
      | Ok c =>
          let c := if negb (String.eqb (url.Scheme uu) "")
                   then set_Network c (constant.ParseProtocol (url.Scheme uu))
                   else c in
          match parseQuery c (url.Query uu) with
          | (c, Some err) => (c, Some err)
          | (c, None) => valid c
          end
      end
  end.

(** [(c *BindConfig) Parse(s)]. *)
Definition Parse (c : BindConfig) (s : string) : BindConfig * option error :=
  if String.eqb s "" then (c, Some (ErrNew "parse bind: empty string"))
  else match url_Parse s with
       | Err err => (c, Some (ErrWrap "parse bind" err))
       | Ok uu => parseURL c s uu
       end.

End Parse.

Record RemoteConfig : Type := mkRemoteConfig {
  rRaw : string;
  rName : string;
  rServer : string;
  rPort : N;
  rDNS : string;
  rResolveStrategy : resolver.Strategy;
  rTimeout : Z;
  rReuseAddr : bool;
  rInterface : string;
  rBindAddress4 : Addr;
  rBindAddress6 : Addr;
  rFwMark : Z;
  rTFO : bool;
  rMPTCP : bool;
  rUDPFragment : bool
}.

Record LogConfig : Type := mkLogConfig {
  Disable : bool;
  Level : string
}.

Record Config : Type := mkConfig {
  Binds : list BindConfig;
  Remotes : list RemoteConfig;
  Log : LogConfig
}.

End config.

(** ** Package main: the supervisor and the forwarder *)

Module traffics.

Import netip config.

(** An entry of [nameToDialer]. *)
Record DialerEntry : Type := mkDialerEntry {
  address : string;
  dialer_ : dialer.DefaultDialer
}.

Record Traffics : Type := mkTraffics {
  config_ : Config;
  nameToDialer : gmap string DialerEntry;
  udpConnTrack : gmap AddrPort net.Conn
}.

(** [newLogger], as far as it can fail: [UnmarshalLevel] is
    [slog.Level.UnmarshalText]. *)
Definition newLogger (UnmarshalLevel : string → option error)
  (cfg : LogConfig) : option error :=
  if Disable cfg then None
  else if negb (String.eqb (Level cfg) "") then UnmarshalLevel (Level cfg)
  else None.

(** [NewTraffics]: both tables start empty; a lone bind without a remote
    name is wired to the lone remote. *)
Definition NewTraffics (UnmarshalLevel : string → option error)
  (cfg : Config) : result Traffics :=
  match newLogger UnmarshalLevel (Log cfg) with
  | Some err => Err err
  | None =>
      let binds :=
        match Remotes cfg, Binds cfg with
        | [r], [b] =>
            if String.eqb (Remote b) "" then [set_Remote b (rName r)]
            else [b]
        | _, bs => bs
        end in
      Ok {| config_ := mkConfig binds (Remotes cfg) (Log cfg);
            nameToDialer := ∅;
            udpConnTrack := ∅ |}
  end.

Section InitDialer.

Variable GOOS : string.
Variable AddrString : Addr → string.

(** The [dialer.DialConfig] that [initDialer] builds for a remote. *)
Definition dialConfigOf (v : RemoteConfig) : dialer.DialConfig :=
  let realResolver :=
    if negb (String.eqb (rDNS v) "")
    then dialer.CachedResolver (rDNS v) 1024
    else dialer.SystemResolver in
  {| dialer.cfgResolver := Some realResolver;
     dialer.cfgResolveStrategy := rResolveStrategy v;
     dialer.cfgTimeout := cmp_Or (rTimeout v) constant.DialerDefaultTimeout;
     dialer.cfgInterface := rInterface v;
     dialer.cfgBindAddress4 := rBindAddress4 v;
     dialer.cfgBindAddress6 := rBindAddress6 v;
     dialer.cfgFwMark := rFwMark v;
     dialer.cfgReuseAddr := rReuseAddr v;
     dialer.cfgTFO := rTFO v;
     dialer.cfgMPTCP := rMPTCP v;
     dialer.cfgUDPFragment := rUDPFragment v |}.

Definition entryAddress (v : RemoteConfig) : string :=
  net.JoinHostPort (rServer v) (strconv.Itoa (Z.of_N (rPort v))).

(** The loop of [initDialer] over [t.config.Remote]: the table as the
    call leaves it, and the error returned. *)
Fixpoint initDialerLoop (remotes : list RemoteConfig)
  (table : gmap string DialerEntry)
  : gmap string DialerEntry * option error :=
  match remotes with
  | [] => (table, None)
  | v :: rest =>
      if String.eqb (rName v) "" then
        (table, Some (ErrNew ("no name specified for " +:+ rServer v)))
      else
        match table !! rName v with
        | Some _ =>
            (table, Some (ErrNew ("duplicated remote name: " +:+ rName v)))
        | None =>
            match dialer.NewDefault GOOS AddrString (dialConfigOf v) with
            | Err err => (table, Some err)
            | Ok dd =>
                initDialerLoop rest
                  (<[rName v := mkDialerEntry (entryAddress v) dd]> table)
            end
        end
  end.

Definition initDialer (t : Traffics) : Traffics * option error :=
  let '(table, err) := initDialerLoop (Remotes (config_ t)) (nameToDialer t) in
  (mkTraffics (config_ t) table (udpConnTrack t), err).

End InitDialer.

(** *** The upstream-read loop of a UDP flow *)

(** The test on a read error in [newUdpLoop]. *)
Definition isConnRefused (err : error) : bool :=
  match errors.As_OpError err with
  | Some inner => errors.Is_Errno inner syscall.ECONNREFUSED
  | None => false
  end.

(** What the loop does to the world outside the flow map. *)
Inductive FlowAction : Type :=
| SetReadDeadline (conn : net.Conn) (deadline : Z)
| WritePacket (bs : list N) (client : AddrPort)
| CloseConn (conn : net.Conn)
| LogDebug (msg : string).

(** The state the loop shares with the rest of the forwarder: the
    connection-track map and the actions performed so far. *)
Record Flows : Type := mkFlows {
  track : gmap AddrPort net.Conn;
  actions : list FlowAction
}.

Definition act (w : Flows) (a : FlowAction) : Flows :=
  mkFlows (track w) (actions w ++ [a]).

Inductive LoopState : Type :=
| Reading
| Terminated
| PanickedLoop (msg : string).

(** The deferred function of [newUdpLoop]. *)
Definition deferred (client : AddrPort) (proxyConn : net.Conn) (w : Flows)
  : Flows :=
  let w := mkFlows (delete client (track w)) (actions w) in
  let w := act w (CloseConn proxyConn) in
  act w (LogDebug "udp connection closed").

Section UdpLoop.

(** [now k] is [time.Now()] when the [k]-th read result has been consumed;
    a read returns a datagram or an error. *)
Variable now : nat → Z.

(** The loop against the results of its reads.  [rearm] tells whether the
    next read is reached from the top of the [for] (the deadline is set
    again) or through [goto again]. *)
Fixpoint udpLoopOver (cfg : BindConfig) (client : AddrPort)
  (proxyConn : net.Conn) (rearm : bool) (k : nat)
  (reads : list (result (list N))) (w : Flows) : Flows * LoopState :=
  match reads with
  | [] =>
      ((if rearm
        then act w (SetReadDeadline proxyConn (now k + UDPKeepaliveTTL cfg))
        else w), Reading)
  | r :: rest =>
      let w := if rearm
               then act w (SetReadDeadline proxyConn (now k + UDPKeepaliveTTL cfg))
               else w in
      match r with
      | Err err =>
          if isConnRefused err
          then udpLoopOver cfg client proxyConn false (S k) rest w
          else (deferred client proxyConn w, Terminated)
      | Ok bs =>
          let w := if negb (length bs =? 0)%nat
                   then act w (WritePacket bs client) else w in
          udpLoopOver cfg client proxyConn true (S k) rest w
      end
  end.

Definition newUdpLoop (cfg : BindConfig) (client : AddrPort)
  (proxyConn : net.Conn) (reads : list (result (list N))) (w : Flows)
  : Flows * LoopState :=
  if UDPBufferSize cfg <? 0
  then (deferred client proxyConn w,
        PanickedLoop "runtime error: makeslice: len out of range")
  else udpLoopOver cfg client proxyConn true 0 reads w.

End UdpLoop.

End traffics.

(** ** Definitions used to state the properties *)

Module props.

Import netip.

(** The read deadline as the specification words it: the earlier of the
    context's deadline and five seconds from now. *)
Definition spec_read_deadline (ctxDeadline : option resolver.Instant)
  (now : resolver.Instant) : resolver.Instant :=
  match ctxDeadline with
  | Some dead => Z.min dead (now + constant.ResolverDefaultReadTimeout)
  | None => now + constant.ResolverDefaultReadTimeout
  end.

(** An instant of the year 2026, counted from the zero [time.Time]. *)
Definition someNow : resolver.Instant := 63900000000 * constant.Second.

(** A context that is never cancelled. *)
Definition background : dialer.Context :=
  dialer.mkContext (λ _, false) ErrCanceled.

(** The data a TCP dialer sends in the SYN. *)
Definition synData (t : tfo.Dialer) : option (list N) :=
  if tfo.DisableTFO t then None else Some dialer.tfoInitData.

(** A dial attempt's result as [DialSerial] returns it when the attempt
    was the only one. *)
Definition onlyAttempt (r : result net.Conn) : result net.Conn :=
  match r with
  | Ok conn => Ok conn
  | Err err => Err (ErrWrap "dialer: all addresses failed, last error" err)
  end.

(** *** Listener *)

Section BindError.

Variable OS : Type.
Variable osListen : OS → listener.ListenRequest → OS * result net.Conn.
Variable osListenPacket : OS → listener.ListenRequest → OS * result net.Conn.
Variable AddrPortString : AddrPort → string.

(** The error of the UDP bind of [l] in state [os], if UDP is enabled and
    the operating system refuses it. *)
Definition udpBindError (os : OS) (l : listener.Listener) : option error :=
  if constant.Contain (listener.Network (listener.options l)) constant.ProtocolUDP
  then match osListenPacket os (listener.udpRequest AddrPortString l) with
       | (_, Err err) => Some (ErrWrap "listen" err)
       | (_, Ok _) => None
       end
  else None.

(** The error of the first bind the operating system refuses when the
    enabled protocols of [l] are bound in state [os], TCP first. *)
Definition bindError (os : OS) (l : listener.Listener) : option error :=
  if constant.Contain (listener.Network (listener.options l)) constant.ProtocolTCP
  then match osListen os (listener.tcpRequest AddrPortString l) with
       | (_, Err err) => Some (ErrWrap "listen" err)
       | (os', Ok _) => udpBindError os' l
       end
  else udpBindError os l.

End BindError.

(** The outcome of a [Start]. *)
Definition outcome {OS : Type}
  (r : OS * listener.Listener * list listener.Action * listener.Outcome)
  : listener.Outcome := snd r.

(** A host that grants every bind with a socket of its own, as hosts do
    for port 0; its state is the next free descriptor. *)
Definition grantAll (next : nat) (req : listener.ListenRequest)
  : nat * result net.Conn :=
  (S next, Ok (net.mkConn next (listener.reqAddress req) "")).

(** A host that grants a bind unless the same network and address are
    bound already (EADDRINUSE, errno 98 on Linux). *)
Definition exclusive (bound : list (string * string))
  (req : listener.ListenRequest) : list (string * string) * result net.Conn :=
  let key := (listener.reqNetwork req, listener.reqAddress req) in
  if decide (key ∈ bound)
  then (bound, Err (OpError "listen" (SyscallError "bind" (Errno 98))))
  else (key :: bound, Ok (net.mkConn (length bound) (listener.reqAddress req) "")).

(** A rendering of an endpoint, enough to tell endpoints apart. *)
Definition showAddrPort (ap : AddrPort) : string :=
  match ip ap with
  | AddrZero => "invalid"
  | Addr4 a => strconv.Itoa (Z.of_N a)
  | Addr6 a z => "[" +:+ strconv.Itoa (Z.of_N a) +:+ "]"
  end +:+ ":" +:+ strconv.Itoa (Z.of_N (port ap)).

Definition exampleOptions (network : list string) (p : N)
  : listener.ListenOptions :=
  {| listener.Network := network;
     listener.Address := Addr6 0 "";
     listener.Port := p;
     listener.Family := "";
     listener.Interface := "";
     listener.ReuseAddr := false;
     listener.TFO := false;
     listener.MPTCP := false;
     listener.UDPFragment := false;
     listener.UDPBufferSize := 65507;
     listener.PacketHandler := true;
     listener.PacketHandlerOOb := false;
     listener.ConnHandler := true |}.

Definition exampleClient : AddrPort := AddrPortFrom (Addr4 3232235777) 40000.

(** A listener whose UDP socket is bound. *)
Definition boundUdpListener : listener.Listener :=
  listener.set_udpConn
    (listener.NewListener (exampleOptions ["udp"] 5353))
    (net.mkConn 3 "[::]:5353" "").

Definition zeroSizeWarning : listener.Action :=
  listener.LogWarn "read a zero size udp message without error".

(** A listener whose UDP socket is bound and whose two packet handlers
    are set. *)
Definition oobUdpListener : listener.Listener :=
  listener.mkListener (exampleOptions ["udp"] 5353) true true true
    (Some (net.mkConn 3 "[::]:5353" "")) None.

(** The datagrams a receive loop reads before it returns: those read
    until an error is met with the context done. *)
Fixpoint datagramsRead (reads : list listener.ReadResult)
  : list (list N * list N * AddrPort) :=
  match reads with
  | [] => []
  | listener.ReadOk p oob remote :: rest => (p, oob, remote) :: datagramsRead rest
  | listener.ReadErr _ true :: _ => []
  | listener.ReadErr _ false :: rest => datagramsRead rest
  end.

Definition isEmpty (d : list N * list N * AddrPort) : bool :=
  match d.1.1 with [] => true | _ => false end.

(** The calls of the plain handler, of the out-of-band handler, and the
    warnings in a sequence of actions. *)
Definition handled (acts : list listener.Action) : list (list N * AddrPort) :=
  omap (λ a, match a with
             | listener.CallHandlePacket p remote => Some (p, remote)
             | _ => None
             end) acts.

Definition handledOOb (acts : list listener.Action)
  : list (list N * list N * AddrPort) :=
  omap (λ a, match a with
             | listener.CallHandlePacketOOb oob p remote => Some (p, oob, remote)
             | _ => None
             end) acts.

Definition warnings (acts : list listener.Action) : list listener.Action :=
  List.filter (λ a, match a with listener.LogWarn _ => true | _ => false end)
    acts.

(** Every line a sequence of actions writes to the log. *)
Definition logged (acts : list listener.Action) : list listener.Action :=
  List.filter (λ a, match a with
                    | listener.LogInfo _ _ | listener.LogWarn _
                    | listener.LogError _ _ => true
                    | _ => false
                    end) acts.

(** The errors a receive loop reads before it returns: those met with the
    context not done. *)
Fixpoint errorsRead (reads : list listener.ReadResult) : list error :=
  match reads with
  | [] => []
  | listener.ReadOk _ _ _ :: rest => errorsRead rest
  | listener.ReadErr _ true :: _ => []
  | listener.ReadErr e false :: rest => e :: errorsRead rest
  end.

(** *** Forwarder and supervisor *)

(** A read result that ends the flow: an error that is not a refused
    connection. *)
Definition fatal (r : result (list N)) : bool :=
  match r with
  | Err err => negb (traffics.isConnRefused err)
  | Ok _ => false
  end.

(** The sockets closed by a sequence of actions. *)
Definition closes (acts : list traffics.FlowAction) : list net.Conn :=
  omap (λ a, match a with traffics.CloseConn c => Some c | _ => None end) acts.

(** The errors a read of a connected UDP socket returns for an ICMP
    port-unreachable and for an expired deadline. *)
Definition refusedRead : error :=
  OpError "read" (SyscallError "recvfrom" (Errno syscall.ECONNREFUSED)).
Definition timeoutRead : error := OpError "read" ErrDeadlineExceeded.

Definition exampleUpstream : net.Conn :=
  net.mkConn 7 "192.0.2.10:50000" "192.0.2.53:53".

Definition exampleFlows : traffics.Flows :=
  traffics.mkFlows {[exampleClient := exampleUpstream]} [].

(** *** Configuration *)

Definition exampleRemote (name server : string) (p : N) : config.RemoteConfig :=
  {| config.rRaw := ""; config.rName := name; config.rServer := server;
     config.rPort := p; config.rDNS := "";
     config.rResolveStrategy := resolver.StrategyDefault;
     config.rTimeout := 10 * constant.Second;
     config.rReuseAddr := false; config.rInterface := "";
     config.rBindAddress4 := AddrZero; config.rBindAddress6 := AddrZero;
     config.rFwMark := 0; config.rTFO := false; config.rMPTCP := false;
     config.rUDPFragment := false |}.

Definition exampleConfig (remotes : list config.RemoteConfig) : config.Config :=
  config.mkConfig [] remotes (config.mkLogConfig false "").

Definition anyLevel (_ : string) : option error := None.

Definition showAddr (a : Addr) : string :=
  showAddrPort (AddrPortFrom a 0).

(** [uu] with its scheme replaced. *)
Definition withScheme (uu : url.URL) (scheme : string) : url.URL :=
  url.mkURL scheme (url.Hostname uu) (url.Port uu) (url.Query uu).

(** The protocol strings [ParseProtocol] recognises. *)
Definition recognised : list string :=
  ["tcp"; "udp"; "ip"; "tcp+udp"; "udp+tcp"].

(** Stand-ins for the parsers of the standard library on the inputs of
    the examples. *)
Definition exampleUrlParse (s : string) : result url.URL :=
  if String.eqb s "quic://:8443?remote=web&udp_ttl=30s"
  then Ok (url.mkURL "quic" "" "8443" [("remote", ["web"]); ("udp_ttl", ["30s"])])
  else Err (ErrNew "parse: unsupported in this example").

Definition exampleParseAddr (s : string) : result Addr :=
  Err (ErrNew "ParseAddr: unable to parse IP").

Definition exampleParseDuration (s : string) : result Z :=
  if String.eqb s "30s" then Ok (30 * constant.Second)
  else Err (ErrNew "time: invalid duration").

Definition exampleAtoi (s : string) : result Z :=
  Err (ErrNew "strconv.Atoi: invalid syntax").

Section TableOf.

Variable GOOS : string.
Variable AddrString : Addr → string.

(** The remotes for which a dialer can be built. *)
Definition dialerBuilds (v : config.RemoteConfig) : bool :=
  is_ok (dialer.NewDefault GOOS AddrString (traffics.dialConfigOf v)).

(** Why the loop of [initDialer] stops at a remote: its name is empty or
    already in the table, or no dialer can be built for it. *)
Definition rejected (table : gmap string traffics.DialerEntry)
  (v : config.RemoteConfig) : Prop :=
  config.rName v = "" ∨ is_Some (table !! config.rName v)
  ∨ dialerBuilds v = false.

(** What the loop has done when it stops after [k] remotes, leaving the
    table [r.1] and returning [r.2]. *)
Definition loopPost (remotes : list config.RemoteConfig)
  (table : gmap string traffics.DialerEntry)
  (r : gmap string traffics.DialerEntry * option error) (k : nat) : Prop :=
  let names := config.rName <$> take k remotes in
  (k ≤ length remotes)%nat
  ∧ NoDup names
  ∧ (∀ n, n ∈ names → n ≠ "" ∧ table !! n = None)
  ∧ Forall (λ v, dialerBuilds v = true) (take k remotes)
  ∧ dom r.1 = dom table ∪ list_to_set names
  ∧ size r.1 = (size table + k)%nat
  ∧ (∀ n, n ∉ names → r.1 !! n = table !! n)
  ∧ (∀ v, v ∈ take k remotes →
          ∃ dd, dialer.NewDefault GOOS AddrString (traffics.dialConfigOf v)
                = Ok dd
                ∧ r.1 !! config.rName v
                  = Some (traffics.mkDialerEntry (traffics.entryAddress v) dd))
  ∧ (r.2 = None → k = length remotes)
  ∧ (r.2 ≠ None → ∃ v, remotes !! k = Some v ∧ rejected r.1 v).

End TableOf.

End props.

(** ** Definitions used to state further properties of the packages *)

Module names.

(** The network names [ParseNetwork] accepts. *)
Definition networkNames : list string :=
  ["tcp"; "udp"; "ip"; "tcp4"; "udp4"; "ip4"; "tcp6"; "udp6"; "ip6"].

(** The protocols a [Network] can hold after a successful parse. *)
Definition protocols : list string := ["tcp"; "udp"; "ip"].

(** What [ParseProtocol] can return. *)
Definition protocolValues : list string :=
  [""; constant.ProtocolTCP; constant.ProtocolUDP; constant.ProtocolIP;
   constant.ProtocolTCPUDP].

End names.

(** ** Package resolver, continued: strategies as strings, DNS messages,
    the cache of [CachedResolver] and the socket pool of [RawClient] *)

Module dnsclient.

Import netip resolver.

(** [Strategy.String]. *)
Definition Strategy_String (s : Strategy) : string :=
  if s =? StrategyPreferIPv4 then "prefer_ipv4"
  else if s =? StrategyPreferIPv6 then "prefer_ipv6"
  else if s =? StrategyIPv4Only then "ipv4_only"
  else if s =? StrategyIPv6Only then "ipv6_only"
  else if s =? StrategyDefault then ""
  else "strategy: " +:+ strconv.Itoa s.

(** A resource record of an answer section, as far as the resolver looks
    at it: its TTL (a [uint32]) and, for an address record, its data. *)
Inductive RR : Type :=
| RR_A (ttl : N) (a : list N)
| RR_AAAA (ttl : N) (aaaa : list N)
| RR_other (ttl : N).

Definition Ttl (rr : RR) : N :=
  match rr with
  | RR_A ttl _ => ttl
  | RR_AAAA ttl _ => ttl
  | RR_other ttl => ttl
  end.

Record Question : Type := mkQuestion {
  qName : string;
  Qtype : Z;
  Qclass : Z
}.

Definition TypeA : Z := 1.
Definition TypeAAAA : Z := 28.
Definition ClassINET : Z := 1.
Definition RcodeSuccess : Z := 0.

(** [dns.Msg]. *)
Record Msg : Type := mkMsg {
  Id : Z;
  RecursionDesired : bool;
  Rcode : Z;
  Truncated : bool;
  Questions : list Question;
  Answer : list RR
}.

(** The errors of a lookup: an [RcodeError], or another error. *)
Inductive resolveError : Type :=
| RcodeError (rcode : Z)
| Plain (e : error).

(** How a lookup ends: with a value, with an error, or in a panic. *)
Inductive lookup (A : Type) : Type :=
| Found (a : A)
| Failed (e : resolveError)
| LookupPanics (msg : string).
Arguments Found {A} a.
Arguments Failed {A} e.
Arguments LookupPanics {A} msg.

(** The loop of [MessageToAddresses] over the answer section. *)
Fixpoint answerAddresses (answer : list RR) : list Addr :=
  match answer with
  | [] => []
  | RR_A _ a :: rest =>
      let '(ip, ok) := AddrFromSlice a in
      if ok then ip :: answerAddresses rest else answerAddresses rest
  | RR_AAAA _ aaaa :: rest =>
      let '(ip, ok) := AddrFromSlice aaaa in
      if ok then ip :: answerAddresses rest else answerAddresses rest
  | RR_other _ :: rest => answerAddresses rest
  end.

Definition MessageToAddresses (response : Msg) : lookup (list Addr) :=
  if negb (Rcode response =? RcodeSuccess) then Failed (RcodeError (Rcode response))
  else Found (answerAddresses (Answer response)).

(** [FqdnToQuestion]. *)
Definition FqdnToQuestion (fqdn : string) (strategy : Strategy)
  : list Question :=
  if strategy =? StrategyIPv6Only then [mkQuestion fqdn TypeAAAA ClassINET]
  else if strategy =? StrategyIPv4Only then [mkQuestion fqdn TypeA ClassINET]
  else [mkQuestion fqdn TypeA ClassINET; mkQuestion fqdn TypeAAAA ClassINET].

(** *** The cache of [CachedResolver] *)

Record cacheResult : Type := mkCacheResult {
  cA : list Addr;
  cAAAA : list Addr
}.

(** The test [overrideTTL] of [store]. *)
Definition overrideTTL (minTTL ttl : N) : bool :=
  ((minTTL =? 0) || ((0 <? ttl) && (ttl <? minTTL)))%N.

(** The loop of [store] over the answer section: the minimum TTL and the
    result when the loop ends, and the records as the loop leaves them
    (the TTL of an address record is overwritten). *)
Fixpoint storeLoop (answer : list RR) (minTTL : N) (result : cacheResult)
  : N * cacheResult * list RR :=
  match answer with
  | [] => (minTTL, result, [])
  | rr :: rest =>
      let override := overrideTTL minTTL (Ttl rr) in
      match rr with
      | RR_A ttl a =>
          let minTTL := if override then ttl else minTTL in
          let result := mkCacheResult (cA result ++ [(AddrFromSlice a).1])
                          (cAAAA result) in
          let '(m, r, out) := storeLoop rest minTTL result in
          (m, r, RR_A minTTL a :: out)
      | RR_AAAA ttl aaaa =>
          let minTTL := if override then ttl else minTTL in
          let result := mkCacheResult (cA result)
                          (cAAAA result ++ [(AddrFromSlice aaaa).1]) in
          let '(m, r, out) := storeLoop rest minTTL result in
          (m, r, RR_AAAA minTTL aaaa :: out)
      | RR_other ttl =>
          let '(m, r, out) := storeLoop rest minTTL result in
          (m, r, RR_other ttl :: out)
      end
  end.

(** What [store] asks of the cache: [StoreWithExpire(name, result, expire)]. *)
Record StoreRequest : Type := mkStoreRequest {
  key : string;
  value : cacheResult;
  expire : Instant
}.

(** [(c *CachedResolver) store(msg)] at instant [now] for a message that
    is not nil: the error returned, the message as the call leaves it, and
    the request made to the cache, if any. *)
Definition storeMsg (now : Instant) (m : Msg)
  : option error * Msg * option StoreRequest :=
  if negb (length (Questions m) =? 1)%nat || (length (Answer m) =? 0)%nat
  then (Some (ErrNew "resolve: store a bad message"), m, None)
  else
    let '(minTTL, result, answer) :=
      storeLoop (Answer m) 0 (mkCacheResult [] []) in
    let m' := mkMsg (Id m) (RecursionDesired m) (Rcode m) (Truncated m)
                (Questions m) answer in
    if (minTTL =? 0)%N then (None, m', None)
    else
      let expire := Add now (Z.of_N minTTL * constant.Second) in
      if After now expire then (None, m', None)
      else
        (None, m',
         Some (mkStoreRequest
                 (match Questions m with q :: _ => qName q | [] => "" end)
                 result expire)).

(** [store] on a message that may be nil. *)
Definition store (now : Instant) (msg : option Msg)
  : option error * option Msg * option StoreRequest :=
  match msg with
  | None => (Some (ErrNew "resolve: store a bad message"), None, None)
  | Some m => let '(err, m', req) := storeMsg now m in (err, Some m', req)
  end.

(** [(c *CachedResolver) load(question)] at instant [now], given what
    [LoadWithExpire] answers: the two lists, and whether [Delete] is
    called on the cache. *)
Definition load (now : Instant) (loaded : option (cacheResult * Instant))
  : list Addr * list Addr * bool :=
  match loaded with
  | None => ([], [], false)
  | Some (response, expire) =>
      if After now expire then ([], [], true)
      else if (length (cA response) =? 0)%nat
              && (length (cAAAA response) =? 0)%nat
      then ([], [], true)
      else (cA response, cAAAA response, false)
  end.

(** [(c *CachedResolver) lookupToExchange]: [id] is what [dns.Id()] draws,
    [Exchange] the client behind the [Exchanger] interface (its message may
    be nil).  The store request goes to the cache as a side effect. *)
Definition lookupToExchange (Exchange : Msg → result (option Msg))
  (now : Instant) (id : Z) (fqdn : string) (queryType : Z)
  : lookup (list Addr) * option StoreRequest :=
  let question :=
    mkMsg id true 0 false [mkQuestion fqdn queryType ClassINET] [] in
  match Exchange question with
  | Err err => (Failed (Plain err), None)
  | Ok None => (LookupPanics "client return a nil dns message without error", None)
  | Ok (Some resp) =>
      if negb (Rcode resp =? RcodeSuccess)
      then (Failed (RcodeError (Rcode resp)), None)
      else if negb (Id resp =? Id question)
      then (Failed (Plain (ErrNew "incorrect id")), None)
      else if Truncated resp
      then (Failed (Plain (ErrNew "truncated")), None)
      else
        match storeMsg now resp with
        | (Some err, _, req) => (Failed (Plain err), req)
        | (None, resp', req) => (MessageToAddresses resp', req)
        end
  end.

(** *** The socket pool of [RawClient] *)

Definition maxConn : Z := 8.

(** The channel [conns] (oldest first) and the counter [connCount]. *)
Record RawClient : Type := mkRawClient {
  conns : list net.Conn;
  connCount : Z
}.

Definition NewRawClient : RawClient := mkRawClient [] 0.

(** How a pool operation ends in a run of one goroutine: done, failed
    with an error, or waiting on the channel. *)
Inductive Pool (A : Type) : Type :=
| Done (a : A) (c : RawClient)
| DialError (e : error)
| Waits.
Arguments Done {A} a c.
Arguments DialError {A} e.
Arguments Waits {A}.

(** [newUdpConn]: [dial] is what [c.dialer.DialContext] would answer. *)
Definition newUdpConn (dial : result net.Conn) (c : RawClient)
  : Pool net.Conn :=
  match conns c with
  | conn :: rest => Done conn (mkRawClient rest (connCount c))
  | [] =>
      if connCount c >=? maxConn then Waits
      else match dial with
           | Err err => DialError err
           | Ok conn => Done conn c
           end
  end.

(** [closeConn]: the socket is closed; the counter goes down if positive. *)
Definition closeConn (c : RawClient) (conn : net.Conn) : RawClient :=
  if connCount c >? 0 then mkRawClient (conns c) (connCount c - 1) else c.

(** The deferred [c.conns <- conn] of [exchange]. *)
Definition putBack (c : RawClient) (conn : net.Conn) : Pool unit :=
  if (Z.of_nat (length (conns c)) <? maxConn)
  then Done tt (mkRawClient (conns c ++ [conn]) (connCount c))
  else Waits.

(** One operation of a client on the pool. *)
Inductive PoolOp : Type :=
| OpNew (dial : result net.Conn)
| OpClose (conn : net.Conn)
| OpPutBack (conn : net.Conn).

(** A sequence of operations, as long as none waits; a failed dial leaves
    the pool as it was. *)
Fixpoint runPool (ops : list PoolOp) (c : RawClient) : option RawClient :=
  match ops with
  | [] => Some c
  | OpNew dial :: rest =>
      match newUdpConn dial c with
      | Done _ c' => runPool rest c'
      | DialError _ => runPool rest c
      | Waits => None
      end
  | OpClose conn :: rest => runPool rest (closeConn c conn)
  | OpPutBack conn :: rest =>
      match putBack c conn with
      | Done _ c' => runPool rest c'
      | _ => None
      end
  end.

End dnsclient.

Module dnsfacts.

Import netip resolver dnsclient.

(** The TTLs of the address records of an answer section. *)
Definition addressTTLs (answer : list RR) : list N :=
  omap (λ rr, match rr with
              | RR_A ttl _ => Some ttl
              | RR_AAAA ttl _ => Some ttl
              | RR_other _ => None
              end) answer.

(** The data of the A records and of the AAAA records, converted as
    [store] converts them (the zero address when the conversion fails). *)
Definition recordsA (answer : list RR) : list Addr :=
  omap (λ rr, match rr with
              | RR_A _ a => Some (AddrFromSlice a).1
              | _ => None
              end) answer.

Definition recordsAAAA (answer : list RR) : list Addr :=
  omap (λ rr, match rr with
              | RR_AAAA _ aaaa => Some (AddrFromSlice aaaa).1
              | _ => None
              end) answer.

(** [m] is the least positive element of [l], or 0 when [l] has none. *)
Definition leastPositive (m : N) (l : list N) : Prop :=
  (m = 0%N ∧ Forall (λ t, t = 0%N) l)
  ∨ (m ≠ 0%N ∧ m ∈ l ∧ Forall (λ t, t = 0%N ∨ (m <= t)%N) l).

(** The query [lookupToExchange] sends. *)
Definition query (id : Z) (fqdn : string) (queryType : Z) : Msg :=
  mkMsg id true 0 false [mkQuestion fqdn queryType ClassINET] [].

(** A response [lookupToExchange] accepts for the query with id [id]. *)
Definition accepted (id : Z) (resp : Msg) : Prop :=
  Rcode resp = RcodeSuccess ∧ Id resp = id ∧ Truncated resp = false
  ∧ length (Questions resp) = 1%nat ∧ Answer resp ≠ [].

(** An answer for the examples: two A records and a CNAME. *)
Definition exampleAnswer : Msg :=
  mkMsg 4242 true 0 false [mkQuestion "example.com." TypeA ClassINET]
    [RR_other 3600; RR_A 300 [93; 184; 216; 34]%N; RR_A 60 [93; 184; 216; 35]%N].

Definition examplePoolOps : list PoolOp :=
  [OpNew (Ok (net.mkConn 5 "" "9.9.9.9:53"));
   OpPutBack (net.mkConn 5 "" "9.9.9.9:53");
   OpNew (Err (ErrNew "unused"));
   OpClose (net.mkConn 5 "" "9.9.9.9:53");
   OpNew (Ok (net.mkConn 6 "" "9.9.9.9:53"))].

End dnsfacts.

(** ** Package listener, continued: the accept loop and [Close] *)

Module lifecycle.

Import netip listener.

(** What [Close] does, in order. *)
Inductive CloseAction : Type :=
| Cancel
| CloseSocket (c : net.Conn).

(** The sockets a listener holds: the TCP listener, then the UDP socket. *)
Definition held (l : Listener) : list net.Conn :=
  option_list (tcpListener l) ++ option_list (udpConn l).

(** [(l *Listener) Close()]. *)
Definition Close (l : Listener) : list CloseAction * option error :=
  ([Cancel]
   ++ match tcpListener l with Some t => [CloseSocket t] | None => [] end
   ++ match udpConn l with Some u => [CloseSocket u] | None => [] end,
   None).

(** What [Accept] returns: a connection, or an error together with what
    [common.Done(l.ctx)] reports when the error is looked at. *)
Inductive AcceptResult : Type :=
| AcceptOk (conn : net.Conn)
| AcceptErr (e : error) (ctxDone : bool).

Definition loopTcp_body (l : Listener) (r : AcceptResult)
  : list Action * Iter :=
  match r with
  | AcceptErr err ctxDone =>
      if ctxDone then ([], Return)
      else ([LogError "accept" err], Continue)
  | AcceptOk conn =>
      if connHandler l then ([CallHandleConn conn], Continue)
      else ([], Panic nilDereference)
  end.

(** [for l.tcpListener != nil { body }] over the results of [Accept]. *)
Fixpoint acceptOver (l : Listener) (accepts : list AcceptResult)
  : list Action * LoopEnd :=
  match accepts with
  | [] => ([], InRead)
  | r :: rest =>
      match loopTcp_body l r with
      | (acts, Continue) =>
          let '(acts', e) := acceptOver l rest in (acts ++ acts', e)
      | (acts, Return) => (acts, Exited)
      | (acts, Panic msg) => (acts, LoopPanicked msg)
      end
  end.

Definition loopTcp (l : Listener) (accepts : list AcceptResult)
  : list Action * LoopEnd :=
  match tcpListener l with
  | None => ([], Exited)
  | Some _ => acceptOver l accepts
  end.

End lifecycle.

(** ** Package main, continued: the listeners of the supervisor *)

Module supervisor.

Import netip config traffics listener.

(** The [listener.ListenOptions] that [initListener] builds for a bind;
    a handler is set exactly when the protocol list contains its
    protocol. *)
Definition listenOptionsOf (v : BindConfig) : ListenOptions :=
  let protocols := constant.ToProtocolList (config.Network v) in
  {| listener.Network := protocols;
     listener.Address := config.Listen v;
     listener.Port := config.Port v;
     listener.Family := config.Family v;
     listener.Interface := config.Interface v;
     listener.ReuseAddr := config.ReuseAddr v;
     listener.TFO := config.TFO v;
     listener.MPTCP := config.MPTCP v;
     listener.UDPFragment := config.UDPFragment v;
     listener.UDPBufferSize := config.UDPBufferSize v;
     listener.PacketHandler := constant.Contain protocols constant.ProtocolUDP;
     listener.PacketHandlerOOb := false;
     listener.ConnHandler := constant.Contain protocols constant.ProtocolTCP |}.

Section InitListener.

Variable AddrPortString : AddrPort → string.

(** The loop of [initListener] over [t.config.Binds]: the listeners of the
    manager as the call leaves them, and the error returned. *)
Fixpoint initListenerLoop (table : gmap string DialerEntry)
  (binds : list BindConfig) (listeners : list Listener)
  : list Listener * option error :=
  match binds with
  | [] => (listeners, None)
  | v :: rest =>
      let name :=
        if String.eqb (config.Name v) ""
        then AddrPortString (AddrPortFrom (config.Listen v) (config.Port v))
        else config.Name v in
      if String.eqb (config.Remote v) "" then
        (listeners, Some (ErrNew ("no remote specified for " +:+ name)))
      else
        match table !! config.Remote v with
        | None =>
            (listeners,
             Some (ErrNew ("no remote with name: " +:+ config.Remote v)))
        | Some _ =>
            initListenerLoop table rest
              (listeners ++ [NewListener (listenOptionsOf v)])
        end
  end.

Definition initListener (t : Traffics) (listeners : list Listener)
  : list Listener * option error :=
  initListenerLoop (nameToDialer t) (Binds (config_ t)) listeners.

End InitListener.

Section Manager.

Variable OS : Type.
Variable osListen : OS → ListenRequest → OS * result net.Conn.
Variable osListenPacket : OS → ListenRequest → OS * result net.Conn.
Variable AddrPortString : AddrPort → string.

(** [(m *ListenManager) StartAll()]: the listeners are started in order
    until one does not return nil. *)
Fixpoint StartAll (os : OS) (listeners : list Listener)
  : OS * list Listener * list Action * Outcome :=
  match listeners with
  | [] => (os, [], [], Returned None)
  | listen :: rest =>
      match Start OS osListen osListenPacket AddrPortString os listen with
      | (os', listen', acts, Returned None) =>
          let '(os'', rest', acts', out) := StartAll os' rest in
          (os'', listen' :: rest', acts ++ acts', out)
      | (os', listen', acts, out) => (os', listen' :: rest, acts, out)
      end
  end.

End Manager.

(** [(m *ListenManager) CloseAll()]: the listeners are closed in order
    until a [Close] returns an error. *)
Fixpoint CloseAll (listeners : list Listener)
  : list lifecycle.CloseAction * option error :=
  match listeners with
  | [] => ([], None)
  | listen :: rest =>
      match lifecycle.Close listen with
      | (acts, Some err) => (acts, Some err)
      | (acts, None) =>
          let '(acts', err) := CloseAll rest in (acts ++ acts', err)
      end
  end.

End supervisor.

Module lifefacts.

Import netip listener lifecycle.

(** The connections handed to the connection handler by a sequence of
    actions. *)
Definition handledConns (acts : list Action) : list net.Conn :=
  omap (λ a, match a with CallHandleConn c => Some c | _ => None end) acts.

(** The connections an accept loop accepts before it returns. *)
Fixpoint accepted (accepts : list AcceptResult) : list net.Conn :=
  match accepts with
  | [] => []
  | AcceptOk c :: rest => c :: accepted rest
  | AcceptErr _ true :: _ => []
  | AcceptErr _ false :: rest => accepted rest
  end.

(** A listener holds a socket for every protocol of its list. *)
Definition bound (l : Listener) : Prop :=
  (constant.Contain (Network (options l)) constant.ProtocolTCP = true →
   is_Some (tcpListener l))
  ∧ (constant.Contain (Network (options l)) constant.ProtocolUDP = true →
     is_Some (udpConn l)).

(** The sockets closed by a sequence of [Close] actions. *)
Definition closed (acts : list CloseAction) : list net.Conn :=
  omap (λ a, match a with CloseSocket c => Some c | Cancel => None end) acts.

(** The binds [initListener] accepts against a table of dialers. *)
Definition wired (table : gmap string traffics.DialerEntry)
  (v : config.BindConfig) : Prop :=
  config.Remote v ≠ "" ∧ is_Some (table !! config.Remote v).

End lifefacts.

(** ** Definitions used to state properties of the bind URLs *)

Module bindfacts.

Import netip config.

(** The keys of the [switch] in [BindConfig.Parse]. *)
Definition options : list string :=
  ["family"; "interface"; "reuse_addr"; "name"; "tfo"; "udp_ttl"; "remote";
   "udp_buffer_size"; "udp_fragment"; "mptcp"].

(** The address [valid] gives a bind without one. *)
Definition unspecified (family : string) : Addr :=
  if String.eqb family constant.FamilyIPv4 then IPv4Unspecified
  else IPv6Unspecified.

(** The listen address is not of the family the bind excludes. *)
Definition familyAgrees (c : BindConfig) : bool :=
  negb (Is6 (Listen c) && String.eqb (Family c) constant.FamilyIPv4)
  && negb (Is4 (Listen c) && String.eqb (Family c) constant.FamilyIPv6).

(** [c] with its raw string, listen address, port and protocol replaced:
    the fields [Parse] takes from the URL outside the query. *)
Definition withEndpoint (c : BindConfig) (raw : string) (a : Addr) (p : N)
  (n : constant.Protocol) : BindConfig :=
  mkBindConfig raw a p (Remote c) (Name c) n (Family c) (Interface c)
    (ReuseAddr c) (TFO c) (MPTCP c) (UDPKeepaliveTTL c) (UDPBufferSize c)
    (UDPFragment c).

(** The protocols a bind can have once it is parsed. *)
Definition networks : list string :=
  [constant.ProtocolTCP; constant.ProtocolUDP; constant.ProtocolIP;
   constant.ProtocolTCPUDP].

(** The keys of a query. *)
Definition keys (q : list (string * list string)) : list string := q.*1.

End bindfacts.

(** ** Sample inputs for the further properties *)

Module samples.

Import netip.

(** A dialer without any setting, and a network on which every connect is
    refused. *)
Definition plainDialer : dialer.DefaultDialer :=
  dialer.mkDefaultDialer net.zeroDialer
    (tfo.mkDialer net.zeroDialer true false)
    (tfo.mkDialer net.zeroDialer true false)
    net.zeroDialer net.zeroDialer "" "" dialer.SystemResolver
    resolver.StrategyDefault.

Definition refused : error :=
  OpError "dial" (SyscallError "connect" (Errno syscall.ECONNREFUSED)).

Definition refuseDial (_ : net.Dialer) (_ _ : string) : result net.Conn :=
  Err refused.

Definition refuseTfoDial (_ : tfo.Dialer) (_ _ : string)
  (_ : option (list N)) : result net.Conn :=
  Err refused.

(** Nine dials in a row, none of the sockets put back. *)
Definition nineDials : list dnsclient.PoolOp :=
  replicate 9 (dnsclient.OpNew (Ok (net.mkConn 5 "" "9.9.9.9:53"))).

(** A listener whose TCP socket is bound. *)
Definition boundTcpListener : listener.Listener :=
  listener.mkListener (props.exampleOptions ["tcp"] 8080) true true false
    None (Some (net.mkConn 4 "[::]:8080" "")).

(** Three accepts: a connection, an error, a connection. *)
Definition threeAccepts : list lifecycle.AcceptResult :=
  [lifecycle.AcceptOk (net.mkConn 10 "[::]:8080" "198.51.100.7:50001");
   lifecycle.AcceptErr (OpError "accept" (Errno 24)) false;
   lifecycle.AcceptOk (net.mkConn 11 "[::]:8080" "198.51.100.8:50002")].

(** The binds [ip://:53] and [tcp://:9500] once parsed. *)
Definition ipBind : config.BindConfig :=
  config.set_Network
    (config.set_Port
       (config.set_Listen config.NewDefaultBind config.IPv6Unspecified) 53)
    constant.ProtocolIP.

Definition tcpBind : config.BindConfig :=
  config.set_Network
    (config.set_Port
       (config.set_Listen config.NewDefaultBind config.IPv6Unspecified) 9500)
    constant.ProtocolTCP.

End samples.

(** * Properties *)

Section Constant.

Import constant.

Lemma Split_cons (s : string) (sep : ascii) :
  ∃ h t, strings.Split s sep = h :: t.
Proof.
  induction s as [|a r IH]; simpl; [by eauto|].
  destruct (Ascii.eqb a sep); [by eauto|].
  destruct IH as (h & t & ->). by eauto.
Qed.

Lemma Join_cons2 (p h : string) (t : list string) (sep : ascii) :
  strings.Join (p :: h :: t) sep = p +:+ String sep (strings.Join (h :: t) sep).
Proof. reflexivity. Qed.

(** Joining the pieces of a split gives the string back. *)
Lemma Join_Split (s : string) (sep : ascii) :
  strings.Join (strings.Split s sep) sep = s.
Proof.
  induction s as [|a r IH]; [done|].
  cbn [strings.Split].
  destruct (Split_cons r sep) as (h & t & Heq). rewrite Heq in IH |- *.
  destruct (Ascii.eqb_spec a sep) as [->|Hne].
  - rewrite Join_cons2, IH. reflexivity.
  - destruct t as [|h' t].
    + simpl in *. by rewrite IH.
    + rewrite Join_cons2 in IH |- *. rewrite <- IH. reflexivity.
Qed.

(** The strings [ParseProtocol] recognises, and what it does with the rest. *)
Lemma ParseProtocol_recognised (name : string) :
  name ∈ ["tcp"; "udp"; "ip"; "tcp+udp"; "udp+tcp"] → ParseProtocol name ≠ "".
Proof.
  rewrite !elem_of_cons, elem_of_nil.
  intros [->|[->|[->|[->|[->|[]]]]]]; vm_compute; discriminate.
Qed.

Lemma ParseProtocol_unknown (name : string) :
  name ∉ ["tcp"; "udp"; "ip"; "tcp+udp"; "udp+tcp"] → ParseProtocol name = "".
Proof.
  intros Hn. unfold ParseProtocol.
  destruct (String.length name =? 0)%nat; [done|].
  destruct (String.eqb_spec name ProtocolTCP) as [->|_]; [set_solver|].
  destruct (String.eqb_spec name ProtocolUDP) as [->|_]; [set_solver|].
  destruct (String.eqb_spec name ProtocolIP) as [->|_]; [set_solver|].
  pose proof (Join_Split name "+"%char) as HJ.
  destruct (strings.Split name "+"%char) as [|m0 [|m1 [|m2 t]]]; try done.
  destruct (_ || _) eqn:Hc; [|done].
  exfalso. apply Hn. rewrite <- HJ.
  apply orb_true_iff in Hc as [Hc|Hc];
    apply andb_true_iff in Hc as [H0 H1];
    apply String.eqb_eq in H0, H1; subst; set_solver.
Qed.

(** C5 (evaluation of the code): [Network.String] appends the version
    number, so a dual-stack network is written with a trailing 0 ("tcp0")
    and [ParseNetwork] rejects it; the IPv4 and IPv6 networks of every
    protocol do round-trip. *)
Theorem C5_dual_network_does_not_round_trip :
  Forall (λ p,
      String_ (mkNetwork p NetworkVersionDual) = p +:+ "0"
      ∧ ParseNetwork (String_ (mkNetwork p NetworkVersionDual))
        = Err ErrInvalidNetwork
      ∧ ParseNetwork (String_ (mkNetwork p NetworkVersion4))
        = Ok (mkNetwork p NetworkVersion4)
      ∧ ParseNetwork (String_ (mkNetwork p NetworkVersion6))
        = Ok (mkNetwork p NetworkVersion6))
    [ProtocolTCP; ProtocolUDP; ProtocolIP].
Proof. repeat constructor. Qed.

End Constant.

Section Resolver.

Import netip resolver.

Lemma swap_Permutation {A} (i j : nat) (l : list A) : swap i j l ≡ₚ l.
Proof.
  unfold swap.
  destruct (l !! i) as [x|] eqn:Hi; [|done].
  destruct (l !! j) as [y|] eqn:Hj; [|done].
  destruct (decide (i = j)) as [->|Hne].
  - assert (x = y) as -> by congruence.
    rewrite list_insert_insert_eq. by rewrite list_insert_id.
  - apply Permutation_inj. split; [by rewrite !length_insert|].
    exists (λ k, if decide (k = i) then j else if decide (k = j) then i else k).
    split.
    + intros a b. repeat case_decide; congruence.
    + intros k. repeat case_decide; subst.
      * rewrite list_lookup_insert_eq; [done|].
        rewrite length_insert. by eapply lookup_lt_Some.
      * rewrite list_lookup_insert_ne by done.
        rewrite list_lookup_insert_eq by (by eapply lookup_lt_Some).
        done.
      * by rewrite !list_lookup_insert_ne.
Qed.

(** The model of [rand.Shuffle] rearranges and loses nothing. *)
Lemma Shuffle_Permutation {A} (draw : nat → nat) (n : nat) (l : list A) :
  Shuffle draw n l ≡ₚ l.
Proof.
  revert l. induction n as [|i IH]; intros l; [done|].
  cbn [Shuffle]. destruct i as [|i']; [done|].
  rewrite IH. apply swap_Permutation.
Qed.

(** [copy] into a nil slice copies nothing. *)
Lemma copy_nil {A} (src : list A) : copy [] src = [].
Proof. reflexivity. Qed.

Lemma randomSortAddresses_eq (draw : nat → nat) (raw : list Addr) :
  randomSortAddresses draw raw = if (length raw <=? 1)%nat then raw else [].
Proof. unfold randomSortAddresses. by destruct (length raw <=? 1)%nat. Qed.

(** C2 (evaluation of the code): [randomSortAddresses] copies into a nil
    slice, so a list of two or more addresses comes back empty, whatever
    the random source draws; [SystemResolver.Lookup] of a host with two
    IPv4 addresses returns no address at all. *)
Theorem C2_randomSortAddresses_loses_addresses (draw : nat → nat) :
  (∀ a b rest, randomSortAddresses draw (a :: b :: rest) = []
               ∧ ¬ randomSortAddresses draw (a :: b :: rest) ≡ₚ a :: b :: rest)
  ∧ SystemResolver_Lookup
      (λ _, Ok [[1; 1; 1; 1]; [8; 8; 8; 8]]%N) draw "example.com"
      StrategyDefault
    = Ok ([], []).
Proof.
  split.
  - intros a b rest. rewrite randomSortAddresses_eq. simpl. split; [done|].
    intros H. by apply Permutation_nil_cons in H.
  - reflexivity.
Qed.

(** Whatever the host answers, [SystemResolver.Lookup] returns at most one
    address per family. *)
Lemma SystemResolver_Lookup_at_most_one
  (LookupIPAddr : string → result (list (list N))) (draw : nat → nat)
  (fqdn : string) (strategy : Strategy) (A AAAA : list Addr) :
  SystemResolver_Lookup LookupIPAddr draw fqdn strategy = Ok (A, AAAA) →
  (length A ≤ 1)%nat ∧ (length AAAA ≤ 1)%nat.
Proof.
  unfold SystemResolver_Lookup.
  destruct (negb _); [done|]. destruct (LookupIPAddr _); [|done].
  destruct (collect _ _ _ _) as [A0 AAAA0]. intros [= <- <-].
  rewrite !randomSortAddresses_eq.
  split.
  - destruct (length A0 <=? 1)%nat eqn:E; [by apply Nat.leb_le|simpl; lia].
  - destruct (length AAAA0 <=? 1)%nat eqn:E; [by apply Nat.leb_le|simpl; lia].
Qed.

(** With a context deadline the comparison is made against [deadline],
    which is still the zero instant when it is read ([dead] is assigned to
    it only afterwards), so any call made after the zero instant returns
    [DeadlineExceeded]. *)
Lemma exchange_deadline_with_context_deadline (dead now : Instant) :
  0 < now → exchange_deadline (Some dead) now = ReturnError ErrDeadlineExceeded.
Proof.
  intros H. unfold exchange_deadline, After, zeroInstant.
  by rewrite (proj2 (Z.ltb_lt 0 now) H).
Qed.

(** Without a context deadline the read deadline is five seconds from
    now, which is the minimum as the specification words it. *)
Lemma exchange_deadline_without_context_deadline (now : Instant) :
  exchange_deadline None now
  = SetReadDeadline (props.spec_read_deadline None now).
Proof. reflexivity. Qed.

(** C6, a defect of the code: whenever the context carries a deadline
    [dead], be it earlier or later than five seconds from now, a call made
    at any instant [now] after the zero [time.Time] sets no read deadline
    at all: [exchange] returns [context.DeadlineExceeded] before the read,
    because it tests [time.Now().After(deadline)] with [deadline] still the
    zero value instead of [dead].  So it does not set the minimum of the
    context deadline and five seconds from now. *)
Theorem C6_context_deadline_is_tested_against_zero_time (dead now : Instant) :
  0 < now →
  exchange_deadline (Some dead) now = ReturnError ErrDeadlineExceeded
  ∧ exchange_deadline (Some dead) now
    ≠ SetReadDeadline (props.spec_read_deadline (Some dead) now).
Proof.
  intros H. rewrite (exchange_deadline_with_context_deadline dead now H).
  split; [reflexivity|discriminate].
Qed.

End Resolver.

Section Dialer.

Import netip dialer.

Variable AddrString : Addr → string.
Variable AddrPortString : AddrPort → string.
Variable netDial : net.Dialer → string → string → result net.Conn.
Variable tfoDial :
  tfo.Dialer → string → string → option (list N) → result net.Conn.

Lemma selectDialers_v4 (d : DefaultDialer) (a : N) :
  selectDialers d (Addr4 a) = (dialer4 d, udpDialer4 d).
Proof. reflexivity. Qed.

(** The sub-dialers [NewDefault] builds carry the source address of their
    own family. *)
Lemma NewDefault_source_addresses (GOOS : string) (config : DialConfig)
  (d : DefaultDialer) :
  NewDefault GOOS AddrString config = Ok d →
  IsValid (cfgBindAddress4 config) = true →
  IsValid (cfgBindAddress6 config) = true →
  net.LocalAddr (tfo.Dialer_ (dialer4 d))
  = Some (net.TCPAddr (cfgBindAddress4 config))
  ∧ net.LocalAddr (tfo.Dialer_ (dialer6 d))
    = Some (net.TCPAddr (cfgBindAddress6 config))
  ∧ net.LocalAddr (udpDialer4 d) = Some (net.UDPAddr (cfgBindAddress4 config))
  ∧ net.LocalAddr (udpDialer6 d) = Some (net.UDPAddr (cfgBindAddress6 config)).
Proof.
  unfold NewDefault. destruct (_ && _); [done|].
  intros [= <-] -> ->. done.
Qed.

(** C1 (evaluation of the code): an IPv6 candidate is dialed with the
    IPv4 sub-dialers: the family switch yields [dialer4] and [udpDialer4]
    for it, and [DialSerial] of a lone IPv6 address over tcp6 (udp6) is the
    dial of [dialer4] ([udpDialer4]); [dialer6] and [udpDialer6] are not
    consulted. *)
Theorem C1_ipv6_candidate_is_dialed_with_ipv4_dialers
  (d : DefaultDialer) (a : N) (zone : string) (port : N) :
  selectDialers d (Addr6 a zone) = (dialer4 d, udpDialer4 d)
  ∧ DialSerial AddrString AddrPortString netDial tfoDial d props.background
      "tcp6" [Addr6 a zone] port
    = props.onlyAttempt
        (tfoDial (dialer4 d) "tcp6"
           (AddrPortString (AddrPortFrom (Addr6 a zone) port))
           (props.synData (dialer4 d)))
  ∧ DialSerial AddrString AddrPortString netDial tfoDial d props.background
      "udp6" [Addr6 a zone] port
    = props.onlyAttempt
        (netDial (udpDialer4 d) "udp6"
           (AddrPortString (AddrPortFrom (Addr6 a zone) port))).
Proof.
  split; [reflexivity|]. split.
  - unfold DialSerial. simpl. unfold dialOne. simpl.
    unfold props.synData.
    destruct (tfo.DisableTFO (dialer4 d));
      by destruct (tfoDial _ _ _ _).
  - unfold DialSerial. simpl. unfold dialOne. simpl.
    by destruct (netDial _ _ _).
Qed.

End Dialer.

Section Listener.

Import netip listener.

Variable OS : Type.
Variable osListen : OS → ListenRequest → OS * result net.Conn.
Variable osListenPacket : OS → ListenRequest → OS * result net.Conn.
Variable AddrPortString : AddrPort → string.

Local Abbreviation Start := (Start OS osListen osListenPacket AddrPortString).
Local Abbreviation startUDP := (startUDP OS osListenPacket AddrPortString).
Local Abbreviation bindError :=
  (props.bindError OS osListen osListenPacket AddrPortString).
Local Abbreviation udpBindError :=
  (props.udpBindError OS osListenPacket AddrPortString).

(** [Start] changes the two sockets of a listener and nothing else. *)
Lemma startUDP_options (os : OS) (l : Listener) (acts : list Action) :
  options (startUDP os l acts).1.1.2 = options l.
Proof.
  unfold listener.startUDP, ListenUDP.
  destruct (constant.Contain _ _); [|done].
  destruct (osListenPacket os _) as [os1 [c|e]]; simpl; [|done].
  by destruct (tcpListener l).
Qed.

Lemma Start_options (os : OS) (l : Listener) :
  options (Start os l).1.1.2 = options l.
Proof.
  unfold listener.Start, ListenTCP.
  destruct (constant.Contain _ _); [|apply startUDP_options].
  destruct (osListen os _) as [os1 [c|e]]; simpl; [|done].
  by rewrite startUDP_options.
Qed.

(** What a returning [startUDP] returns, and what it leaves behind. *)
Lemma startUDP_returned (os os' : OS) (l l' : Listener) acts acts' err :
  startUDP os l acts = (os', l', acts', Returned err) →
  udpBindError os l = err
  ∧ options l' = options l
  ∧ (err = None →
     constant.Contain (Network (options l)) constant.ProtocolUDP = true →
     is_Some (tcpListener l')).
Proof.
  unfold listener.startUDP, props.udpBindError, ListenUDP.
  destruct (constant.Contain _ constant.ProtocolUDP); [|naive_solver].
  destruct (osListenPacket os _) as [os1 [c|e]]; simpl.
  - destruct (tcpListener l) eqn:Ht; [|done].
    intros ?; simplify_eq. split; [done|]. split; [done|].
    intros _ _. simpl. by rewrite Ht.
  - intros ?; simplify_eq. done.
Qed.

(** A [Start] that returns nil leaves a listener that a later [Start]
    cannot panic on: the TCP listener is set whenever UDP is enabled. *)
Lemma Start_returned_nil (os os' : OS) (l l' : Listener) acts :
  Start os l = (os', l', acts, Returned None) →
  options l' = options l
  ∧ (constant.Contain (Network (options l)) constant.ProtocolUDP = true →
     is_Some (tcpListener l')).
Proof.
  unfold listener.Start, ListenTCP.
  destruct (constant.Contain _ constant.ProtocolTCP).
  - destruct (osListen os _) as [os1 [c|e]]; simpl; [|done].
    intros H. apply startUDP_returned in H as (_ & Ho & Ht).
    split; [done|]. intros Hu. by apply Ht.
  - intros H. apply startUDP_returned in H as (_ & Ho & Ht).
    split; [done|]. intros Hu. by apply Ht.
Qed.

(** The outcome of [Start] on a listener whose TCP listener is set when
    UDP is enabled: the error of the first refused bind, nil if none. *)
Lemma Start_outcome (os : OS) (l : Listener) :
  (constant.Contain (Network (options l)) constant.ProtocolUDP = true →
   constant.Contain (Network (options l)) constant.ProtocolTCP = false →
   is_Some (tcpListener l)) →
  props.outcome (Start os l) = Returned (bindError os l).
Proof.
  intros Hl.
  unfold listener.Start, props.bindError, props.outcome, ListenTCP.
  destruct (constant.Contain _ constant.ProtocolTCP).
  - destruct (osListen os _) as [os1 [c|e]]; simpl; [|done].
    unfold listener.startUDP, props.udpBindError, ListenUDP. simpl.
    destruct (constant.Contain _ constant.ProtocolUDP); [|done].
    assert (udpRequest AddrPortString (set_tcpListener l c)
            = udpRequest AddrPortString l) as -> by done.
    by destruct (osListenPacket os1 _) as [os2 [c'|e']].
  - unfold listener.startUDP, props.udpBindError, ListenUDP.
    destruct (constant.Contain _ constant.ProtocolUDP); [|done].
    destruct (osListenPacket os _) as [os2 [c'|e']]; simpl; [|done].
    destruct Hl as [t ->]; done.
Qed.

(** C8, amended: [Start] keeps no record of an earlier call.  After a
    [Start] that returned nil, a second [Start] on the same listener binds
    again: it returns the error of the first bind the operating system
    refuses now, and nil when the operating system grants the binds. *)
Theorem C8_second_Start_binds_again
  (os0 os1 : OS) (l0 l1 : Listener) (acts : list Action) :
  Start os0 l0 = (os1, l1, acts, Returned None) →
  props.outcome (Start os1 l1) = Returned (bindError os1 l0).
Proof.
  intros H. apply Start_returned_nil in H as [Ho Ht].
  rewrite Start_outcome.
  - unfold props.bindError, props.udpBindError, tcpRequest, udpRequest,
      familyNetwork. by rewrite Ho.
  - rewrite Ho. intros Hu _. by apply Ht.
Qed.

(** C9 (evaluation of the code): on a fresh listener whose protocol list
    contains udp and not tcp, and whose UDP bind the operating system
    grants, [Start] starts the receive loop and then panics on the nil TCP
    listener instead of returning nil. *)
Theorem C9_udp_only_Start_panics
  (os os' : OS) (o : ListenOptions) (c : net.Conn) :
  constant.Contain (Network o) constant.ProtocolTCP = false →
  constant.Contain (Network o) constant.ProtocolUDP = true →
  osListenPacket os (udpRequest AddrPortString (NewListener o)) = (os', Ok c) →
  Start os (NewListener o)
  = (os', set_udpConn (NewListener o) c,
     [if PacketHandlerOOb o then Go "loopUdpInOOb" else Go "loopUdpIn"],
     Panicked nilDereference).
Proof.
  intros Htcp Hudp Hbind.
  unfold listener.Start, listener.startUDP, ListenUDP.
  cbn [options NewListener]. rewrite Htcp, Hudp.
  change (mkListener o (PacketHandler o) (ConnHandler o)
            (PacketHandlerOOb o) None None) with (NewListener o).
  rewrite Hbind. reflexivity.
Qed.

End Listener.

Section ReceiveLoops.

Import netip listener.

Lemma handled_app (a b : list Action) :
  props.handled (a ++ b) = props.handled a ++ props.handled b.
Proof. unfold props.handled. by rewrite omap_app. Qed.

Lemma handledOOb_app (a b : list Action) :
  props.handledOOb (a ++ b) = props.handledOOb a ++ props.handledOOb b.
Proof. unfold props.handledOOb. by rewrite omap_app. Qed.

Lemma warnings_app (a b : list Action) :
  props.warnings (a ++ b) = props.warnings a ++ props.warnings b.
Proof. unfold props.warnings. by rewrite List.filter_app. Qed.

Lemma logged_app (a b : list Action) :
  props.logged (a ++ b) = props.logged a ++ props.logged b.
Proof. unfold props.logged. by rewrite List.filter_app. Qed.

(** The warnings are among the lines logged. *)
Lemma warnings_logged (a : list Action) :
  props.warnings (props.logged a) = props.warnings a.
Proof.
  unfold props.warnings, props.logged in *.
  induction a as [|x a IH]; [done|].
  destruct x; cbn [List.filter]; by rewrite ?IH.
Qed.

(** The plain loop hands its handler every datagram it reads. *)
Lemma loopUdpIn_handled (l : Listener) (reads : list ReadResult) :
  packetHandler l = true →
  props.handled (loopOver (loopUdpIn_body l) reads).1
  = (λ d, (d.1.1, d.2)) <$> props.datagramsRead reads.
Proof.
  intros Hh. induction reads as [|r rest IH]; [done|].
  cbn [loopOver]. destruct r as [p oob remote|e [|]];
    cbn [loopUdpIn_body props.datagramsRead].
  - rewrite Hh. destruct (loopOver _ rest) as [acts e].
    cbn [fst] in *. rewrite handled_app, IH. reflexivity.
  - reflexivity.
  - destruct (loopOver _ rest) as [acts e']. cbn [fst] in *.
    rewrite handled_app, IH. reflexivity.
Qed.

(** The out-of-band loop hands its handler the datagrams that are not
    empty, and logs one warning for each empty one. *)
Lemma loopUdpInOOb_handled (l : Listener) (reads : list ReadResult) :
  packetHandlerOOb l = true →
  props.handledOOb (loopOver (loopUdpInOOb_body l) reads).1
  = List.filter (λ d, negb (props.isEmpty d)) (props.datagramsRead reads)
  ∧ props.warnings (loopOver (loopUdpInOOb_body l) reads).1
    = (λ _, props.zeroSizeWarning)
      <$> List.filter props.isEmpty (props.datagramsRead reads).
Proof.
  intros Hh. induction reads as [|r rest [IH1 IH2]]; [done|].
  cbn [loopOver]. destruct r as [p oob remote|e [|]];
    cbn [loopUdpInOOb_body props.datagramsRead].
  - destruct p as [|b p]; cbn [length Nat.eqb].
    + destruct (loopOver _ rest) as [acts e]. cbn [fst] in *.
      rewrite handledOOb_app, warnings_app, IH1, IH2. by split.
    + rewrite Hh. destruct (loopOver _ rest) as [acts e]. cbn [fst] in *.
      rewrite handledOOb_app, warnings_app, IH1, IH2. by split.
  - by split.
  - destruct (loopOver _ rest) as [acts e']. cbn [fst] in *.
    rewrite handledOOb_app, warnings_app, IH1, IH2. by split.
Qed.

(** C7 as it is worded fails for the plain receive loop: a zero-length
    datagram read without error is handed to the packet handler, and
    nothing is logged. *)
Lemma C7_plain_loop_forwards_zero_length_datagram :
  loopUdpIn props.boundUdpListener [ReadOk [] [] props.exampleClient]
  = ([CallHandlePacket [] props.exampleClient], InRead).
Proof. reflexivity. Qed.

(** The only lines the plain loop logs are the errors of its reads. *)
Lemma loopUdpIn_logged (l : Listener) (reads : list ReadResult) :
  packetHandler l = true →
  props.logged (loopOver (loopUdpIn_body l) reads).1
  = LogError "read udp message" <$> props.errorsRead reads.
Proof.
  intros Hh. induction reads as [|r rest IH]; [done|].
  cbn [loopOver]. destruct r as [p oob remote|e [|]];
    cbn [loopUdpIn_body props.errorsRead].
  - rewrite Hh. destruct (loopOver _ rest) as [acts e].
    cbn [fst] in *. rewrite logged_app, IH. reflexivity.
  - reflexivity.
  - destruct (loopOver _ rest) as [acts e']. cbn [fst] in *.
    rewrite logged_app, IH. reflexivity.
Qed.

(** C7, amended: on a bound listener, over any sequence of reads, the
    out-of-band receive loop hands its handler exactly the datagrams read
    without error that are not empty and logs one warning for each
    zero-length one; the plain receive loop hands its handler every
    datagram read without error, the zero-length ones included, and logs
    nothing for a datagram: it logs no warning, and the lines it logs are
    the errors of its reads.  Each loop is taken with its own handler set,
    whatever the other handler is. *)
Theorem C7_zero_length_datagram_dropped_by_oob_loop_only
  (l : Listener) (reads : list ReadResult) :
  is_Some (udpConn l) →
  0 ≤ UDPBufferSize (options l) →
  (packetHandlerOOb l = true →
   props.handledOOb (loopUdpInOOb l reads).1
   = List.filter (λ d, negb (props.isEmpty d)) (props.datagramsRead reads)
   ∧ props.warnings (loopUdpInOOb l reads).1
     = (λ _, props.zeroSizeWarning)
       <$> List.filter props.isEmpty (props.datagramsRead reads))
  ∧ (packetHandler l = true →
     props.handled (loopUdpIn l reads).1
     = (λ d, (d.1.1, d.2)) <$> props.datagramsRead reads
     ∧ props.warnings (loopUdpIn l reads).1 = []
     ∧ props.logged (loopUdpIn l reads).1
       = LogError "read udp message" <$> props.errorsRead reads).
Proof.
  intros [c Hc] Hsize. unfold loopUdpInOOb, loopUdpIn.
  rewrite Hc. destruct (Z.ltb_spec (UDPBufferSize (options l)) 0); [lia|].
  split.
  - intros Hoob. by apply loopUdpInOOb_handled.
  - intros Hh. split; [by apply loopUdpIn_handled|].
    pose proof (loopUdpIn_logged l reads Hh) as Hlog.
    split; [|done].
    rewrite <- (warnings_logged (loopOver (loopUdpIn_body l) reads).1), Hlog.
    clear. induction (props.errorsRead reads) as [|e es IH]; [done|].
    done.
Qed.

End ReceiveLoops.

Section UdpFlow.

Import netip traffics.

Variable now : nat → Z.

Lemma closes_app (a b : list FlowAction) :
  props.closes (a ++ b) = props.closes a ++ props.closes b.
Proof. unfold props.closes. by rewrite omap_app. Qed.

Lemma deferred_spec (client : AddrPort) (conn : net.Conn) (w : Flows) :
  track (deferred client conn w) = delete client (track w)
  ∧ props.closes (actions (deferred client conn w))
    = props.closes (actions w) ++ [conn].
Proof.
  split; [done|]. unfold deferred, act. simpl.
  rewrite <- app_assoc, closes_app. simpl.
  unfold props.closes at 2. simpl. done.
Qed.

(** A refused connection sends the loop back to its read, on the same
    socket and without a new deadline. *)
Lemma udpLoopOver_refused cfg client conn rearm k err rest w :
  isConnRefused err = true →
  udpLoopOver now cfg client conn rearm k (Err err :: rest) w
  = udpLoopOver now cfg client conn false (S k) rest
      (if rearm
       then act w (SetReadDeadline conn (now k + config.UDPKeepaliveTTL cfg))
       else w).
Proof. intros H. cbn [udpLoopOver]. by rewrite H. Qed.

(** The loop over any sequence of read results: it stops at the first
    fatal result, and only then touches the map and closes the socket. *)
Lemma udpLoopOver_spec cfg client conn reads :
  ∀ rearm k w,
    let r := udpLoopOver now cfg client conn rearm k reads w in
    if existsb props.fatal reads
    then r.2 = Terminated
         ∧ track r.1 = delete client (track w)
         ∧ props.closes (actions r.1) = props.closes (actions w) ++ [conn]
    else r.2 = Reading
         ∧ track r.1 = track w
         ∧ props.closes (actions r.1) = props.closes (actions w).
Proof.
  induction reads as [|rd rest IH]; intros rearm k w; cbn zeta.
  - simpl. destruct rearm; simpl; [|done].
    split; [done|]. split; [done|].
    rewrite closes_app. simpl. by rewrite app_nil_r.
  - cbn [udpLoopOver existsb].
    set (w1 := if rearm then act w _ else w).
    assert (track w1 = track w
            ∧ props.closes (actions w1) = props.closes (actions w))
      as [Ht Hc].
    { subst w1. destruct rearm; [|done]. split; [done|].
      simpl. rewrite closes_app. simpl. by rewrite app_nil_r. }
    destruct rd as [bs|err]; simpl.
    + set (w2 := if negb _ then act w1 _ else w1).
      assert (track w2 = track w1
              ∧ props.closes (actions w2) = props.closes (actions w1))
        as [Ht2 Hc2].
      { subst w2. destruct (negb _); [|done]. split; [done|].
        simpl. rewrite closes_app. simpl. by rewrite app_nil_r. }
      specialize (IH true (S k) w2). cbn zeta in IH.
      rewrite Ht2, Hc2, Ht, Hc in IH. exact IH.
    + cbn [props.fatal]. destruct (isConnRefused err); cbn [negb orb].
      * specialize (IH false (S k) w1). cbn zeta in IH.
        rewrite Ht, Hc in IH. exact IH.
      * destruct (deferred_spec client conn w1) as [Hd1 Hd2].
        cbn [fst snd]. by rewrite Hd1, Hd2, Ht, Hc.
Qed.

(** C3: in the upstream-read loop of a flow, read errors caused by
    ECONNREFUSED keep the loop reading (the flow's entry stays in the map
    and the socket stays open); the first other read error, a deadline
    timeout included, ends the loop, removes the client's entry from the
    connection-track map and closes the upstream socket. *)
Theorem C3_upstream_read_loop_errors cfg client conn reads w :
  let r := newUdpLoop now cfg client conn reads w in
  props.fatal (Err props.refusedRead) = false
  ∧ props.fatal (Err props.timeoutRead) = true
  ∧ if config.UDPBufferSize cfg <? 0
    then track r.1 = delete client (track w)
         ∧ props.closes (actions r.1) = props.closes (actions w) ++ [conn]
    else if existsb props.fatal reads
    then r.2 = Terminated
         ∧ track r.1 = delete client (track w)
         ∧ props.closes (actions r.1) = props.closes (actions w) ++ [conn]
    else r.2 = Reading
         ∧ track r.1 = track w
         ∧ props.closes (actions r.1) = props.closes (actions w).
Proof.
  cbn zeta. split; [done|]. split; [done|].
  unfold newUdpLoop.
  destruct (config.UDPBufferSize cfg <? 0).
  - apply deferred_spec.
  - apply udpLoopOver_spec.
Qed.

End UdpFlow.

Section Supervisor.

Import netip config traffics.

Variable GOOS : string.
Variable AddrString : Addr → string.

Local Abbreviation NewDefault := (dialer.NewDefault GOOS AddrString).
Local Abbreviation initDialerLoop := (initDialerLoop GOOS AddrString).
Local Abbreviation initDialer := (initDialer GOOS AddrString).

Local Abbreviation dialerBuilds := (props.dialerBuilds GOOS AddrString).
Local Abbreviation rejected := (props.rejected GOOS AddrString).
Local Abbreviation loopPost := (props.loopPost GOOS AddrString).

Lemma loopPost_zero remotes table err :
  (err = None → remotes = []) →
  (err ≠ None → ∃ v, remotes !! 0%nat = Some v ∧ rejected table v) →
  loopPost remotes table (table, err) 0.
Proof.
  intros Hnone Herr. unfold props.loopPost. simpl.
  split_and!.
  - lia.
  - constructor.
  - intros n Hn. by apply elem_of_nil in Hn.
  - constructor.
  - by rewrite (right_id_L ∅ (∪)).
  - lia.
  - done.
  - intros v Hv. by apply elem_of_nil in Hv.
  - intros H. by rewrite (Hnone H).
  - done.
Qed.

Lemma initDialerLoop_spec (remotes : list RemoteConfig) :
  ∀ table : gmap string DialerEntry,
    ∃ k, loopPost remotes table (initDialerLoop remotes table) k.
Proof.
  induction remotes as [|v rest IH]; intros table.
  - exists 0%nat. by apply loopPost_zero.
  - cbn [traffics.initDialerLoop].
    destruct (String.eqb_spec (rName v) "") as [He|He].
    { exists 0%nat. apply loopPost_zero; [done|].
      intros _. exists v. split; [done|]. by left. }
    destruct (table !! rName v) as [e|] eqn:Hl.
    { exists 0%nat. apply loopPost_zero; [done|].
      intros _. exists v. split; [done|]. right; left. by rewrite Hl. }
    destruct (NewDefault (dialConfigOf v)) as [dd|err] eqn:Hd.
    2:{ exists 0%nat. apply loopPost_zero; [done|].
        intros _. exists v. split; [done|]. right; right.
        unfold props.dialerBuilds. by rewrite Hd. }
    destruct (IH (<[rName v := mkDialerEntry (entryAddress v) dd]> table))
      as (k & Hk & Hnd & Hfresh & Hall & Hdom & Hsize & Hframe
          & Hin & Hok & Herr).
    assert (rName v ∉ rName <$> take k rest) as Hnotin.
    { intros Hn. apply Hfresh in Hn as [_ Hn].
      by rewrite lookup_insert_eq in Hn. }
    exists (S k). unfold props.loopPost. cbn [firstn fmap list_fmap length].
    split_and!.
    + lia.
    + by constructor.
    + intros n Hn. apply elem_of_cons in Hn as [->|Hn]; [done|].
      destruct (Hfresh n Hn) as [? Hnone]. split; [done|].
      rewrite lookup_insert_ne in Hnone; [done|].
      intros Heq. apply Hnotin. by rewrite Heq.
    + constructor; [|done]. unfold props.dialerBuilds. by rewrite Hd.
    + rewrite Hdom, dom_insert_L. cbn [list_to_set].
      by rewrite (assoc_L (∪)), (comm_L (∪) (dom table)).
    + rewrite Hsize, map_size_insert_None by done. lia.
    + intros n Hn. apply not_elem_of_cons in Hn as [Hne Hn].
      rewrite Hframe by done. by rewrite lookup_insert_ne.
    + intros v' Hv'. apply elem_of_cons in Hv' as [->|Hv'].
      * exists dd. split; [done|]. rewrite Hframe by done.
        by rewrite lookup_insert_eq.
      * by apply Hin.
    + intros H. by rewrite (Hok H).
    + intros H. destruct (Herr H) as (v' & Hv' & Hrej). by exists v'.
Qed.

Lemma NewTraffics_Ok UnmarshalLevel (cfg : Config) (t : Traffics) :
  NewTraffics UnmarshalLevel cfg = Ok t →
  nameToDialer t = ∅ ∧ Remotes (config_ t) = Remotes cfg.
Proof.
  unfold NewTraffics. destruct (newLogger _ _); [done|].
  intros [= <-]. done.
Qed.

(** C4: after [NewTraffics], [initDialer] succeeds exactly when the remote
    names are pairwise distinct and non-empty and a dialer can be built for
    every remote (so a shared or an empty name is a startup error); on
    success the table holds, for every remote, its entry under its name,
    and as many entries as there are remotes.  Whatever the outcome, every
    insertion went to a name not yet in the table: the table holds one
    entry per remote processed. *)
Theorem C4_dialer_table_one_entry_per_name
  (UnmarshalLevel : string → option error) (cfg : Config) (t : Traffics) :
  NewTraffics UnmarshalLevel cfg = Ok t →
  let r := initDialer t in
  let names := rName <$> Remotes cfg in
  (r.2 = None ↔
   (NoDup names ∧ ("" ∉ names)
    ∧ Forall (λ v, dialerBuilds v = true) (Remotes cfg)))
  ∧ (r.2 = None →
     dom (nameToDialer r.1) = list_to_set names
     ∧ size (nameToDialer r.1) = length (Remotes cfg)
     ∧ ∀ v, v ∈ Remotes cfg →
            ∃ dd, NewDefault (dialConfigOf v) = Ok dd
                  ∧ nameToDialer r.1 !! rName v
                    = Some (mkDialerEntry (entryAddress v) dd))
  ∧ (∃ k, (k ≤ length names)%nat
          ∧ NoDup (take k names)
          ∧ dom (nameToDialer r.1) = list_to_set (take k names)
          ∧ size (nameToDialer r.1) = k).
Proof.
  intros Hnew. apply NewTraffics_Ok in Hnew as [Hempty Hrem].
  cbn zeta. unfold traffics.initDialer. rewrite Hempty, Hrem.
  destruct (initDialerLoop_spec (Remotes cfg) ∅)
    as (k & Hk & Hnd & Hfresh & Hall & Hdom & Hsize & Hframe
        & Hin & Hok & Herr).
  destruct (initDialerLoop (Remotes cfg) ∅) as [table err] eqn:Hloop.
  cbn [fst snd nameToDialer] in *.
  rewrite dom_empty_L, (left_id_L ∅ (∪)) in Hdom.
  rewrite map_size_empty in Hsize. simpl in Hsize.
  assert (err = None → take k (Remotes cfg) = Remotes cfg) as Hfull.
  { intros H. apply take_ge. rewrite (Hok H). lia. }
  split_and!.
  - split.
    + intros H. rewrite (Hfull H) in Hnd, Hfresh, Hall.
      split_and!; [done| |done].
      intros Hin0. by destruct (Hfresh _ Hin0).
    + intros (Hnodup & Hne & Hbuild).
      destruct err as [e|]; [exfalso|done].
      destruct Herr as (v & Hv & Hrej); [done|].
      pose proof (take_drop_middle _ _ _ Hv) as Hsplit.
      assert (v ∈ Remotes cfg) as Hvin by (by eapply list_elem_of_lookup_2).
      destruct Hrej as [Hrej|[Hrej|Hrej]].
      * apply Hne. rewrite <- Hrej. by apply list_elem_of_fmap_2.
      * apply elem_of_dom in Hrej. rewrite Hdom in Hrej.
        apply elem_of_list_to_set in Hrej.
        rewrite <- Hsplit, fmap_app, fmap_cons in Hnodup.
        apply NoDup_app in Hnodup as (_ & Hdisj & _).
        apply (Hdisj _ Hrej). by left.
      * rewrite Forall_forall in Hbuild. specialize (Hbuild v Hvin).
        congruence.
  - intros H. rewrite (Hfull H) in Hdom, Hin. split_and!; [done| |done].
    rewrite Hsize. by apply Hok.
  - exists k. rewrite <- fmap_take. rewrite length_fmap.
    split_and!; done.
Qed.

End Supervisor.

Section BindURL.

Import netip config.

Variable url_Parse : string → result url.URL.
Variable ParseAddr : string → result Addr.
Variable ParseDuration : string → result Z.
Variable Atoi : string → result Z.

Local Abbreviation parseOption := (parseOption ParseDuration Atoi).
Local Abbreviation parseQuery := (parseQuery ParseDuration Atoi).
Local Abbreviation parseURL := (parseURL ParseAddr ParseDuration Atoi).
Local Abbreviation Parse := (Parse url_Parse ParseAddr ParseDuration Atoi).

(** No option of the query reads or writes the protocol. *)
Lemma parseOption_set_Network (c : BindConfig) (n : string) k v :
  parseOption (set_Network c n) k v
  = (set_Network (parseOption c k v).1 n, (parseOption c k v).2).
Proof.
  unfold config.parseOption, parseBoolOption.
  destruct (last v) as [val|]; [|done].
  repeat (match goal with
          | |- context [if ?b then _ else _] => destruct b
          | |- context [match ?x with _ => _ end] => destruct x
          end; try done).
Qed.

Lemma parseQuery_set_Network (q : list (string * list string)) :
  ∀ (c : BindConfig) (n : string),
    parseQuery (set_Network c n) q
    = (set_Network (parseQuery c q).1 n, (parseQuery c q).2).
Proof.
  induction q as [|[k v] rest IH]; intros c n; [done|].
  cbn [config.parseQuery]. rewrite parseOption_set_Network.
  destruct (parseOption c k v) as [c' [e|]]; [done|].
  cbn [fst snd]. apply IH.
Qed.

(** [valid] fills in an empty protocol with tcp+udp. *)
Lemma valid_empty_Network (c : BindConfig) :
  valid (set_Network c "") = valid (set_Network c constant.ProtocolTCPUDP).
Proof. reflexivity. Qed.

Lemma valid_Network (c : BindConfig) :
  Network c ≠ "" → Network (valid c).1 = Network c.
Proof.
  intros Hn. unfold valid.
  destruct (String.eqb_spec (Network c) ""); [done|].
  repeat (match goal with
          | |- context [if ?b then _ else _] => destruct b
          end; try done).
Qed.

(** No option of the query reads or writes the raw string, the listen
    address, the port or the protocol. *)
Lemma parseOption_withEndpoint (c : BindConfig) raw a p n k v :
  parseOption (bindfacts.withEndpoint c raw a p n) k v
  = (bindfacts.withEndpoint (parseOption c k v).1 raw a p n,
     (parseOption c k v).2).
Proof.
  unfold config.parseOption, parseBoolOption.
  destruct (last v) as [val|]; [|done].
  repeat (match goal with
          | |- context [if ?b then _ else _] => destruct b
          | |- context [match ?x with _ => _ end] => destruct x
          end; try done).
Qed.

Lemma parseQuery_withEndpoint (q : list (string * list string)) :
  ∀ (c : BindConfig) raw a p n,
    parseQuery (bindfacts.withEndpoint c raw a p n) q
    = (bindfacts.withEndpoint (parseQuery c q).1 raw a p n,
       (parseQuery c q).2).
Proof.
  induction q as [|[k v] rest IH]; intros c raw a p n; [done|].
  cbn [config.parseQuery]. rewrite parseOption_withEndpoint.
  destruct (parseOption c k v) as [c' [e|]]; [done|].
  cbn [fst snd]. apply IH.
Qed.

(** [valid] on a configuration with a port and no protocol, whose listen
    address is not of the family the bind excludes: it fills in tcp+udp and
    the unspecified address, returns nil, and would return nil again. *)
Lemma valid_withEndpoint (c : BindConfig) raw a p :
  p ≠ 0%N →
  bindfacts.familyAgrees (set_Listen c a) = true →
  let c' := bindfacts.withEndpoint c raw
              (if IsValid a then a else bindfacts.unspecified (Family c)) p
              constant.ProtocolTCPUDP in
  valid (bindfacts.withEndpoint c raw a p "") = (c', None)
  ∧ valid c' = (c', None).
Proof.
  intros Hp Hf. cbv zeta.
  destruct c as [raw0 listen p0 remote name network family iface ra tfo mp ttl
                   size frag].
  unfold bindfacts.familyAgrees, set_Listen in Hf.
  unfold valid, bindfacts.withEndpoint, bindfacts.unspecified, set_Network,
    set_Listen.
  cbn [Raw Listen Port Remote Name Network Family Interface ReuseAddr TFO
       MPTCP UDPKeepaliveTTL UDPBufferSize UDPFragment] in *.
  destruct (N.eqb_spec p 0) as [|_]; [done|].
  destruct a as [|a|a z]; cbn -[N.eqb] in Hf |- *.
  - destruct (String.eqb_spec family constant.FamilyIPv4) as [->|H4];
      cbn -[N.eqb]; destruct (N.eqb_spec p 0); done.
  - destruct (String.eqb_spec family constant.FamilyIPv6) as [->|H6];
      [done|]. cbn -[N.eqb]. destruct (N.eqb_spec p 0); done.
  - destruct (String.eqb_spec family constant.FamilyIPv4) as [->|H4];
      [done|]. cbn -[N.eqb]. destruct (N.eqb_spec p 0); done.
Qed.

(** A bind URL whose scheme [ParseProtocol] does not know and whose host,
    port and query are well formed is parsed, into a configuration that
    [valid] accepts. *)
Lemma Parse_without_protocol (c : BindConfig) s uu a p c2 :
  s ≠ "" → url_Parse s = Ok uu →
  url.Scheme uu ≠ "" → constant.ParseProtocol (url.Scheme uu) = "" →
  (if String.eqb (url.Hostname uu) "" then a = AddrZero
   else ParseAddr (url.Hostname uu) = Ok a) →
  (if String.eqb (url.Port uu) "" then p = Port c
   else parse.ParseUint16 (url.Port uu) = Ok p) →
  p ≠ 0%N →
  parseQuery c (url.Query uu) = (c2, None) →
  bindfacts.familyAgrees (set_Listen c2 a) = true →
  let c' := bindfacts.withEndpoint c2 s
              (if IsValid a then a else bindfacts.unspecified (Family c2)) p
              constant.ProtocolTCPUDP in
  Parse c s = (c', None) ∧ valid c' = (c', None).
Proof.
  intros Hs Hu Hne Hp Ha Hport Hp0 Hq Hf. cbv zeta.
  destruct (valid_withEndpoint c2 s a p Hp0 Hf) as [Hv1 Hv2].
  split; [|done].
  unfold config.Parse. rewrite Hu.
  destruct (String.eqb_spec s ""); [done|].
  unfold config.parseURL.
  destruct (String.eqb_spec (url.Scheme uu) ""); [done|]. cbn [negb].
  rewrite Hp.
  assert ((if negb (url.Hostname uu =? "")%string
           then ParseAddr (url.Hostname uu) else Ok AddrZero) = Ok a) as ->.
  { destruct (url.Hostname uu =? "")%string; cbn [negb]; by subst. }
  destruct (url.Port uu =? "")%string; cbn [negb].
  - subst p.
    change (set_Network (set_Listen (set_Raw c s) a) "")
      with (bindfacts.withEndpoint c s a (Port c) "").
    rewrite parseQuery_withEndpoint, Hq. cbn [fst snd]. exact Hv1.
  - rewrite Hport.
    change (set_Network (set_Port (set_Listen (set_Raw c s) a) p) "")
      with (bindfacts.withEndpoint c s a p "").
    rewrite parseQuery_withEndpoint, Hq. cbn [fst snd]. exact Hv1.
Qed.

(** C10: a bind URL whose scheme is not empty and not a recognised
    protocol string is parsed as if its scheme were tcp+udp: [ParseProtocol]
    returns the empty protocol for the scheme, [Parse] returns the error
    (or nil) it returns for the same URL under the scheme tcp+udp, and when
    it returns nil the resulting configuration is that one too, with
    protocol tcp+udp.  And [Parse] does return nil whenever the rest of the
    URL is well formed: the host is empty or parses to an address [a], the
    port is a number [p] of 16 bits other than zero (or is left out and the
    configuration has such a port), the options of the query are parsed
    without error, leaving [c2], and the address is not of the family the
    options exclude.  The configuration is then [c2] with the raw string,
    the address ([a], or the unspecified address of the family when there
    is no host), the port [p] and the protocol tcp+udp, and [valid] accepts
    it. *)
Theorem C10_unknown_scheme_binds_tcp_udp
  (c : BindConfig) (s : string) (uu : url.URL) :
  s ≠ "" →
  url_Parse s = Ok uu →
  url.Scheme uu ≠ "" →
  url.Scheme uu ∉ props.recognised →
  constant.ParseProtocol (url.Scheme uu) = ""
  ∧ (Parse c s).2 = (parseURL c s (props.withScheme uu "tcp+udp")).2
  ∧ ((Parse c s).2 = None →
     Network (Parse c s).1 = constant.ProtocolTCPUDP
     ∧ (Parse c s).1 = (parseURL c s (props.withScheme uu "tcp+udp")).1)
  ∧ (∀ (a : Addr) (p : N) (c2 : BindConfig),
       (if String.eqb (url.Hostname uu) "" then a = AddrZero
        else ParseAddr (url.Hostname uu) = Ok a) →
       (if String.eqb (url.Port uu) "" then p = Port c
        else parse.ParseUint16 (url.Port uu) = Ok p) →
       p ≠ 0%N →
       parseQuery c (url.Query uu) = (c2, None) →
       bindfacts.familyAgrees (set_Listen c2 a) = true →
       let c' := bindfacts.withEndpoint c2 s
                   (if IsValid a then a
                    else bindfacts.unspecified (Family c2)) p
                   constant.ProtocolTCPUDP in
       Parse c s = (c', None) ∧ valid c' = (c', None)).
Proof.
  intros Hs Hu Hne Hunk.
  assert (constant.ParseProtocol (url.Scheme uu) = "") as Hp
    by (by apply ParseProtocol_unknown).
  split; [done|].
  enough ((Parse c s).2 = (parseURL c s (props.withScheme uu "tcp+udp")).2
          ∧ ((Parse c s).2 = None →
             Network (Parse c s).1 = constant.ProtocolTCPUDP
             ∧ (Parse c s).1
               = (parseURL c s (props.withScheme uu "tcp+udp")).1))
    as [HA HB].
  { split; [exact HA|]. split; [exact HB|].
    intros a p c2 Ha Hport Hp0 Hq Hf.
    by apply (Parse_without_protocol c s uu a p c2). }
  unfold config.Parse. rewrite Hu.
  destruct (String.eqb_spec s ""); [done|].
  unfold config.parseURL. cbn [props.withScheme url.Hostname url.Port url.Scheme url.Query].
  destruct (if negb (url.Hostname uu =? "")%string then _ else _) as [a|e]; [|done].
  destruct (if negb (url.Port uu =? "")%string then _ else _) as [c1|e]; [|done].
  destruct (String.eqb_spec (url.Scheme uu) ""); [done|]. cbn [negb].
  rewrite Hp. change ("tcp+udp" =? "")%string with false. cbn [negb].
  change (constant.ParseProtocol "tcp+udp") with constant.ProtocolTCPUDP.
  rewrite !parseQuery_set_Network.
  destruct (parseQuery c1 (url.Query uu)) as [c2 [e|]]; cbn [fst snd]; [done|].
  rewrite valid_empty_Network. split; [done|]. intros Hv. split; [|done].
  by rewrite valid_Network.
Qed.

End BindURL.

(** ** The properties on concrete inputs *)

Section Examples.

Import netip.

(** C8 as it is worded fails: on a host that grants every bind (port 0),
    a second [Start] of a listener that was started returns nil again. *)
Lemma C8_second_Start_can_return_nil :
  let l0 := listener.NewListener (props.exampleOptions ["tcp"; "udp"] 0) in
  let first :=
    listener.Start nat props.grantAll props.grantAll props.showAddrPort
      3%nat l0 in
  props.outcome first = listener.Returned None
  ∧ props.outcome
      (listener.Start nat props.grantAll props.grantAll props.showAddrPort
         first.1.1.1 first.1.1.2)
    = listener.Returned None.
Proof. split; reflexivity. Qed.

(** The amended C8 on a host that refuses an address already bound: the
    second [Start] reports the refusal of its TCP bind. *)
Lemma C8_second_Start_on_exclusive_host :
  let l0 := listener.NewListener (props.exampleOptions ["tcp"; "udp"] 8080) in
  let first :=
    listener.Start _ props.exclusive props.exclusive props.showAddrPort [] l0 in
  props.outcome
    (listener.Start _ props.exclusive props.exclusive props.showAddrPort
       first.1.1.1 first.1.1.2)
  = listener.Returned
      (props.bindError _ props.exclusive props.exclusive props.showAddrPort
         first.1.1.1 l0).
Proof.
  cbv zeta.
  apply (C8_second_Start_binds_again _ props.exclusive props.exclusive
           props.showAddrPort [] _ _ _
           (listener.Start _ props.exclusive props.exclusive
              props.showAddrPort []
              (listener.NewListener
                 (props.exampleOptions ["tcp"; "udp"] 8080))).1.2).
  vm_compute. reflexivity.
Defined.

(** On that host the second [Start] does fail, with EADDRINUSE. *)
Example second_Start_address_in_use :
  let l0 := listener.NewListener (props.exampleOptions ["tcp"; "udp"] 8080) in
  let first :=
    listener.Start _ props.exclusive props.exclusive props.showAddrPort [] l0 in
  props.outcome
    (listener.Start _ props.exclusive props.exclusive props.showAddrPort
       first.1.1.1 first.1.1.2)
  = listener.Returned
      (Some (ErrWrap "listen"
               (OpError "listen" (SyscallError "bind" (Errno 98))))).
Proof. vm_compute. reflexivity. Qed.

(** C6 on a context whose deadline is three seconds ahead: the read
    deadline should be that deadline, the earlier of the two, and the call
    returns [DeadlineExceeded] instead. *)
Lemma C6_deadline_three_seconds_ahead :
  let now := props.someNow in
  let dead := now + 3 * constant.Second in
  props.spec_read_deadline (Some dead) now = dead
  ∧ resolver.exchange_deadline (Some dead) now
    = resolver.ReturnError ErrDeadlineExceeded
  ∧ resolver.exchange_deadline (Some dead) now
    ≠ resolver.SetReadDeadline (props.spec_read_deadline (Some dead) now).
Proof.
  cbv zeta. split; [reflexivity|].
  apply (C6_context_deadline_is_tested_against_zero_time
           (props.someNow + 3 * constant.Second) props.someNow).
  reflexivity.
Defined.

(** The same with a deadline ten seconds ahead, where five seconds from
    now is the earlier of the two. *)
Example deadline_ten_seconds_ahead :
  let now := props.someNow in
  let dead := now + 10 * constant.Second in
  props.spec_read_deadline (Some dead) now
  = now + constant.ResolverDefaultReadTimeout
  ∧ resolver.exchange_deadline (Some dead) now
    = resolver.ReturnError ErrDeadlineExceeded.
Proof. split; reflexivity. Qed.

(** The amended C7 on four reads: an empty datagram, a refused read, a
    datagram of two bytes and another empty datagram; the out-of-band loop
    on a listener with both handlers, the plain loop on a listener that has
    the plain handler only. *)
Lemma C7_four_reads :
  let reads := [listener.ReadOk [] [] props.exampleClient;
                listener.ReadErr props.refusedRead false;
                listener.ReadOk [104; 105]%N [] props.exampleClient;
                listener.ReadOk [] [] props.exampleClient] in
  (props.handledOOb (listener.loopUdpInOOb props.oobUdpListener reads).1
   = List.filter (λ d, negb (props.isEmpty d)) (props.datagramsRead reads)
   ∧ props.warnings (listener.loopUdpInOOb props.oobUdpListener reads).1
     = (λ _, props.zeroSizeWarning)
       <$> List.filter props.isEmpty (props.datagramsRead reads))
  ∧ (listener.packetHandlerOOb props.boundUdpListener = false
     ∧ props.handled (listener.loopUdpIn props.boundUdpListener reads).1
       = (λ d, (d.1.1, d.2)) <$> props.datagramsRead reads
     ∧ props.warnings (listener.loopUdpIn props.boundUdpListener reads).1 = []
     ∧ props.logged (listener.loopUdpIn props.boundUdpListener reads).1
       = listener.LogError "read udp message" <$> props.errorsRead reads).
Proof.
  cbv zeta. split.
  - refine (proj1 (C7_zero_length_datagram_dropped_by_oob_loop_only
                     props.oobUdpListener _ _ _) _).
    + vm_compute. eauto.
    + vm_compute. discriminate.
    + reflexivity.
  - split; [reflexivity|].
    refine (proj2 (C7_zero_length_datagram_dropped_by_oob_loop_only
                     props.boundUdpListener _ _ _) _).
    + vm_compute. eauto.
    + vm_compute. discriminate.
    + reflexivity.
Defined.

Example four_reads_handled :
  let l := props.oobUdpListener in
  let reads := [listener.ReadOk [] [] props.exampleClient;
                listener.ReadErr props.refusedRead false;
                listener.ReadOk [104; 105]%N [] props.exampleClient;
                listener.ReadOk [] [] props.exampleClient] in
  props.handledOOb (listener.loopUdpInOOb l reads).1
  = [([104; 105]%N, [], props.exampleClient)]
  ∧ props.warnings (listener.loopUdpInOOb l reads).1
    = [props.zeroSizeWarning; props.zeroSizeWarning]
  ∧ props.handled (listener.loopUdpIn l reads).1
    = [([], props.exampleClient); ([104; 105]%N, props.exampleClient);
       ([], props.exampleClient)].
Proof. vm_compute. done. Qed.

(** The UDP-only bind [udp://[::]:5353] on a host that grants it. *)
Lemma C9_udp_only_bind_granted :
  let o := props.exampleOptions ["udp"] 5353 in
  listener.Start nat props.grantAll props.grantAll props.showAddrPort 3%nat
    (listener.NewListener o)
  = (4%nat,
     listener.set_udpConn (listener.NewListener o)
       (net.mkConn 3 "[0]:5353" ""),
     [if listener.PacketHandlerOOb o then listener.Go "loopUdpInOOb"
      else listener.Go "loopUdpIn"],
     listener.Panicked listener.nilDereference).
Proof.
  cbv zeta.
  apply (C9_udp_only_Start_panics nat props.grantAll props.grantAll
           props.showAddrPort 3%nat 4%nat
           (props.exampleOptions ["udp"] 5353)
           (net.mkConn 3 "[0]:5353" "")).
  - reflexivity.
  - reflexivity.
  - reflexivity.
Defined.

(** The remotes [dns] and [web] make a table of two entries. *)
Lemma C4_two_remotes :
  let cfg := props.exampleConfig
               [props.exampleRemote "dns" "1.1.1.1" 53;
                props.exampleRemote "web" "backend.example.com" 80] in
  let t := traffics.mkTraffics cfg ∅ ∅ in
  let r := traffics.initDialer "linux" props.showAddr t in
  let names := config.rName <$> config.Remotes cfg in
  (r.2 = None ↔
   (NoDup names ∧ ("" ∉ names)
    ∧ Forall (λ v, props.dialerBuilds "linux" props.showAddr v = true)
        (config.Remotes cfg)))
  ∧ (r.2 = None →
     dom (traffics.nameToDialer r.1) = list_to_set names
     ∧ size (traffics.nameToDialer r.1) = length (config.Remotes cfg)
     ∧ ∀ v, v ∈ config.Remotes cfg →
            ∃ dd, dialer.NewDefault "linux" props.showAddr
                    (traffics.dialConfigOf v) = Ok dd
                  ∧ traffics.nameToDialer r.1 !! config.rName v
                    = Some (traffics.mkDialerEntry (traffics.entryAddress v) dd))
  ∧ (∃ k, (k ≤ length names)%nat
          ∧ NoDup (take k names)
          ∧ dom (traffics.nameToDialer r.1) = list_to_set (take k names)
          ∧ size (traffics.nameToDialer r.1) = k).
Proof.
  cbv zeta.
  apply (C4_dialer_table_one_entry_per_name "linux" props.showAddr
           props.anyLevel).
  reflexivity.
Defined.

(** Two remotes named [dns]: the second is refused and only the first is
    in the table. *)
Example duplicate_remote_name :
  let t := traffics.mkTraffics
             (props.exampleConfig
                [props.exampleRemote "dns" "1.1.1.1" 53;
                 props.exampleRemote "dns" "8.8.8.8" 53]) ∅ ∅ in
  let r := traffics.initDialer "linux" props.showAddr t in
  r.2 = Some (ErrNew "duplicated remote name: dns")
  ∧ size (traffics.nameToDialer r.1) = 1%nat
  ∧ traffics.address <$> (traffics.nameToDialer r.1 !! "dns")
    = Some "1.1.1.1:53".
Proof. vm_compute. done. Qed.

(** The bind URL [quic://:8443?remote=web&udp_ttl=30s]: the scheme is
    not recognised, and the URL is parsed into a bind of tcp+udp on port
    8443 of the unspecified address, which [valid] accepts. *)
Lemma C10_quic_scheme :
  let s := "quic://:8443?remote=web&udp_ttl=30s" in
  let Parse := config.Parse props.exampleUrlParse props.exampleParseAddr
                 props.exampleParseDuration props.exampleAtoi in
  let c' := config.mkBindConfig s config.IPv6Unspecified 8443 "web" ""
              constant.ProtocolTCPUDP "" "" false false false
              (30 * constant.Second) 65507 false in
  constant.ParseProtocol "quic" = ""
  ∧ Parse config.NewDefaultBind s = (c', None)
  ∧ config.valid c' = (c', None).
Proof.
  cbv zeta.
  pose proof (C10_unknown_scheme_binds_tcp_udp props.exampleUrlParse
                props.exampleParseAddr props.exampleParseDuration
                props.exampleAtoi config.NewDefaultBind
                "quic://:8443?remote=web&udp_ttl=30s"
                (url.mkURL "quic" "" "8443"
                   [("remote", ["web"]); ("udp_ttl", ["30s"])])) as H.
  destruct H as (H1 & _ & _ & H4).
  - discriminate.
  - reflexivity.
  - discriminate.
  - apply (bool_decide_unpack _). vm_compute. exact I.
  - split; [exact H1|].
    apply (H4 AddrZero 8443%N
             (config.set_UDPKeepaliveTTL
                (config.set_Remote config.NewDefaultBind "web")
                (30 * constant.Second))).
    + reflexivity.
    + reflexivity.
    + discriminate.
    + reflexivity.
    + reflexivity.
Defined.

Example quic_scheme_parses :
  config.Parse props.exampleUrlParse props.exampleParseAddr
    props.exampleParseDuration props.exampleAtoi config.NewDefaultBind
    "quic://:8443?remote=web&udp_ttl=30s"
  = (config.mkBindConfig "quic://:8443?remote=web&udp_ttl=30s"
       config.IPv6Unspecified 8443 "web" "" constant.ProtocolTCPUDP "" ""
       false false false (30 * constant.Second) 65507 false,
     None).
Proof. vm_compute. reflexivity. Qed.

(** Scenario S5 of the specification: two refused reads, a datagram, and
    then the idle timeout. *)
Example icmp_unreachable_is_masked :
  let reads := [Err props.refusedRead; Err props.refusedRead;
                Ok [1; 2; 3]%N] in
  let r := traffics.newUdpLoop (λ k, Z.of_nat k) config.NewDefaultBind
             props.exampleClient props.exampleUpstream reads
             props.exampleFlows in
  let r' := traffics.newUdpLoop (λ k, Z.of_nat k) config.NewDefaultBind
              props.exampleClient props.exampleUpstream
              (reads ++ [Err props.timeoutRead]) props.exampleFlows in
  r.2 = traffics.Reading
  ∧ traffics.track r.1 !! props.exampleClient = Some props.exampleUpstream
  ∧ r'.2 = traffics.Terminated
  ∧ traffics.track r'.1 !! props.exampleClient = None
  ∧ props.closes (traffics.actions r'.1) = [props.exampleUpstream].
Proof. vm_compute. done. Qed.

End Examples.

(** * Further properties of the packages *)

Section ConstantMore.

Import constant.

Lemma member_elem_of (s : string) (l : list string) :
  member s l = true ↔ s ∈ l.
Proof.
  unfold member. rewrite existsb_exists. split.
  - intros (x & Hin & Heq). apply String.eqb_eq in Heq as ->.
    by apply list_elem_of_In.
  - intros Hin. exists s. split; [by apply list_elem_of_In|].
    apply String.eqb_refl.
Qed.

Lemma member_false (s : string) (l : list string) :
  s ∉ l → member s l = false.
Proof.
  intros H. destruct (member s l) eqn:E; [|done].
  by apply member_elem_of in E.
Qed.

(** Membership in a list of literals, by evaluation. *)
Ltac in_list := apply (bool_decide_unpack _); by vm_compute.

Lemma recognised_cases (s : string) :
  s ∈ props.recognised ↔
  s = "tcp" ∨ s = "udp" ∨ s = "ip" ∨ s = "tcp+udp" ∨ s = "udp+tcp".
Proof.
  unfold props.recognised. rewrite !elem_of_cons, elem_of_nil. tauto.
Qed.

(** X1: [ParseProtocol] returns the empty protocol exactly for the
    strings outside tcp, udp, ip, tcp+udp and udp+tcp; it returns tcp+udp
    exactly for tcp+udp and udp+tcp; its value is always one of the four
    protocols or empty, and parsing its own result changes nothing. *)
Theorem X1_ParseProtocol_characterised (s : string) :
  (ParseProtocol s = "" ↔ s ∉ props.recognised)
  ∧ (ParseProtocol s = ProtocolTCPUDP ↔ s = "tcp+udp" ∨ s = "udp+tcp")
  ∧ ParseProtocol s ∈ names.protocolValues
  ∧ ParseProtocol (ParseProtocol s) = ParseProtocol s.
Proof.
  destruct (decide (s ∈ props.recognised)) as [Hin|Hout].
  - assert (ParseProtocol s ≠ "") as Hne by (by apply ParseProtocol_recognised).
    split; [split; [intros H; by destruct Hne|intros H; by destruct (H Hin)]|].
    apply recognised_cases in Hin.
    destruct Hin as [->|[->|[->|[->| ->]]]];
      (split_and!; [|in_list|by vm_compute]);
      (split; [intros H; vm_compute in H; first [discriminate|tauto]
              |intros [H|H]; first [discriminate|by vm_compute]]).
  - rewrite (ParseProtocol_unknown s Hout).
    split_and!; [by split| |in_list|done].
    rewrite recognised_cases in Hout.
    split; [done|]. intros [->| ->]; tauto.
Qed.

(** X2: whatever the scheme of a bind, the protocol list made from it
    enables TCP unless the scheme is udp or ip, and enables UDP unless the
    scheme is tcp or ip; an unrecognised scheme enables both. *)
Theorem X2_scheme_to_enabled_protocols (s : string) :
  let l := ToProtocolList (ParseProtocol s) in
  (Contain l ProtocolTCP = true ↔ s ≠ "udp" ∧ s ≠ "ip")
  ∧ (Contain l ProtocolUDP = true ↔ s ≠ "tcp" ∧ s ≠ "ip")
  ∧ (Contain l ProtocolIP = true ↔ s = "ip").
Proof.
  cbn zeta.
  destruct (decide (s ∈ props.recognised)) as [Hin|Hout].
  - apply recognised_cases in Hin.
    destruct Hin as [->|[->|[->|[->| ->]]]];
      (split_and!;
       (split; [ intros H; vm_compute in H;
                 first [discriminate | by split]
               | intros H; first [ by vm_compute | discriminate
                                 | destruct H; done ] ])).
  - rewrite (ParseProtocol_unknown s Hout).
    rewrite recognised_cases in Hout.
    split_and!.
    + split; [intros _; split; intros ->; tauto|by vm_compute].
    + split; [intros _; split; intros ->; tauto|by vm_compute].
    + split; [by vm_compute|intros ->; tauto].
Qed.

Lemma ParseNetwork_unknown (s : string) :
  s ∉ names.networkNames → ParseNetwork s = Err ErrInvalidNetwork.
Proof.
  intros Hout. unfold names.networkNames in Hout.
  rewrite !not_elem_of_cons in Hout.
  unfold ParseNetwork.
  rewrite !member_false; [done| | |];
    rewrite !not_elem_of_cons; split_and!; try tauto; apply not_elem_of_nil.
Qed.

Lemma networkNames_cases (s : string) :
  s ∈ names.networkNames ↔
  s = "tcp" ∨ s = "udp" ∨ s = "ip" ∨ s = "tcp4" ∨ s = "udp4" ∨ s = "ip4"
  ∨ s = "tcp6" ∨ s = "udp6" ∨ s = "ip6".
Proof.
  unfold names.networkNames. rewrite !elem_of_cons, elem_of_nil. tauto.
Qed.

(** X3: [ParseNetwork] accepts exactly nine names.  On success the
    protocol is tcp, udp or ip and the version 0, 4 or 6, and
    [Network.String] of the result gives the name back when the version is
    4 or 6, and the name followed by 0 when it is dual. *)
Theorem X3_ParseNetwork_characterised (s : string) :
  match ParseNetwork s with
  | Ok n =>
      s ∈ names.networkNames
      ∧ Protocol_ n ∈ names.protocols
      ∧ Version n ∈ [NetworkVersionDual; NetworkVersion4; NetworkVersion6]
      ∧ String_ n = if Version n =? NetworkVersionDual then s +:+ "0" else s
  | Err err => err = ErrInvalidNetwork ∧ s ∉ names.networkNames
  end.
Proof.
  destruct (decide (s ∈ names.networkNames)) as [Hin|Hout].
  - apply networkNames_cases in Hin.
    destruct Hin as [->|[->|[->|[->|[->|[->|[->|[->| ->]]]]]]]];
      (cbn -[names.networkNames names.protocols String_];
       split_and!; [in_list|in_list|in_list|by vm_compute]).
  - by rewrite (ParseNetwork_unknown s Hout).
Qed.

(** X4: [ProtocolList.Contain] answers for the protocol of a network name
    and ignores its version digit: it is true exactly when the operand is
    a protocol of the list followed by nothing, 4 or 6.  Any other operand
    (tcp+udp for one) is in no list. *)
Theorem X4_Contain_ignores_version (n : ProtocolList) (s : string) :
  Contain n s = true ↔
  ∃ p v, p ∈ names.protocols ∧ v ∈ [""; "4"; "6"] ∧ s = p +:+ v ∧ p ∈ n.
Proof.
  unfold Contain. split.
  - destruct (decide (s ∈ names.networkNames)) as [Hin|Hout].
    + apply networkNames_cases in Hin.
      destruct Hin as [->|[->|[->|[->|[->|[->|[->|[->| ->]]]]]]]];
        cbn -[member]; intros Hm; apply member_elem_of in Hm;
        [ exists "tcp", "" | exists "udp", "" | exists "ip", ""
        | exists "tcp", "4" | exists "udp", "4" | exists "ip", "4"
        | exists "tcp", "6" | exists "udp", "6" | exists "ip", "6" ];
        (split_and!; [in_list|in_list|reflexivity|exact Hm]).
    + by rewrite (ParseNetwork_unknown s Hout).
  - intros (p & v & Hp & Hv & -> & Hn).
    unfold names.protocols in Hp.
    rewrite !elem_of_cons, elem_of_nil in Hp, Hv.
    apply member_elem_of in Hn.
    destruct Hp as [->|[->|[->|[]]]]; destruct Hv as [->|[->|[->|[]]]];
      exact Hn.
Qed.

End ConstantMore.

Section ResolverMore.

Import netip resolver dnsclient.

(** X5: [Strategy.String] and [ParseStrategy] are inverse to each other
    on the five strategies: parsing the string of a valid strategy gives
    it back, the string of any other value is refused, and a string that
    parses is the string of the strategy it parses to. *)
Theorem X5_Strategy_String_round_trip :
  (∀ s : Strategy,
      ParseStrategy (Strategy_String s)
      = if (0 <=? s) && (s <? strategyMax) then (s, true)
        else (StrategyDefault, false))
  ∧ (∀ str : string,
        if (ParseStrategy str).2
        then Strategy_String (ParseStrategy str).1 = str
             ∧ Strategy_IsValid (ParseStrategy str).1 = true
        else (ParseStrategy str).1 = StrategyDefault).
Proof.
  split.
  - intros s. unfold Strategy_String.
    repeat (match goal with
            | |- context [Z.eqb s ?c] =>
                destruct (Z.eqb_spec s c) as [->|?]; [reflexivity|]
            end).
    destruct (_ && _) eqn:E.
    + apply andb_true_iff in E as [H1 H2].
      apply Z.leb_le in H1. apply Z.ltb_lt in H2.
      unfold strategyMax, StrategyPreferIPv4, StrategyPreferIPv6,
        StrategyIPv4Only, StrategyIPv6Only, StrategyDefault in *. lia.
    + reflexivity.
  - intros str. unfold ParseStrategy.
    repeat (match goal with
            | |- context [String.eqb str ?c] =>
                destruct (String.eqb_spec str c) as [->|?]; [by vm_compute|]
            end).
    reflexivity.
Qed.

Lemma collect_families (strategy : Strategy) (answer : list (list N)) :
  ∀ A AAAA,
    Forall (λ a, Is4 a = true) A → Forall (λ a, Is6 a = true) AAAA →
    Forall (λ a, Is4 a = true) (collect strategy answer A AAAA).1
    ∧ Forall (λ a, Is6 a = true) (collect strategy answer A AAAA).2
    ∧ (strategy = StrategyIPv6Only → A = [] →
       (collect strategy answer A AAAA).1 = [])
    ∧ (strategy = StrategyIPv4Only → AAAA = [] →
       (collect strategy answer A AAAA).2 = []).
Proof.
  induction answer as [|addr rest IH]; intros A AAAA HA HAAAA; [done|].
  cbn [collect]. destruct (AddrFromSlice addr) as [ip ok].
  destruct (negb ok || negb (IsValid ip)); [by apply IH|].
  set (A' := if _ && Is4 ip then _ else A).
  set (AAAA' := if _ && Is6 ip then _ else AAAA).
  assert (Forall (λ a, Is4 a = true) A') as HA'.
  { subst A'. destruct (_ && Is4 ip) eqn:E; [|done].
    apply andb_true_iff in E as [_ E]. apply Forall_app. by repeat constructor. }
  assert (Forall (λ a, Is6 a = true) AAAA') as HAAAA'.
  { subst AAAA'. destruct (_ && Is6 ip) eqn:E; [|done].
    apply andb_true_iff in E as [_ E]. apply Forall_app. by repeat constructor. }
  destruct (IH A' AAAA' HA' HAAAA') as (H1 & H2 & H3 & H4).
  split_and!; [done|done| |].
  - intros -> ->. apply H3; [done|]. subst A'. reflexivity.
  - intros -> ->. apply H4; [done|]. subst AAAA'. reflexivity.
Qed.

Lemma randomSortAddresses_Forall (P : Addr → Prop) draw raw :
  Forall P raw → Forall P (randomSortAddresses draw raw).
Proof.
  intros H. rewrite randomSortAddresses_eq.
  by destruct (length raw <=? 1)%nat.
Qed.

Lemma randomSortAddresses_nil draw : randomSortAddresses draw [] = [].
Proof. reflexivity. Qed.

(** X6: [SystemResolver.Lookup] refuses an unknown strategy and hands on
    the error of the host lookup; when it succeeds, the first list holds
    IPv4 addresses only and the second IPv6 addresses only, the first is
    empty under ipv6_only and the second under ipv4_only. *)
Theorem X6_SystemResolver_Lookup_families
  (LookupIPAddr : string → result (list (list N))) (draw : nat → nat)
  (fqdn : string) (strategy : Strategy) :
  match SystemResolver_Lookup LookupIPAddr draw fqdn strategy with
  | Ok (A, AAAA) =>
      Strategy_IsValid strategy = true
      ∧ is_ok (LookupIPAddr (Fqdn fqdn)) = true
      ∧ Forall (λ a, Is4 a = true) A
      ∧ Forall (λ a, Is6 a = true) AAAA
      ∧ (strategy = StrategyIPv6Only → A = [])
      ∧ (strategy = StrategyIPv4Only → AAAA = [])
  | Err err =>
      (Strategy_IsValid strategy = false ∧ err = errStrategyUnknown)
      ∨ (Strategy_IsValid strategy = true ∧ LookupIPAddr (Fqdn fqdn) = Err err)
  end.
Proof.
  unfold SystemResolver_Lookup.
  destruct (Strategy_IsValid strategy); cbn [negb]; [|by left].
  destruct (LookupIPAddr (Fqdn fqdn)) as [answer|err]; [|by right].
  destruct (collect_families strategy answer [] []) as (H1 & H2 & H3 & H4);
    [done|done|].
  destruct (collect strategy answer [] []) as [A AAAA]. cbn [fst snd] in *.
  split_and!; [done|done| | | |].
  - by apply randomSortAddresses_Forall.
  - by apply randomSortAddresses_Forall.
  - intros H. by rewrite H3.
  - intros H. by rewrite H4.
Qed.

End ResolverMore.

Section CacheMore.

Import netip resolver dnsclient dnsfacts.

(** The running minimum of [store]: from [m] over the TTLs [l]. *)
Lemma leastPositive_step (m t m' : N) (l : list N) :
  leastPositive m' ((if overrideTTL m t then t else m) :: l) →
  leastPositive m' (m :: t :: l).
Proof.
  unfold overrideTTL, leastPositive.
  destruct (N.eqb_spec m 0) as [->|Hm]; cbn [orb].
  - intros [[-> H]|(Hne & Hin & H)].
    + left. split; [done|]. inversion H; subst. by repeat constructor.
    + right. split; [done|]. split; [by right|].
      constructor; [by left|done].
  - destruct (N.ltb_spec 0 t) as [Ht|Ht]; cbn [andb].
    + destruct (N.ltb_spec t m) as [Hlt|Hge].
      * intros [[-> H]|(Hne & Hin & H)].
        { inversion H; subst. lia. }
        right. split; [done|]. split; [by right|].
        inversion H as [|? ? Hhd Htl]; subst.
        constructor; [right; lia|]. by constructor.
      * intros [[-> H]|(Hne & Hin & H)].
        { inversion H; subst. lia. }
        right. split; [done|].
        inversion H as [|? ? Hhd Htl]; subst. split.
        { apply elem_of_cons in Hin as [->|Hin]; [by left|by do 2 right]. }
        constructor; [done|]. constructor; [|done].
        right. destruct Hhd as [->|Hhd]; [done|lia].
    + assert (t = 0%N) as -> by lia.
      intros [[-> H]|(Hne & Hin & H)].
      { inversion H; subst. lia. }
      right. split; [done|].
      inversion H as [|? ? Hhd Htl]; subst. split.
      { apply elem_of_cons in Hin as [->|Hin]; [by left|by do 2 right]. }
      constructor; [done|]. constructor; [by left|done].
Qed.

Lemma storeLoop_spec (answer : list RR) :
  ∀ (minTTL : N) (result : cacheResult),
    let r := storeLoop answer minTTL result in
    leastPositive r.1.1 (minTTL :: addressTTLs answer)
    ∧ cA r.1.2 = cA result ++ recordsA answer
    ∧ cAAAA r.1.2 = cAAAA result ++ recordsAAAA answer
    ∧ answerAddresses r.2 = answerAddresses answer
    ∧ length r.2 = length answer.
Proof.
  induction answer as [|rr rest IH]; intros minTTL result; cbn zeta.
  - cbn. rewrite !app_nil_r. split_and!; try done.
    unfold leastPositive. destruct (N.eqb_spec minTTL 0) as [->|H].
    + left. by repeat constructor.
    + right. split; [done|]. split; [by left|].
      constructor; [right; lia|constructor].
  - destruct rr as [ttl a|ttl aaaa|ttl]; cbn [storeLoop Ttl].
    + set (m1 := if overrideTTL minTTL ttl then ttl else minTTL).
      specialize (IH m1 (mkCacheResult (cA result ++ [(AddrFromSlice a).1])
                           (cAAAA result))).
      cbn zeta in IH. destruct (storeLoop rest m1 _) as [[m r] out].
      cbn [fst snd cA cAAAA] in *.
      destruct IH as (H1 & H2 & H3 & H4 & H5). split_and!.
      * by apply leastPositive_step.
      * rewrite H2, <- app_assoc. done.
      * done.
      * cbn [answerAddresses]. rewrite H4. done.
      * cbn. by rewrite H5.
    + set (m1 := if overrideTTL minTTL ttl then ttl else minTTL).
      specialize (IH m1 (mkCacheResult (cA result)
                           (cAAAA result ++ [(AddrFromSlice aaaa).1]))).
      cbn zeta in IH. destruct (storeLoop rest m1 _) as [[m r] out].
      cbn [fst snd cA cAAAA] in *.
      destruct IH as (H1 & H2 & H3 & H4 & H5). split_and!.
      * by apply leastPositive_step.
      * done.
      * rewrite H3, <- app_assoc. done.
      * cbn [answerAddresses]. rewrite H4. done.
      * cbn. by rewrite H5.
    + specialize (IH minTTL result).
      cbn zeta in IH. destruct (storeLoop rest minTTL result) as [[m r] out].
      cbn [fst snd] in *.
      destruct IH as (H1 & H2 & H3 & H4 & H5). split_and!; try done.
      cbn. by rewrite H5.
Qed.

Lemma leastPositive_from_zero (m : N) (l : list N) :
  leastPositive m (0%N :: l) → leastPositive m l.
Proof.
  intros [[-> H]|(Hne & Hin & H)].
  - left. split; [done|]. by inversion H.
  - right. split; [done|]. inversion H; subst. split; [|done].
    apply elem_of_cons in Hin as [->|Hin]; done.
Qed.

Lemma storeMsg_cases (now : Instant) (m : Msg) :
  let r := storeMsg now m in
  (length (Questions m) ≠ 1%nat ∨ Answer m = []) ∧ r.1.1 ≠ None ∧ r.2 = None
  ∨ ∃ q ttl res out,
      Questions m = [q] ∧ Answer m ≠ []
      ∧ storeLoop (Answer m) 0 (mkCacheResult [] []) = (ttl, res, out)
      ∧ r.1.1 = None
      ∧ Answer r.1.2 = out
      ∧ Rcode r.1.2 = Rcode m
      ∧ r.2 = if (ttl =? 0)%N then None
              else Some (mkStoreRequest (qName q) res
                           (now + Z.of_N ttl * constant.Second)).
Proof.
  cbn zeta. unfold storeMsg.
  destruct (Questions m) as [|q [|q' qs]] eqn:Hq; cbn [length Nat.eqb negb orb].
  - left. split; [by left|done].
  - destruct (Answer m) as [|rr rest] eqn:Ha; cbn [length Nat.eqb].
    + left. split; [by right|done].
    + right. destruct (storeLoop (rr :: rest) 0 _) as [[ttl res] out] eqn:Hl.
      exists q, ttl, res, out. split_and!; try done.
      * by destruct (ttl =? 0)%N; [|destruct (After _ _)].
      * by destruct (ttl =? 0)%N; [|destruct (After _ _)].
      * by destruct (ttl =? 0)%N; [|destruct (After _ _)].
      * destruct (N.eqb_spec ttl 0); [done|].
        unfold After, Add.
        destruct (Z.ltb_spec (now + Z.of_N ttl * constant.Second) now) as [H|H];
          [|done].
        unfold constant.Second in H. lia.
  - left. split; [left; cbn; lia|done].
Qed.

(** X7: [store] refuses a message without exactly one question or with an
    empty answer section.  Otherwise it caches under the question's name,
    until the instant [now] plus the least positive TTL among the A and
    AAAA records, one address per A record and one per AAAA record, in
    answer order; when no address record has a positive TTL it caches
    nothing. *)
Theorem X7_store_expiry_is_least_positive_ttl (now : Instant) (m : Msg) :
  let r := storeMsg now m in
  (r.1.1 = None ↔ length (Questions m) = 1%nat ∧ Answer m ≠ [])
  ∧ match r.2 with
    | Some req =>
        r.1.1 = None
        ∧ (∃ q, Questions m = [q] ∧ key req = qName q)
        ∧ (∃ ttl, ttl ≠ 0%N
                  ∧ leastPositive ttl (addressTTLs (Answer m))
                  ∧ expire req = now + Z.of_N ttl * constant.Second)
        ∧ cA (value req) = recordsA (Answer m)
        ∧ cAAAA (value req) = recordsAAAA (Answer m)
    | None =>
        r.1.1 ≠ None ∨ Forall (λ t, t = 0%N) (addressTTLs (Answer m))
    end.
Proof.
  cbn zeta.
  destruct (storeMsg_cases now m)
    as [(Hbad & He & Hr)|(q & ttl & res & out & Hq & Ha & Hl & He & _ & _ & Hr)].
  - rewrite Hr. split; [|by left].
    split; [done|]. intros [H1 H2]. by destruct Hbad.
  - pose proof (storeLoop_spec (Answer m) 0 (mkCacheResult [] [])) as Hs.
    cbn zeta in Hs. rewrite Hl in Hs. cbn [fst snd cA cAAAA app] in Hs.
    destruct Hs as (Hlp & HA & HAAAA & _ & _).
    apply leastPositive_from_zero in Hlp.
    split; [split; [by rewrite Hq|done]|].
    rewrite Hr. destruct (N.eqb_spec ttl 0) as [->|Hne].
    + right. destruct Hlp as [[_ H]|[H _]]; done.
    + cbn [key value expire]. split_and!; [done|by exists q| |done|done].
      exists ttl. done.
Qed.

(** X8: what [store] caches is served by [load] exactly until its expiry:
    the entry is never empty, its expiry is later than the instant of the
    store, and [load] at an instant [t], given that entry, returns its two
    lists if [t] is not after the expiry and otherwise returns nothing and
    deletes the entry. *)
Theorem X8_store_then_load (now t : Instant) (m m' : Msg)
  (err : option error) (req : StoreRequest) :
  storeMsg now m = (err, m', Some req) →
  now < expire req
  ∧ (cA (value req) ≠ [] ∨ cAAAA (value req) ≠ [])
  ∧ load t (Some (value req, expire req))
    = if expire req <? t then ([], [], true)
      else (cA (value req), cAAAA (value req), false).
Proof.
  intros Hst.
  destruct (storeMsg_cases now m)
    as [(_ & _ & Hr)|(q & ttl & res & out & Hq & Ha & Hl & _ & _ & _ & Hr)];
    cbn zeta in *; rewrite Hst in *; cbn [fst snd] in *; [done|].
  destruct (N.eqb_spec ttl 0) as [->|Hne]; [done|].
  injection Hr as ->. cbn [key value expire].
  pose proof (storeLoop_spec (Answer m) 0 (mkCacheResult [] [])) as Hs.
  cbn zeta in Hs. rewrite Hl in Hs. cbn [fst snd cA cAAAA app] in Hs.
  destruct Hs as (Hlp & HA & HAAAA & _ & _).
  apply leastPositive_from_zero in Hlp.
  destruct Hlp as [[? _]|(_ & Hin & _)]; [done|].
  assert (cA res ≠ [] ∨ cAAAA res ≠ []) as Hnonempty.
  { rewrite HA, HAAAA. clear -Hin.
    induction (Answer m) as [|rr rest IH]; [by apply elem_of_nil in Hin|].
    destruct rr as [? a|? aaaa|?]; cbn in *;
      [by left|by right|by apply IH]. }
  split; [unfold constant.Second; lia|]. split; [done|].
  unfold load, After.
  destruct (_ <? t); [done|].
  destruct Hnonempty as [H|H].
  - destruct (cA res); done.
  - destruct (cA res); [|done]. destruct (cAAAA res); done.
Qed.

Lemma answerAddresses_valid (answer : list RR) :
  Forall (λ a, IsValid a = true) (answerAddresses answer).
Proof.
  induction answer as [|rr rest IH]; [constructor|].
  destruct rr as [ttl a|ttl a|ttl]; cbn [answerAddresses]; [| |done].
  - unfold AddrFromSlice.
    destruct (length a =? 4)%nat; [by constructor|].
    destruct (length a =? 16)%nat; [by constructor|done].
  - unfold AddrFromSlice.
    destruct (length a =? 4)%nat; [by constructor|].
    destruct (length a =? 16)%nat; [by constructor|done].
Qed.

(** X9: [CachedResolver.lookupToExchange] returns addresses exactly when
    the exchanger answers with a message whose rcode is NOERROR, whose id
    is the id of the query, that is not truncated, and that has one
    question and a non-empty answer section (a NOERROR answer without
    records is an error); the addresses are then the well-formed A and
    AAAA data of the answer, in order, all valid. *)
Theorem X9_lookupToExchange_accepts
  (Exchange : Msg → result (option Msg)) (now : Instant) (id : Z)
  (fqdn : string) (queryType : Z) (addrs : list Addr) :
  (lookupToExchange Exchange now id fqdn queryType).1 = Found addrs ↔
  ∃ resp, Exchange (query id fqdn queryType) = Ok (Some resp)
          ∧ accepted id resp
          ∧ addrs = answerAddresses (Answer resp)
          ∧ Forall (λ a, IsValid a = true) addrs.
Proof.
  unfold lookupToExchange, accepted. fold (query id fqdn queryType).
  destruct (Exchange (query id fqdn queryType)) as [[resp|]|e].
  2,3: split; [intros H; cbn in H; discriminate|intros (? & [=] & _)].
  cbn [Id query].
  destruct (Z.eqb_spec (Rcode resp) RcodeSuccess) as [Hrc|Hrc]; cbn [negb].
  2:{ split; [done|]. intros (? & [= <-] & (? & _) & _). done. }
  destruct (Z.eqb_spec (Id resp) id) as [Hid|Hid]; cbn [negb].
  2:{ split; [done|]. intros (? & [= <-] & (_ & ? & _) & _). done. }
  destruct (Truncated resp) eqn:Htr.
  { split; [done|]. intros (? & [= <-] & (_ & _ & ? & _) & _). congruence. }
  destruct (storeMsg_cases now resp)
    as [(Hbad & He & Hr)
       |(q & ttl & res & out & Hq & Ha & Hl & He & Hout & Hrc' & Hr)];
    cbn zeta in *; destruct (storeMsg now resp) as [[err resp'] req];
    cbn [fst snd] in *.
  - destruct err; [|done]. split; [done|].
    intros (? & [= <-] & (_ & _ & _ & H1 & H2) & _). by destruct Hbad.
  - subst err. unfold MessageToAddresses.
    rewrite Hrc', Hrc. cbn.
    pose proof (storeLoop_spec (Answer resp) 0 (mkCacheResult [] [])) as Hs.
    cbn zeta in Hs. rewrite Hl in Hs. cbn [fst snd] in Hs.
    destruct Hs as (_ & _ & _ & Haddr & _).
    rewrite Hout, Haddr. split.
    + intros [= <-]. exists resp. split_and!; try done.
      * by rewrite Hq.
      * apply answerAddresses_valid.
    + intros (? & [= <-] & _ & -> & _). done.
Qed.

(** Every operation keeps the counter at zero and the channel within its
    capacity. *)
Lemma runPool_invariant (ops : list PoolOp) :
  ∀ c c', connCount c = 0 → (length (conns c) ≤ 8)%nat →
          runPool ops c = Some c' →
          connCount c' = 0 ∧ (length (conns c') ≤ 8)%nat.
Proof.
  induction ops as [|op rest IH]; intros c c' Hc Hl; cbn [runPool].
  - by intros [= <-].
  - destruct op as [dial|conn|conn].
    + unfold newUdpConn. destruct (conns c) as [|x xs] eqn:Hx.
      * rewrite Hc. cbn. destruct dial; (apply IH; [done|rewrite Hx; cbn; lia]).
      * apply IH; cbn; [done|]. cbn in Hl. lia.
    + apply IH; unfold closeConn; rewrite Hc; by cbn.
    + unfold putBack, maxConn.
      destruct (Z.ltb_spec (Z.of_nat (length (conns c))) 8) as [H|H]; [|done].
      apply IH; cbn; [done|]. rewrite length_app. cbn. lia.
Qed.

(** X10: in the pool of [RawClient] the counter [connCount] is never
    raised: after any sequence of [newUdpConn], [closeConn] and put-back
    operations on a new client it is still 0 and the channel holds at most
    8 sockets, so [newUdpConn] never waits for a socket: with an empty
    channel it always dials, however many sockets are out. *)
Theorem X10_pool_limit_is_never_reached (ops : list PoolOp) (c : RawClient)
  (dial : result net.Conn) :
  runPool ops NewRawClient = Some c →
  connCount c = 0
  ∧ (length (conns c) ≤ 8)%nat
  ∧ newUdpConn dial c
    = match conns c with
      | conn :: rest => Done conn (mkRawClient rest 0)
      | [] => match dial with
              | Ok conn => Done conn c
              | Err err => DialError err
              end
      end.
Proof.
  intros H. apply runPool_invariant in H as [Hc Hl]; [|done|cbn; lia].
  split; [done|]. split; [done|].
  unfold newUdpConn. rewrite Hc. by destruct (conns c).
Qed.

End CacheMore.

Section DialerMore.

Import netip dialer.

Variable AddrString : Addr → string.
Variable AddrPortString : AddrPort → string.
Variable netDial : net.Dialer → string → string → result net.Conn.
Variable tfoDial :
  tfo.Dialer → string → string → option (list N) → result net.Conn.

Local Abbreviation dialOne := (dialOne AddrString AddrPortString netDial tfoDial).
Local Abbreviation dialLoop := (dialLoop AddrString AddrPortString netDial tfoDial).
Local Abbreviation DialSerial :=
  (DialSerial AddrString AddrPortString netDial tfoDial).

(** The loop returns the first connection it obtains, provided the
    context is not done at any check up to it. *)
Lemma dialLoop_Ok d ctx network nn port (addrs : list Addr) :
  ∀ i lastErr conn,
    dialLoop d ctx network nn port i addrs lastErr = Ok conn ↔
    ∃ k addr,
      addrs !! k = Some addr
      ∧ dialOne d network nn addr port = Ok conn
      ∧ (∀ j, (j ≤ k)%nat → Done ctx (i + j)%nat = false)
      ∧ (∀ j a, (j < k)%nat → addrs !! j = Some a →
                is_ok (dialOne d network nn a port) = false).
Proof.
  induction addrs as [|addr rest IH]; intros i lastErr conn; cbn [dialer.dialLoop].
  - split; [done|]. by intros (k & a & Hk & _).
  - destruct (Done ctx i) eqn:Hd.
    + split; [done|]. intros (k & a & _ & _ & Hdone & _).
      specialize (Hdone 0%nat). rewrite Nat.add_0_r in Hdone.
      rewrite Hdone in Hd; [done|lia].
    + destruct (dialOne d network nn addr port) as [c|e] eqn:Hone.
      * split.
        -- intros [= <-]. exists 0%nat, addr. split_and!; try done.
           ++ intros j Hj. assert (j = 0)%nat as -> by lia.
              by rewrite Nat.add_0_r.
           ++ intros j a Hj. lia.
        -- intros (k & a & Hk & Hok & Hdone & Hfail).
           destruct k as [|k].
           ++ cbn in Hk. injection Hk as <-. congruence.
           ++ specialize (Hfail 0%nat addr ltac:(lia) eq_refl).
              by rewrite Hone in Hfail.
      * rewrite IH. split.
        -- intros (k & a & Hk & Hok & Hdone & Hfail).
           exists (S k), a. split_and!; try done.
           ++ intros j Hj. destruct j as [|j].
              ** by rewrite Nat.add_0_r.
              ** rewrite <- Nat.add_succ_comm. apply Hdone. lia.
           ++ intros j a' Hj Ha'. destruct j as [|j].
              ** cbn in Ha'. injection Ha' as <-. by rewrite Hone.
              ** apply (Hfail j); [lia|done].
        -- intros (k & a & Hk & Hok & Hdone & Hfail).
           destruct k as [|k].
           { cbn in Hk. injection Hk as <-. congruence. }
           exists k, a. split_and!; try done.
           ++ intros j Hj. rewrite Nat.add_succ_comm. apply Hdone. lia.
           ++ intros j a' Hj Ha'. apply (Hfail (S j)); [lia|done].
Qed.

(** The error of the loop: the context's error at the first check that
    finds it done, or the error of the last attempt when all fail. *)
Lemma dialLoop_Err d ctx network nn port (addrs : list Addr) :
  ∀ i lastErr e,
    dialLoop d ctx network nn port i addrs lastErr = Err e →
    (∃ k, (k < length addrs)%nat ∧ Done ctx (i + k)%nat = true
          ∧ e = CtxErr ctx
          ∧ Forall (λ a, is_ok (dialOne d network nn a port) = false)
              (take k addrs))
    ∨ (Forall (λ a, is_ok (dialOne d network nn a port) = false) addrs
       ∧ e = Errorf_w "dialer: all addresses failed, last error"
               (match last addrs with
                | Some a => match dialOne d network nn a port with
                            | Err e' => Some e'
                            | Ok _ => lastErr
                            end
                | None => lastErr
                end)).
Proof.
  induction addrs as [|addr rest IH]; intros i lastErr e; cbn [dialer.dialLoop].
  - intros [= <-]. right. by split.
  - destruct (Done ctx i) eqn:Hd.
    + intros [= <-]. left. exists 0%nat. rewrite Nat.add_0_r. cbn.
      split_and!; try done. lia.
    + destruct (dialOne d network nn addr port) as [c|e1] eqn:Hone; [done|].
      intros H. apply IH in H as [(k & Hk & Hdone & -> & Hfail)|[Hfail ->]].
      * left. exists (S k). rewrite <- Nat.add_succ_comm. cbn.
        split_and!; try done; [lia|]. constructor; [by rewrite Hone|done].
      * right. split; [constructor; [by rewrite Hone|done]|].
        destruct rest as [|a' rest']; [simpl; by rewrite Hone|].
        rewrite last_cons_cons.
        destruct (last (a' :: rest')) as [a|] eqn:Hl;
          [|by apply last_None in Hl].
        destruct (dialOne d network nn a port) eqn:Ha; [|done].
        exfalso. rewrite Forall_forall in Hfail.
        assert (a ∈ a' :: rest') as Hin.
        { apply last_Some in Hl as [l' ->]. apply elem_of_app. right. by left. }
        specialize (Hfail a Hin). by rewrite Ha in Hfail.
Qed.

(** X11: [DialSerial] returns a connection exactly when the network name
    parses and some candidate (an address that passes the family filter)
    is dialed successfully while every candidate before it failed and the
    context was not done at any check up to it; the connection is that
    candidate's: the first success, in the order of the address list. *)
Theorem X11_DialSerial_returns_first_success
  (d : DefaultDialer) (ctx : Context) (network : string)
  (addresses : list Addr) (port : N) (conn : net.Conn) :
  DialSerial d ctx network addresses port = Ok conn ↔
  ∃ nn k addr,
    constant.ParseNetwork network = Ok nn
    ∧ filterAddressByNetwork nn addresses !! k = Some addr
    ∧ dialOne d network nn addr port = Ok conn
    ∧ (∀ j, (j ≤ k)%nat → Done ctx j = false)
    ∧ (∀ j a, (j < k)%nat →
              filterAddressByNetwork nn addresses !! j = Some a →
              is_ok (dialOne d network nn a port) = false).
Proof.
  unfold dialer.DialSerial.
  destruct addresses as [|a0 rest] eqn:Haddr.
  { split; [done|]. intros (nn & k & addr & _ & Hk & _).
    assert (filterAddressByNetwork nn [] = []) as Hnil.
    { unfold filterAddressByNetwork.
      by repeat (destruct (_ =? _)). }
    by rewrite Hnil in Hk. }
  cbn [length Nat.eqb]. rewrite <- Haddr. clear Haddr.
  destruct (constant.ParseNetwork network) as [nn|e].
  2:{ split; [done|]. by intros (? & ? & ? & ? & _). }
  destruct (filterAddressByNetwork nn addresses) as [|c cs] eqn:Hcs.
  { cbn. split; [done|]. intros (nn' & k & addr & [= <-] & Hk & _).
    by rewrite Hcs in Hk. }
  cbn [length Nat.eqb]. rewrite dialLoop_Ok. split.
  - intros (k & addr & H1 & H2 & H3 & H4).
    exists nn, k, addr. rewrite Hcs. done.
  - intros (nn' & k & addr & [= <-] & H1 & H2 & H3 & H4).
    rewrite Hcs in H1, H4. exists k, addr. done.
Qed.

(** X12: the errors of [DialSerial].  An empty address list, a network
    name that does not parse and a list without an address of the
    network's family are refused before any dial.  Otherwise the error is
    the context's error, when a check before some candidate finds the
    context done after all earlier candidates failed, or else every
    candidate failed and the error wraps the error of the last one. *)
Theorem X12_DialSerial_errors
  (d : DefaultDialer) (ctx : Context) (network : string)
  (addresses : list Addr) (port : N) (e : error) :
  DialSerial d ctx network addresses port = Err e →
  (addresses = [] ∧ e = ErrNew "dialer: no addresses to dial")
  ∨ (addresses ≠ [] ∧ constant.ParseNetwork network = Err e
     ∧ e = constant.ErrInvalidNetwork)
  ∨ ∃ nn, constant.ParseNetwork network = Ok nn ∧ addresses ≠ []
          ∧ let cs := filterAddressByNetwork nn addresses in
            (cs = []
             ∧ e = ErrNew ("dialer: no available address found for network: "
                             +:+ network))
            ∨ (∃ k, (k < length cs)%nat ∧ Done ctx k = true ∧ e = CtxErr ctx
                    ∧ Forall (λ a, is_ok (dialOne d network nn a port) = false)
                        (take k cs))
            ∨ (∃ a e', last cs = Some a
                       ∧ dialOne d network nn a port = Err e'
                       ∧ Forall (λ a, is_ok (dialOne d network nn a port) = false) cs
                       ∧ e = ErrWrap "dialer: all addresses failed, last error" e').
Proof.
  unfold dialer.DialSerial.
  destruct addresses as [|a0 rest] eqn:Haddr.
  { intros [= <-]. by left. }
  cbn [length Nat.eqb]. rewrite <- Haddr.
  assert (addresses ≠ []) as Hne by (by rewrite Haddr). clear Haddr.
  destruct (constant.ParseNetwork network) as [nn|e0] eqn:Hp.
  2:{ intros [= <-]. right; left. split_and!; try done.
      unfold constant.ParseNetwork in Hp.
      repeat (destruct (constant.member _ _); [done|]). by injection Hp. }
  intros H. right; right. exists nn. split; [done|]. split; [done|].
  cbn zeta.
  destruct (filterAddressByNetwork nn addresses) as [|c cs] eqn:Hcs.
  { cbn in H. injection H as <-. by left. }
  cbn [length Nat.eqb] in H. right.
  apply dialLoop_Err in H as [(k & Hk & Hdone & -> & Hfail)|[Hfail ->]].
  - left. by exists k.
  - right.
    destruct (last (c :: cs)) as [a|] eqn:Hl; [|by apply last_None in Hl].
    destruct (dialOne d network nn a port) as [?|e'] eqn:Ha.
    + exfalso. rewrite Forall_forall in Hfail.
      assert (a ∈ c :: cs) as Hin.
      { apply last_Some in Hl as [l' ->]. apply elem_of_app. right. by left. }
      specialize (Hfail a Hin). by rewrite Ha in Hfail.
    + by exists a, e'.
Qed.

(** X13: [NewDefault] fails only for a routing mark off Linux.  The
    sub-dialers it builds, which [DialSerial] uses for every valid
    candidate, carry the source address of the IPv4 family and the TFO
    flag and nothing else: no timeout, no socket-option callback
    (interface, routing mark, fragment bit), no keep-alive and no MPTCP;
    those settings are on the fallback dialer only. *)
Theorem X13_NewDefault_settings_stay_on_fallback_dialer
  (GOOS : string) (config : DialConfig) :
  match NewDefault GOOS AddrString config with
  | Err _ => cfgFwMark config ≠ 0 ∧ GOOS ≠ "linux"
  | Ok d =>
      (cfgFwMark config = 0 ∨ GOOS = "linux")
      ∧ net.Timeout (defaultDialer d)
        = cmp_Or (cfgTimeout config) constant.DialerDefaultTimeout
      ∧ (cfgInterface config ≠ "" →
         net.BindToInterface (cfgInterface config)
         ∈ net.Control (defaultDialer d))
      ∧ (cfgFwMark config ≠ 0 →
         net.RoutingMark (cfgFwMark config) ∈ net.Control (defaultDialer d))
      ∧ ∀ addr, IsValid addr = true →
                let '(t, u) := selectDialers d addr in
                Forall (λ dl, net.Timeout dl = 0 ∧ net.Control dl = []
                              ∧ net.KeepAlive dl = net.noKeepAlive
                              ∧ net.MultipathTCP dl = false)
                  [tfo.Dialer_ t; u]
                ∧ tfo.DisableTFO t = negb (cfgTFO config)
  end.
Proof.
  unfold NewDefault.
  destruct (Z.eqb_spec (cfgFwMark config) 0) as [Hm|Hm];
    destruct (String.eqb_spec GOOS "linux") as [Hg|Hg]; cbn [negb andb];
    try done.
  all: split; [tauto|]. 
  all: cbn [defaultDialer].
  all: split;
    [by destruct (negb (cfgUDPFragment config)), (cfgMPTCP config),
          (negb (cfgInterface config =? "")%string)|].
  all: split;
    [ intros Hi; destruct (String.eqb_spec (cfgInterface config) ""); [done|];
      cbn [negb];
      destruct (negb (cfgUDPFragment config)), (cfgMPTCP config); cbn;
      rewrite ?elem_of_app, ?elem_of_cons; tauto |].
  all: split;
    [ intros Hk; try done;
      destruct (negb (cfgInterface config =? "")%string),
        (negb (cfgUDPFragment config)), (cfgMPTCP config); cbn;
      rewrite ?elem_of_app, ?elem_of_cons; tauto |].
  all: intros addr Hv; destruct addr as [|a|a z]; [done| |];
    unfold selectDialers; cbn [Is4 Is6 dialer4 udpDialer4 tfo.Dialer_ tfo.DisableTFO];
    (split; [|done]);
    destruct (IsValid (cfgBindAddress4 config)); by repeat constructor.
Qed.

End DialerMore.

Section LifecycleMore.

Import netip listener lifecycle lifefacts.

Variable OS : Type.
Variable osListen : OS → ListenRequest → OS * result net.Conn.
Variable osListenPacket : OS → ListenRequest → OS * result net.Conn.
Variable AddrPortString : AddrPort → string.

Local Abbreviation Start := (Start OS osListen osListenPacket AddrPortString).
Local Abbreviation startUDP := (startUDP OS osListenPacket AddrPortString).
Local Abbreviation StartAll :=
  (supervisor.StartAll OS osListen osListenPacket AddrPortString).

(** What a [Start] that returns nil leaves in the UDP field. *)
Lemma startUDP_sockets (os os' : OS) (l l' : Listener) acts acts' :
  startUDP os l acts = (os', l', acts', Returned None) →
  tcpListener l' = tcpListener l
  ∧ if constant.Contain (Network (options l)) constant.ProtocolUDP
    then ∃ c, osListenPacket os (udpRequest AddrPortString l) = (os', Ok c)
              ∧ udpConn l' = Some c
    else udpConn l' = udpConn l ∧ os' = os.
Proof.
  unfold listener.startUDP, ListenUDP.
  destruct (constant.Contain _ constant.ProtocolUDP); [|by intros [= <- <- <-]].
  destruct (osListenPacket os _) as [os1 [c|e]] eqn:Hb; simpl; [|done].
  destruct (tcpListener l) eqn:Ht; [|done].
  intros [= <- <- <-]. split; [done|]. by exists c.
Qed.

(** The sockets a [Start] that returns nil leaves in the listener. *)
Lemma Start_sockets (os os' : OS) (l l' : Listener) (acts : list Action) :
  Start os l = (os', l', acts, Returned None) →
  (if constant.Contain (Network (options l)) constant.ProtocolTCP
   then ∃ os1 c, osListen os (tcpRequest AddrPortString l) = (os1, Ok c)
                 ∧ tcpListener l' = Some c
   else tcpListener l' = tcpListener l)
  ∧ (if constant.Contain (Network (options l)) constant.ProtocolUDP
     then ∃ os0 c, osListenPacket os0 (udpRequest AddrPortString l) = (os', Ok c)
                   ∧ udpConn l' = Some c
     else udpConn l' = udpConn l).
Proof.
  intros H. split; revert H; unfold listener.Start, ListenTCP.
  - destruct (constant.Contain _ constant.ProtocolTCP).
    + destruct (osListen os _) as [os1 [c|e]] eqn:Hb; simpl; [|done].
      intros H. apply startUDP_sockets in H as [Ht _].
      exists os1, c. by rewrite Ht.
    + intros H. by apply startUDP_sockets in H as [Ht _].
  - destruct (constant.Contain _ constant.ProtocolTCP).
    + destruct (osListen os _) as [os1 [c|e]] eqn:Hb; simpl; [|done].
      intros H. apply startUDP_sockets in H as [_ Hu].
      cbn [options set_tcpListener] in Hu.
      destruct (constant.Contain _ constant.ProtocolUDP).
      * destruct Hu as (c' & Hu1 & Hu2). by exists os1, c'.
      * by destruct Hu.
    + intros H. apply startUDP_sockets in H as [_ Hu].
      destruct (constant.Contain _ constant.ProtocolUDP).
      * destruct Hu as (c' & Hu1 & Hu2). by exists os, c'.
      * by destruct Hu.
Qed.

Lemma Close_closes_held (l : Listener) :
  closed (Close l).1 = held l ∧ (Close l).2 = None.
Proof. unfold Close, held, closed. by destruct (tcpListener l), (udpConn l). Qed.

(** X14: [Start] overwrites the sockets of the listener.  After a [Start]
    that returned nil the listener holds, for each protocol of its list,
    the socket the operating system granted in this call, whatever it held
    before, and for a protocol outside its list what it held before;
    [Close] closes the sockets the listener holds then and no other, so a
    socket of an earlier [Start] that was overwritten is never closed. *)
Theorem X14_Start_overwrites_sockets
  (os os' : OS) (l l' : Listener) (acts : list Action) :
  Start os l = (os', l', acts, Returned None) →
  (if constant.Contain (Network (options l)) constant.ProtocolTCP
   then ∃ os1 c, osListen os (tcpRequest AddrPortString l) = (os1, Ok c)
                 ∧ tcpListener l' = Some c
   else tcpListener l' = tcpListener l)
  ∧ (if constant.Contain (Network (options l)) constant.ProtocolUDP
     then ∃ os0 c, osListenPacket os0 (udpRequest AddrPortString l) = (os', Ok c)
                   ∧ udpConn l' = Some c
     else udpConn l' = udpConn l)
  ∧ closed (Close l').1 = held l'
  ∧ (Close l').2 = None.
Proof.
  intros H. apply Start_sockets in H as [H1 H2].
  destruct (Close_closes_held l') as [H3 H4]. done.
Qed.

Lemma handledConns_app (a b : list Action) :
  handledConns (a ++ b) = handledConns a ++ handledConns b.
Proof. unfold handledConns. by rewrite omap_app. Qed.

(** X15: the accept loop of a listener with a TCP listener and a
    connection handler hands the handler every connection it accepts, once
    and in the order of acceptance, and goes on after an accept error
    unless its context is done: the connections handled are those accepted
    before the first error seen with the context done. *)
Theorem X15_loopTcp_handles_every_connection
  (l : Listener) (accepts : list AcceptResult) :
  is_Some (tcpListener l) →
  connHandler l = true →
  handledConns (loopTcp l accepts).1 = accepted accepts
  ∧ ((loopTcp l accepts).2 = Exited ↔
     ∃ e, AcceptErr e true ∈ accepts).
Proof.
  intros [t Ht] Hh. unfold loopTcp. rewrite Ht.
  induction accepts as [|r rest [IH1 IH2]].
  - split; [done|]. split; [done|]. intros [e He]. by apply elem_of_nil in He.
  - destruct r as [c|e [|]]; cbn [acceptOver loopTcp_body accepted].
    + rewrite Hh. destruct (acceptOver l rest) as [acts' e']. cbn [fst snd] in *.
      rewrite handledConns_app, IH1. split; [done|].
      rewrite IH2. split; intros [e He]; exists e.
      * by right.
      * by apply elem_of_cons in He as [?|?].
    + split; [done|]. split; [|done]. intros _. exists e. by left.
    + destruct (acceptOver l rest) as [acts' e']. cbn [fst snd] in *.
      rewrite handledConns_app, IH1. split; [done|].
      rewrite IH2. split; intros [e0 He]; exists e0.
      * by right.
      * by apply elem_of_cons in He as [?|?].
Qed.

Lemma Start_bound (os os' : OS) (l l' : Listener) (acts : list Action) :
  Start os l = (os', l', acts, Returned None) → bound l'.
Proof.
  intros H.
  pose proof (Start_options OS osListen osListenPacket AddrPortString os l)
    as Ho. rewrite H in Ho. cbn [fst snd] in Ho.
  apply Start_sockets in H as [H1 H2]. unfold bound. rewrite Ho.
  split.
  - intros Ht. rewrite Ht in H1. destruct H1 as (? & c & _ & ->). by eexists.
  - intros Hu. rewrite Hu in H2. destruct H2 as (? & c & _ & ->). by eexists.
Qed.

(** [StartAll] keeps the listeners in place; it starts them up to the
    first one whose [Start] does not return nil. *)
Lemma StartAll_spec (listeners : list Listener) :
  ∀ os,
    let r := StartAll os listeners in
    options <$> r.1.1.2 = options <$> listeners
    ∧ ∃ k, (k ≤ length listeners)%nat
           ∧ drop (S k) r.1.1.2 = drop (S k) listeners
           ∧ Forall bound (take k r.1.1.2)
           ∧ (r.2 = Returned None ↔ k = length listeners).
Proof.
  induction listeners as [|l rest IH]; intros os; cbn zeta.
  - cbn. split; [done|]. exists 0%nat. cbn. split_and!; try done.
  - cbn [supervisor.StartAll].
    pose proof (Start_options OS osListen osListenPacket AddrPortString os l)
      as Hopt.
    destruct (Start os l) as [[[os1 l1] acts] out] eqn:Hs.
    cbn [fst snd] in Hopt.
    destruct out as [[e|]|msg].
    + cbn [fst snd]. split; [cbn; by rewrite Hopt|].
      exists 0%nat. cbn.
      split_and!; first [lia|done|by constructor|split; [done|lia]].
    + specialize (IH os1). cbn zeta in IH.
      destruct (StartAll os1 rest) as [[[os2 rest'] acts'] out'].
      cbn [fst snd] in *.
      destruct IH as (Hopts & k & Hk & Hdrop & Hbound & Hout).
      split; [cbn; by rewrite Hopt, Hopts|].
      exists (S k). cbn [length take drop firstn skipn].
      split_and!; try done; [lia| |].
      * constructor; [|done]. by eapply Start_bound.
      * rewrite Hout. split; [by intros ->|lia].
    + cbn [fst snd]. split; [cbn; by rewrite Hopt|].
      exists 0%nat. cbn.
      split_and!; first [lia|done|by constructor|split; [done|lia]].
Qed.

Lemma CloseAll_spec (listeners : list Listener) :
  closed (supervisor.CloseAll listeners).1 = flat_map held listeners
  ∧ (supervisor.CloseAll listeners).2 = None.
Proof.
  induction listeners as [|l rest [IH1 IH2]]; [done|].
  cbn [supervisor.CloseAll flat_map].
  destruct (Close_closes_held l) as [H1 H2].
  destruct (Close l) as [acts [e|]]; [done|]. cbn [fst snd] in *.
  destruct (supervisor.CloseAll rest) as [acts' e']. cbn [fst snd] in *.
  split; [|done]. unfold closed in *. by rewrite omap_app, H1, IH1.
Qed.

(** X16: [StartAll] starts the listeners in order and stops at the first
    whose [Start] does not return nil: it returns nil exactly when all
    were started, every listener before the stop holds a socket for each
    protocol of its list, and the listeners after the stop are left as
    they were; nothing is closed on a failure.  [CloseAll] afterwards
    returns nil and closes every socket the listeners hold. *)
Theorem X16_StartAll_stops_at_first_failure
  (os : OS) (listeners : list Listener) :
  let r := StartAll os listeners in
  (∃ k, (k ≤ length listeners)%nat
        ∧ (r.2 = Returned None ↔ k = length listeners)
        ∧ Forall bound (take k r.1.1.2)
        ∧ drop (S k) r.1.1.2 = drop (S k) listeners)
  ∧ options <$> r.1.1.2 = options <$> listeners
  ∧ closed (supervisor.CloseAll r.1.1.2).1 = flat_map held r.1.1.2
  ∧ (supervisor.CloseAll r.1.1.2).2 = None.
Proof.
  cbn zeta. destruct (StartAll_spec listeners os) as (Ho & k & H1 & H2 & H3 & H4).
  destruct (CloseAll_spec (StartAll os listeners).1.1.2) as [H5 H6].
  split_and!; try done. by exists k.
Qed.

End LifecycleMore.

Section SupervisorMore.

Import netip config traffics listener supervisor lifefacts.

Variable AddrPortString : AddrPort → string.

Local Abbreviation initListenerLoop := (initListenerLoop AddrPortString).
Local Abbreviation initListener := (initListener AddrPortString).

Lemma initListenerLoop_spec (table : gmap string DialerEntry)
  (binds : list BindConfig) :
  ∀ listeners,
    let r := initListenerLoop table binds listeners in
    ∃ k, (k ≤ length binds)%nat
         ∧ r.1 = listeners ++ ((λ v, NewListener (listenOptionsOf v))
                                 <$> take k binds)
         ∧ Forall (wired table) (take k binds)
         ∧ (r.2 = None ↔ k = length binds)
         ∧ (r.2 ≠ None → ∃ v, binds !! k = Some v ∧ ¬ wired table v).
Proof.
  induction binds as [|v rest IH]; intros listeners; cbn zeta.
  - exists 0%nat. cbn. rewrite app_nil_r. split_and!; try done.
  - cbn [supervisor.initListenerLoop].
    destruct (String.eqb_spec (Remote v) "") as [He|He].
    { exists 0%nat. cbn. rewrite app_nil_r.
      split_and!; [lia|done|constructor|split; intros ?; discriminate|].
      intros _. exists v. split; [done|]. by intros [? _]. }
    destruct (table !! Remote v) as [entry|] eqn:Hl.
    2:{ exists 0%nat. cbn. rewrite app_nil_r.
        split_and!; [lia|done|constructor|split; intros ?; discriminate|].
        intros _. exists v. split; [done|]. intros [_ [? H]].
        by rewrite Hl in H. }
    destruct (IH (listeners ++ [NewListener (listenOptionsOf v)]))
      as (k & Hk & Hr & Hw & Hout & Herr).
    exists (S k). cbn [length take firstn fmap list_fmap].
    split_and!.
    + lia.
    + rewrite Hr, <- app_assoc. done.
    + constructor; [|done]. split; [done|]. by rewrite Hl.
    + rewrite Hout. lia.
    + intros H. destruct (Herr H) as (v' & Hv' & Hnw). by exists v'.
Qed.

(** X17: [initListener] succeeds exactly when every bind names a remote
    that is in the dialer table (an empty name or a name without entry is
    an error).  In every case it adds one listener per bind up to the
    first bind it refuses, in the order of the configuration, each built
    from its bind and not yet started. *)
Theorem X17_initListener_one_listener_per_bind
  (t : Traffics) (listeners : list Listener) :
  let r := initListener t listeners in
  let binds := Binds (config_ t) in
  (r.2 = None ↔ Forall (wired (nameToDialer t)) binds)
  ∧ (r.2 = None →
     r.1 = listeners ++ ((λ v, NewListener (listenOptionsOf v)) <$> binds))
  ∧ ∃ k, (k ≤ length binds)%nat
         ∧ r.1 = listeners ++ ((λ v, NewListener (listenOptionsOf v))
                                 <$> take k binds)
         ∧ Forall (wired (nameToDialer t)) (take k binds).
Proof.
  cbn zeta. unfold supervisor.initListener.
  destruct (initListenerLoop_spec (nameToDialer t) (Binds (config_ t)) listeners)
    as (k & Hk & Hr & Hw & Hout & Herr).
  destruct (initListenerLoop _ _ _) as [ls err]. cbn [fst snd] in *.
  split_and!.
  - split.
    + intros H. apply Hout in H. subst k. by rewrite firstn_all in Hw.
    + intros Hall. destruct err as [e|]; [exfalso|done].
      destruct Herr as (v & Hv & Hnw); [done|]. apply Hnw.
      rewrite Forall_forall in Hall. apply Hall.
      by eapply list_elem_of_lookup_2.
  - intros H. apply Hout in H. subst k. by rewrite firstn_all in Hr.
  - by exists k.
Qed.

Section StartNothing.

Variable OS : Type.
Variable osListen : OS → ListenRequest → OS * result net.Conn.
Variable osListenPacket : OS → ListenRequest → OS * result net.Conn.

(** X18: the listener built for a bind whose network is not tcp, udp,
    tcp+udp or empty (ip for one, or udp+tcp written in a JSON object)
    has no handler, and its [Start] binds nothing and returns nil: the
    bind is accepted and silently forwards nothing. *)
Theorem X18_other_networks_bind_nothing (os : OS) (v : BindConfig) :
  config.Network v ∉ [""; "tcp"; "udp"; "tcp+udp"] →
  let l := NewListener (listenOptionsOf v) in
  packetHandler l = false
  ∧ connHandler l = false
  ∧ Start OS osListen osListenPacket AddrPortString os l
    = (os, l, [], Returned None).
Proof.
  intros Hn. rewrite !not_elem_of_cons in Hn.
  destruct Hn as (H0 & H1 & H2 & H3 & _).
  cbn zeta.
  assert (constant.ToProtocolList (config.Network v) = ["ip"]
          ∨ constant.ToProtocolList (config.Network v) = []) as Hl.
  { unfold constant.ToProtocolList.
    destruct (String.eqb_spec (config.Network v) constant.ProtocolTCP); [done|].
    destruct (String.eqb_spec (config.Network v) constant.ProtocolUDP); [done|].
    destruct (String.eqb_spec (config.Network v) constant.ProtocolTCPUDP); [done|].
    destruct (String.eqb_spec (config.Network v) ""); [done|]. cbn [orb].
    destruct (String.eqb (config.Network v) constant.ProtocolIP); eauto. }
  unfold listener.Start, listener.startUDP, NewListener, listenOptionsOf.
  cbn [options listener.Network packetHandler connHandler
         listener.PacketHandler listener.ConnHandler].
  destruct Hl as [-> | ->]; done.
Qed.

End StartNothing.

Section LoneBind.

Variable GOOS : string.
Variable AddrString : Addr → string.
Variable UnmarshalLevel : string → option error.

(** X19: a configuration of one bind without a remote name and one remote
    is wired together: when the logger can be made, the remote has a name
    and its dialer can be built, [NewTraffics], [initDialer] and
    [initListener] all succeed, the table holds the remote under its name
    and the manager holds the one listener of the bind. *)
Theorem X19_lone_bind_is_wired_to_lone_remote
  (b : BindConfig) (r : RemoteConfig) (log : LogConfig) :
  newLogger UnmarshalLevel log = None →
  Remote b = "" →
  rName r ≠ "" →
  props.dialerBuilds GOOS AddrString r = true →
  ∃ t0 t1,
    NewTraffics UnmarshalLevel (mkConfig [b] [r] log) = Ok t0
    ∧ Binds (config_ t0) = [set_Remote b (rName r)]
    ∧ initDialer GOOS AddrString t0 = (t1, None)
    ∧ dom (nameToDialer t1) = {[rName r]}
    ∧ initListener t1 []
      = ([NewListener (listenOptionsOf (set_Remote b (rName r)))], None).
Proof.
  intros Hlog Hb Hr Hd.
  unfold props.dialerBuilds in Hd.
  destruct (dialer.NewDefault GOOS AddrString (dialConfigOf r)) as [dd|] eqn:Hnd;
    [|done].
  unfold NewTraffics. cbn [Log Remotes Binds]. rewrite Hlog, Hb.
  cbn [String.eqb].
  eexists _, _. split; [reflexivity|]. split; [reflexivity|].
  unfold initDialer, supervisor.initListener.
  cbn [config_ nameToDialer Remotes Binds udpConnTrack initDialerLoop].
  destruct (String.eqb_spec (rName r) ""); [done|].
  rewrite lookup_empty, Hnd.
  split; [reflexivity|]. cbn [nameToDialer config_ Binds].
  split; [by rewrite dom_insert_L, dom_empty_L, (right_id_L ∅ (∪))|].
  cbn [supervisor.initListenerLoop Remote set_Remote].
  destruct (String.eqb_spec (rName r) ""); [done|].
  by rewrite lookup_insert_eq.
Qed.

End LoneBind.

End SupervisorMore.

(** ** The further properties on concrete inputs *)

Section MoreExamples.

Import netip.

(** X8 on an answer with a CNAME and two A records of TTL 300 and 60: the
    entry is cached for 60 seconds. *)
Lemma X8_example_answer_cached :
  let now := props.someNow in
  let req := dnsclient.mkStoreRequest "example.com."
               (dnsclient.mkCacheResult
                  [Addr4 1572395042; Addr4 1572395043] [])
               (now + 60 * constant.Second) in
  (dnsclient.storeMsg now dnsfacts.exampleAnswer).2 = Some req
  ∧ now < dnsclient.expire req
  ∧ (dnsclient.cA (dnsclient.value req) ≠ []
     ∨ dnsclient.cAAAA (dnsclient.value req) ≠ [])
  ∧ dnsclient.load (now + 61 * constant.Second)
      (Some (dnsclient.value req, dnsclient.expire req))
    = if dnsclient.expire req <? now + 61 * constant.Second
      then ([], [], true)
      else (dnsclient.cA (dnsclient.value req),
            dnsclient.cAAAA (dnsclient.value req), false).
Proof.
  cbv zeta. split; [vm_compute; reflexivity|].
  eapply (X8_store_then_load props.someNow
            (props.someNow + 61 * constant.Second) dnsfacts.exampleAnswer).
  vm_compute. reflexivity.
Defined.

(** X10 after nine dials in a row: nine sockets are out, the counter is
    still 0 and the next call dials again. *)
Lemma X10_nine_dials :
  let c := dnsclient.NewRawClient in
  let conn := net.mkConn 6 "" "9.9.9.9:53" in
  dnsclient.runPool samples.nineDials dnsclient.NewRawClient = Some c
  ∧ dnsclient.connCount c = 0
  ∧ (length (dnsclient.conns c) ≤ 8)%nat
  ∧ dnsclient.newUdpConn (Ok conn) c
    = match dnsclient.conns c with
      | conn' :: rest => dnsclient.Done conn' (dnsclient.mkRawClient rest 0)
      | [] => dnsclient.Done conn c
      end.
Proof.
  cbv zeta. split; [reflexivity|].
  apply (X10_pool_limit_is_never_reached samples.nineDials
           dnsclient.NewRawClient (Ok (net.mkConn 6 "" "9.9.9.9:53"))).
  reflexivity.
Defined.

(** X12 on a network that refuses every connect: the error of
    [DialSerial] for one IPv4 candidate wraps the refusal. *)
Lemma X12_every_connect_refused :
  let DialSerial := dialer.DialSerial props.showAddr props.showAddrPort
                      samples.refuseDial samples.refuseTfoDial in
  let dialOne := dialer.dialOne props.showAddr props.showAddrPort
                   samples.refuseDial samples.refuseTfoDial in
  let d := samples.plainDialer in
  let ctx := props.background in
  let addresses := [Addr4 3232235777; Addr6 1 ""] in
  let e := ErrWrap "dialer: all addresses failed, last error" samples.refused in
  DialSerial d ctx "tcp4" addresses 443%N = Err e
  ∧ ((addresses = [] ∧ e = ErrNew "dialer: no addresses to dial")
     ∨ (addresses ≠ [] ∧ constant.ParseNetwork "tcp4" = Err e
        ∧ e = constant.ErrInvalidNetwork)
     ∨ ∃ nn, constant.ParseNetwork "tcp4" = Ok nn ∧ addresses ≠ []
             ∧ let cs := dialer.filterAddressByNetwork nn addresses in
               (cs = []
                ∧ e = ErrNew ("dialer: no available address found for network: "
                                +:+ "tcp4"))
               ∨ (∃ k, (k < length cs)%nat ∧ dialer.Done ctx k = true
                       ∧ e = dialer.CtxErr ctx
                       ∧ Forall (λ a, is_ok (dialOne d "tcp4" nn a 443%N) = false)
                           (take k cs))
               ∨ (∃ a e', last cs = Some a
                          ∧ dialOne d "tcp4" nn a 443%N = Err e'
                          ∧ Forall (λ a, is_ok (dialOne d "tcp4" nn a 443%N) = false) cs
                          ∧ e = ErrWrap "dialer: all addresses failed, last error" e')).
Proof.
  cbv zeta. split; [reflexivity|].
  apply (X12_DialSerial_errors props.showAddr props.showAddrPort
           samples.refuseDial samples.refuseTfoDial samples.plainDialer
           props.background "tcp4" [Addr4 3232235777; Addr6 1 ""] 443%N).
  reflexivity.
Defined.

(** X14 on a host that grants every bind: a listener of tcp and udp that
    holds two sockets from an earlier [Start] holds two new ones after the
    next, and [Close] closes the new ones only. *)
Lemma X14_second_Start_replaces_sockets :
  let Start := listener.Start nat props.grantAll props.grantAll
                 props.showAddrPort in
  let l0 := listener.NewListener (props.exampleOptions ["tcp"; "udp"] 0) in
  let first := Start 3%nat l0 in
  let second := Start first.1.1.1 first.1.1.2 in
  let l1 := first.1.1.2 in
  let l2 := second.1.1.2 in
  lifecycle.held l1 = [net.mkConn 3 "[0]:0" ""; net.mkConn 4 "[0]:0" ""]
  ∧ second.2 = listener.Returned None
  ∧ lifefacts.closed (lifecycle.Close l2).1
    = [net.mkConn 5 "[0]:0" ""; net.mkConn 6 "[0]:0" ""]
  ∧ (if constant.Contain (listener.Network (listener.options l1))
          constant.ProtocolTCP
     then ∃ os1 c, props.grantAll first.1.1.1
                     (listener.tcpRequest props.showAddrPort l1) = (os1, Ok c)
                   ∧ listener.tcpListener l2 = Some c
     else listener.tcpListener l2 = listener.tcpListener l1)
  ∧ (if constant.Contain (listener.Network (listener.options l1))
          constant.ProtocolUDP
     then ∃ os0 c, props.grantAll os0
                     (listener.udpRequest props.showAddrPort l1)
                   = (second.1.1.1, Ok c)
                   ∧ listener.udpConn l2 = Some c
     else listener.udpConn l2 = listener.udpConn l1)
  ∧ lifefacts.closed (lifecycle.Close l2).1 = lifecycle.held l2
  ∧ (lifecycle.Close l2).2 = None.
Proof.
  cbv zeta. split; [vm_compute; reflexivity|].
  split; [vm_compute; reflexivity|]. split; [vm_compute; reflexivity|].
  apply (X14_Start_overwrites_sockets nat props.grantAll props.grantAll
           props.showAddrPort _ _ _ _
           (listener.Start nat props.grantAll props.grantAll
              props.showAddrPort
              (listener.Start nat props.grantAll props.grantAll
                 props.showAddrPort 3%nat
                 (listener.NewListener
                    (props.exampleOptions ["tcp"; "udp"] 0))).1.1.1
              (listener.Start nat props.grantAll props.grantAll
                 props.showAddrPort 3%nat
                 (listener.NewListener
                    (props.exampleOptions ["tcp"; "udp"] 0))).1.1.2).1.2).
  vm_compute. reflexivity.
Defined.

(** X15 on a connection, an accept error and another connection: both
    connections reach the handler and the loop is still accepting. *)
Lemma X15_three_accepts :
  let l := samples.boundTcpListener in
  let accepts := samples.threeAccepts in
  lifefacts.handledConns (lifecycle.loopTcp l accepts).1
  = lifefacts.accepted accepts
  ∧ ((lifecycle.loopTcp l accepts).2 = listener.Exited ↔
     ∃ e, lifecycle.AcceptErr e true ∈ accepts).
Proof.
  cbv zeta.
  apply (X15_loopTcp_handles_every_connection samples.boundTcpListener
           samples.threeAccepts).
  - vm_compute. eauto.
  - reflexivity.
Defined.

(** X18 on the bind [ip://:53]. *)
Lemma X18_ip_bind :
  let l := listener.NewListener (supervisor.listenOptionsOf samples.ipBind) in
  listener.packetHandler l = false
  ∧ listener.connHandler l = false
  ∧ listener.Start nat props.grantAll props.grantAll props.showAddrPort
      3%nat l
    = (3%nat, l, [], listener.Returned None).
Proof.
  cbv zeta.
  apply (X18_other_networks_bind_nothing props.showAddrPort nat
           props.grantAll props.grantAll 3%nat samples.ipBind).
  apply (bool_decide_unpack _). vm_compute. exact I.
Defined.

(** X19 on the command line [-l tcp://:9500 -r web://192.0.2.1:443]. *)
Lemma X19_one_bind_one_remote :
  let b := samples.tcpBind in
  let r := props.exampleRemote "web" "192.0.2.1" 443 in
  let log := config.mkLogConfig false "" in
  ∃ t0 t1,
    traffics.NewTraffics props.anyLevel (config.mkConfig [b] [r] log) = Ok t0
    ∧ config.Binds (traffics.config_ t0) = [config.set_Remote b "web"]
    ∧ traffics.initDialer "linux" props.showAddr t0 = (t1, None)
    ∧ dom (traffics.nameToDialer t1) = {["web"]}
    ∧ supervisor.initListener props.showAddrPort t1 []
      = ([listener.NewListener
            (supervisor.listenOptionsOf (config.set_Remote b "web"))], None).
Proof.
  cbv zeta.
  apply (X19_lone_bind_is_wired_to_lone_remote props.showAddrPort "linux"
           props.showAddr props.anyLevel samples.tcpBind
           (props.exampleRemote "web" "192.0.2.1" 443)
           (config.mkLogConfig false "")).
  - reflexivity.
  - reflexivity.
  - discriminate.
  - reflexivity.
Defined.

End MoreExamples.
